(** * CHIP-8 interpreter (chip8.c / chip8.h): shallow embedding and properties

    The machine state of [chip8.h] is a record of fixed-size arrays (lists)
    and fixed-width integers (Z with the wrap-around written out).  The
    functions of [chip8.c] that touch the machine state are translated one
    by one.  An array access outside its bounds is undefined behaviour in C;
    here it ends the run with [Undefined], which records the offending
    access. *)

From Stdlib Require Import ZArith Lia Bool.
From stdpp Require Import base tactics option list numbers.

Local Open Scope Z_scope.

(** ** Constants of chip8.h *)

Definition WINDOW_WIDTH : Z := 64.
Definition WINDOW_HEIGHT : Z := 32.
Definition NUM_REGISTERS : Z := 16.
Definition RAM_SIZE : Z := 0x1000.
Definition STACK_SIZE : Z := 0x40.
Definition FONT_SIZE : Z := 0x200.
Definition CHIP8_KEY_DOWN : Z := 1.
Definition CHIP8_KEY_UP : Z := 0.
Definition KEYS : Z := 16.

(** ** Fixed-width integers *)

(** Conversion to [uint8_t] and to [uint16_t]. *)
Definition u8 (z : Z) : Z := z mod 256.
Definition u16 (z : Z) : Z := z mod 65536.

(** C truth value of an integer, and the integer of a C comparison. *)
Definition truthy (z : Z) : bool := negb (z =? 0).
Definition of_bool (b : bool) : Z := if b then 1 else 0.

(** ** Data model (chip8.h) *)

Record Instruction : Type := mkInstruction {
  raw : Z;   (* uint16_t *)
  nnn : Z;   (* uint16_t *)
  n : Z;     (* uint8_t *)
  x : Z;     (* uint8_t *)
  y : Z;     (* uint8_t *)
  kk : Z     (* uint8_t *)
}.

Inductive State : Type := QUIT | PAUSED | RUNNING.

Record Chip8 : Type := mkChip8 {
  frameBuffer : list Z;     (* uint8_t [WINDOW_WIDTH * WINDOW_HEIGHT] *)
  V : list Z;               (* uint8_t [NUM_REGISTERS] *)
  stack : list Z;           (* uint16_t [STACK_SIZE] *)
  ram : list Z;             (* uint8_t [RAM_SIZE] *)
  keypad : list Z;          (* uint8_t [KEYS] *)
  indexRegister : Z;        (* uint16_t *)
  stackPointer : Z;         (* uint16_t*, kept as the offset from [stack] *)
  programCounter : Z;       (* uint16_t *)
  delayTimer : Z;           (* uint8_t *)
  soundTimer : Z;           (* uint8_t *)
  draw : Z;                 (* uint8_t *)
  instruction : Instruction;
  state : State
}.

(** The two [static] locals of the 0xFX0A case of [emulateInstruction]:
    they outlive the call, so they are threaded next to the machine. *)
Record Statics : Type := mkStatics {
  keyPressed : Z;   (* static uint8_t keyPressed = CHIP8_KEY_UP *)
  key : Z           (* static uint16_t key = 0xFF *)
}.

Definition statics0 : Statics :=
  {| keyPressed := CHIP8_KEY_UP; key := 0xFF |}.

(** Field updates. *)

Definition set_frameBuffer (v : list Z) (c : Chip8) : Chip8 :=
  mkChip8 v (V c) (stack c) (ram c) (keypad c) (indexRegister c)
    (stackPointer c) (programCounter c) (delayTimer c) (soundTimer c)
    (draw c) (instruction c) (state c).

Definition set_V (v : list Z) (c : Chip8) : Chip8 :=
  mkChip8 (frameBuffer c) v (stack c) (ram c) (keypad c) (indexRegister c)
    (stackPointer c) (programCounter c) (delayTimer c) (soundTimer c)
    (draw c) (instruction c) (state c).

Definition set_stack (v : list Z) (c : Chip8) : Chip8 :=
  mkChip8 (frameBuffer c) (V c) v (ram c) (keypad c) (indexRegister c)
    (stackPointer c) (programCounter c) (delayTimer c) (soundTimer c)
    (draw c) (instruction c) (state c).

Definition set_ram (v : list Z) (c : Chip8) : Chip8 :=
  mkChip8 (frameBuffer c) (V c) (stack c) v (keypad c) (indexRegister c)
    (stackPointer c) (programCounter c) (delayTimer c) (soundTimer c)
    (draw c) (instruction c) (state c).

Definition set_indexRegister (v : Z) (c : Chip8) : Chip8 :=
  mkChip8 (frameBuffer c) (V c) (stack c) (ram c) (keypad c) v
    (stackPointer c) (programCounter c) (delayTimer c) (soundTimer c)
    (draw c) (instruction c) (state c).

Definition set_stackPointer (v : Z) (c : Chip8) : Chip8 :=
  mkChip8 (frameBuffer c) (V c) (stack c) (ram c) (keypad c) (indexRegister c)
    v (programCounter c) (delayTimer c) (soundTimer c)
    (draw c) (instruction c) (state c).

Definition set_programCounter (v : Z) (c : Chip8) : Chip8 :=
  mkChip8 (frameBuffer c) (V c) (stack c) (ram c) (keypad c) (indexRegister c)
    (stackPointer c) v (delayTimer c) (soundTimer c)
    (draw c) (instruction c) (state c).

Definition set_delayTimer (v : Z) (c : Chip8) : Chip8 :=
  mkChip8 (frameBuffer c) (V c) (stack c) (ram c) (keypad c) (indexRegister c)
    (stackPointer c) (programCounter c) v (soundTimer c)
    (draw c) (instruction c) (state c).

Definition set_soundTimer (v : Z) (c : Chip8) : Chip8 :=
  mkChip8 (frameBuffer c) (V c) (stack c) (ram c) (keypad c) (indexRegister c)
    (stackPointer c) (programCounter c) (delayTimer c) v
    (draw c) (instruction c) (state c).

Definition set_draw (v : Z) (c : Chip8) : Chip8 :=
  mkChip8 (frameBuffer c) (V c) (stack c) (ram c) (keypad c) (indexRegister c)
    (stackPointer c) (programCounter c) (delayTimer c) (soundTimer c)
    v (instruction c) (state c).

Definition set_instruction (v : Instruction) (c : Chip8) : Chip8 :=
  mkChip8 (frameBuffer c) (V c) (stack c) (ram c) (keypad c) (indexRegister c)
    (stackPointer c) (programCounter c) (delayTimer c) (soundTimer c)
    (draw c) v (state c).

Definition set_state (v : State) (c : Chip8) : Chip8 :=
  mkChip8 (frameBuffer c) (V c) (stack c) (ram c) (keypad c) (indexRegister c)
    (stackPointer c) (programCounter c) (delayTimer c) (soundTimer c)
    (draw c) (instruction c) v.

(** ** Undefined behaviour and the result of a call *)

Inductive undefined : Type :=
| RamOutOfBounds (addr : Z)        (* ram[addr] with addr outside 0..RAM_SIZE-1 *)
| StackOutOfBounds (slot : Z)      (* stack slot outside 0..STACK_SIZE-1 *)
| KeypadOutOfBounds (k : Z).       (* keypad[k] with k outside 0..KEYS-1 *)

Inductive result (A : Type) : Type :=
| Ok (a : A)
| Undefined (u : undefined).

Arguments Ok {A} a.
Arguments Undefined {A} u.

#[global] Instance result_ret : MRet result := fun A a => Ok a.

#[global] Instance result_bind : MBind result := fun A B f r =>
  match r with
  | Ok a => f a
  | Undefined u => Undefined u
  end.

(** ** Array access *)

(** [a[i]] and [a[i] = v] for the two arrays the code indexes inside their
    bounds: the registers, indexed by a 4-bit field of the instruction
    ([nextInstruction_fields]), by 0xF or 0, or by a loop counter that stops
    at such a field; and the frame buffer, indexed by dy * WINDOW_WIDTH + dx
    with dx and dy kept below the width and the height by the breaks of
    the loops ([cell_in_frameBuffer]). *)
Definition get (a : list Z) (i : Z) : Z := a !!! Z.to_nat i.
Definition put (a : list Z) (i : Z) (v : Z) : list Z := <[Z.to_nat i := v]> a.

(** Checked access, for the arrays the code indexes with unchecked values. *)
Definition lookupZ (a : list Z) (i : Z) : option Z :=
  if 0 <=? i then a !! Z.to_nat i else None.

Definition read_ram (c : Chip8) (addr : Z) : result Z :=
  match lookupZ (ram c) addr with
  | Some b => Ok b
  | None => Undefined (RamOutOfBounds addr)
  end.

Definition write_ram (addr : Z) (v : Z) (c : Chip8) : result Chip8 :=
  match lookupZ (ram c) addr with
  | Some _ => Ok (set_ram (put (ram c) addr v) c)
  | None => Undefined (RamOutOfBounds addr)
  end.

Definition read_stack (c : Chip8) (slot : Z) : result Z :=
  match lookupZ (stack c) slot with
  | Some a => Ok a
  | None => Undefined (StackOutOfBounds slot)
  end.

Definition write_stack (slot : Z) (v : Z) (c : Chip8) : result Chip8 :=
  match lookupZ (stack c) slot with
  | Some _ => Ok (set_stack (put (stack c) slot v) c)
  | None => Undefined (StackOutOfBounds slot)
  end.

Definition read_keypad (c : Chip8) (k : Z) : result Z :=
  match lookupZ (keypad c) k with
  | Some b => Ok b
  | None => Undefined (KeypadOutOfBounds k)
  end.

(** ** updateTimers *)

Definition updateTimers (chip8 : Chip8) : Chip8 :=
  let c1 :=
    if truthy (delayTimer chip8)
    then set_delayTimer (u8 (delayTimer chip8 - 1)) chip8 else chip8 in
  if truthy (soundTimer c1)
  then set_soundTimer (u8 (soundTimer c1 - 1)) c1 else c1.

(** ** loadFont, initChip8, loadRom *)

(** The initialiser of [font] in [loadFont], row by row; the first
    component is the hexadecimal digit the source's comment gives the row. *)
Definition font_rows : list (Z * list Z) :=
  [ (0x0, [0xF0; 0x90; 0x90; 0x90; 0xF0]);
    (0x1, [0x20; 0x60; 0x20; 0x20; 0x70]);
    (0x2, [0xF0; 0x10; 0xF0; 0x80; 0xF0]);
    (0x3, [0xF0; 0x10; 0xF0; 0x10; 0xF0]);
    (0x4, [0x90; 0x90; 0xF0; 0x10; 0x10]);
    (0x5, [0xF0; 0x80; 0xF0; 0x10; 0xF0]);
    (0x6, [0xF0; 0x80; 0xF0; 0x90; 0xF0]);
    (0x7, [0xF0; 0x10; 0x20; 0x40; 0x40]);
    (0x8, [0xF0; 0x90; 0xF0; 0x90; 0xF0]);
    (0x9, [0xF0; 0x90; 0xF0; 0x10; 0xF0]);
    (0xC, [0xF0; 0x80; 0x80; 0x80; 0xF0]);
    (0xD, [0xE0; 0x90; 0x90; 0x90; 0xE0]);
    (0xE, [0xF0; 0x80; 0xF0; 0x80; 0xF0]);
    (0xF, [0xF0; 0x80; 0xF0; 0x80; 0x80]) ].

(** [const uint8_t font[FONT_SIZE] = {...}]: the listed bytes, the rest of
    the FONT_SIZE bytes zero-initialised. *)
Definition font : list Z :=
  let listed := concat (map snd font_rows) in
  listed ++ replicate (Z.to_nat FONT_SIZE - length listed) 0.

(** [memcpy(dst, src, len)] onto the start of an array. *)
Definition memcpy (dst src : list Z) (len : nat) : list Z :=
  take len src ++ drop len dst.

Definition loadFont (chip8 : Chip8) : Chip8 :=
  set_ram (memcpy (ram chip8) font (Z.to_nat FONT_SIZE)) chip8.

Definition initChip8 (chip8 : Chip8) : Chip8 :=
  let c1 := set_stackPointer 0 chip8 in
  let c2 := loadFont c1 in
  set_state RUNNING c2.

(** [Chip8 chip8 = {0}] in [main]. *)
Definition zeroChip8 : Chip8 :=
  {| frameBuffer := replicate (Z.to_nat (WINDOW_WIDTH * WINDOW_HEIGHT)) 0;
     V := replicate (Z.to_nat NUM_REGISTERS) 0;
     stack := replicate (Z.to_nat STACK_SIZE) 0;
     ram := replicate (Z.to_nat RAM_SIZE) 0;
     keypad := replicate (Z.to_nat KEYS) 0;
     indexRegister := 0;
     stackPointer := 0;
     programCounter := 0;
     delayTimer := 0;
     soundTimer := 0;
     draw := 0;
     instruction := mkInstruction 0 0 0 0 0 0;
     state := QUIT |}.

(** [loadRom], with the bytes of the file in place of its path: the bytes
    are copied to ram from 0x200 on and the program counter is set there.
    A file longer than the rest of ram makes [fread] write past the array. *)
Definition loadRom (chip8 : Chip8) (rom : list Z) : result Chip8 :=
  let programEntryPoint := 0x200 in
  let romSize := Z.of_nat (length rom) in
  if programEntryPoint + romSize <=? Z.of_nat (length (ram chip8)) then
    let head := take (Z.to_nat programEntryPoint) (ram chip8) in
    let tail := drop (Z.to_nat programEntryPoint) (ram chip8) in
    Ok (set_programCounter programEntryPoint
          (set_ram (head ++ memcpy tail rom (length rom)) chip8))
  else Undefined (RamOutOfBounds (Z.of_nat (length (ram chip8)))).

(** ** nextInstruction *)

(** The fields [nextInstruction] takes out of the raw opcode. *)
Definition decode (w : Z) : Instruction :=
  {| raw := w;
     nnn := Z.land w 0x0FFF;
     n := u8 (Z.land w 0x000F);
     x := u8 (Z.land (Z.shiftr w 8) 0x000F);
     y := u8 (Z.land (Z.shiftr w 4) 0x000F);
     kk := u8 (Z.land w 0x00FF) |}.

Definition nextInstruction (chip8 : Chip8) : result Chip8 :=
  hi ← read_ram chip8 (programCounter chip8);
  lo ← read_ram chip8 (programCounter chip8 + 1);
  let w := u16 (Z.lor (Z.shiftl hi 8) lo) in
  let c1 := set_programCounter (u16 (programCounter chip8 + 2)) chip8 in
  Ok (set_instruction (decode w) c1).

(** ** emulateInstruction *)

(** [chip8->V[i]] and [chip8->V[i] = v]. *)
Definition getV (c : Chip8) (i : Z) : Z := get (V c) i.
Definition setV (i v : Z) (c : Chip8) : Chip8 := set_V (put (V c) i v) c.

(** [chip8->programCounter += 2] and [chip8->programCounter -= 2]. *)
Definition pc_forward (c : Chip8) : Chip8 :=
  set_programCounter (u16 (programCounter c + 2)) c.
Definition pc_back (c : Chip8) : Chip8 :=
  set_programCounter (u16 (programCounter c - 2)) c.

(** Case 0x0, 0x00EE: [chip8->programCounter = *--chip8->stackPointer]. *)
Definition op_return (c : Chip8) : result Chip8 :=
  let sp := stackPointer c - 1 in
  a ← read_stack c sp;
  Ok (set_programCounter a (set_stackPointer sp c)).

(** Case 0x2: [*chip8->stackPointer++ = chip8->programCounter], then the
    jump to nnn. *)
Definition op_call (c : Chip8) : result Chip8 :=
  c1 ← write_stack (stackPointer c) (programCounter c) c;
  let c2 := set_stackPointer (stackPointer c1 + 1) c1 in
  Ok (set_programCounter (nnn (instruction c2)) c2).

(** Case 0x8: the switch on [instruction.n]. *)
Definition op_alu (c : Chip8) : Chip8 :=
  let X := x (instruction c) in
  let Y := y (instruction c) in
  match n (instruction c) with
  | 0x0 => setV X (getV c Y) c
  | 0x1 => setV X (Z.lor (getV c X) (getV c Y)) c
  | 0x2 => setV X (Z.land (getV c X) (getV c Y)) c
  | 0x3 => setV X (Z.lxor (getV c X) (getV c Y)) c
  | 0x4 =>
      let carry := of_bool (getV c X + getV c Y >? 0xFF) in
      let c1 := setV X (u8 (getV c X + getV c Y)) c in
      setV 0xF carry c1
  | 0x5 =>
      let c1 := setV 0xF (of_bool (getV c X >? getV c Y)) c in
      setV X (u8 (getV c1 X - getV c1 Y)) c1
  | 0x6 =>
      let c1 := setV 0xF (Z.land (getV c X) 1) c in
      setV X (Z.shiftr (getV c1 X) 1) c1
  | 0x7 =>
      let c1 := setV 0xF (of_bool (getV c Y >? getV c X)) c in
      setV X (u8 (getV c1 Y - getV c1 X)) c1
  | 0xE =>
      let c1 := setV 0xF (Z.land (Z.shiftr (getV c X) 7) 1) c in
      setV X (u8 (Z.shiftl (getV c1 X) 1)) c1
  | _ => c
  end.

(** Case 0xD, body of the inner loop up to its last line: one sprite bit
    against one frame-buffer cell.  The bitwise operations work on two
    [uint8_t] values and cannot leave the range of one. *)
Definition draw_bit (j : nat) (spriteByte dy dx : Z) (c : Chip8) : Chip8 :=
  let spriteBit := Z.land spriteByte (Z.shiftl 1 (Z.of_nat j)) in
  let i := dy * WINDOW_WIDTH + dx in
  let frameBufferByte := get (frameBuffer c) i in
  let c1 :=
    if truthy spriteBit && truthy frameBufferByte
    then setV 0xF (of_bool (truthy spriteBit && truthy frameBufferByte)) c
    else c in
  set_frameBuffer
    (put (frameBuffer c1) i (Z.lxor frameBufferByte spriteBit)) c1.

(** Case 0xD, inner loop [for (uint8_t j = 7; j > 0; j--)]: [j] is the
    loop variable, the recursion ends when [j > 0] fails; the last line of
    the body is [if (++dx >= WINDOW_WIDTH) break].  [dx] is returned to the
    caller's [dx = x] at the next row, so it is not part of the result. *)
Fixpoint draw_row (j : nat) (spriteByte dy dx : Z) (c : Chip8) : Chip8 :=
  match j with
  | O => c
  | S j' =>
      let c2 := draw_bit j spriteByte dy dx c in
      let dx' := u8 (dx + 1) in
      if dx' >=? WINDOW_WIDTH then c2 else draw_row j' spriteByte dy dx' c2
  end.

(** Case 0xD, outer loop [for (uint8_t i = 0; i < chip8->instruction.n; i++)]:
    [k] counts the iterations left, n - i. *)
Fixpoint draw_rows (k : nat) (i : Z) (x0 dy : Z) (c : Chip8) : result Chip8 :=
  match k with
  | O => Ok c
  | S k' =>
      spriteByte ← read_ram c (indexRegister c + i);
      let c1 := draw_row 7 spriteByte dy x0 c in
      let dy' := u8 (dy + 1) in
      if dy' >=? WINDOW_HEIGHT then Ok c1
      else draw_rows k' (u8 (i + 1)) x0 dy' c1
  end.

(** Case 0xD. *)
Definition op_draw (c : Chip8) : result Chip8 :=
  let dx := u8 (getV c (x (instruction c)) mod WINDOW_WIDTH) in
  let dy := u8 (getV c (y (instruction c)) mod WINDOW_HEIGHT) in
  let c1 := setV 0xF 0 c in
  c2 ← draw_rows (Z.to_nat (n (instruction c))) 0 dx dy c1;
  Ok (set_draw 1 c2).

(** Case 0xF, 0xFX0A: the loop
    [for (uint32_t i = 0; i < KEYS && key == 0xFF; i++)]; [k] counts the
    iterations left, KEYS - i. *)
Fixpoint scan_keypad (k : nat) (i : Z) (c : Chip8) (st : Statics)
  : result Statics :=
  match k with
  | O => Ok st
  | S k' =>
      if key st =? 0xFF then
        b ← read_keypad c i;
        if truthy b
        then Ok {| keyPressed := CHIP8_KEY_DOWN; key := u16 i |}
        else scan_keypad k' (i + 1) c st
      else Ok st
  end.

(** Case 0xF, 0xFX0A. *)
Definition op_wait_key (c : Chip8) (st : Statics) : result (Chip8 * Statics) :=
  st1 ← scan_keypad (Z.to_nat KEYS) 0 c st;
  if negb (truthy (keyPressed st1)) then Ok (pc_back c, st1)
  else
    b ← read_keypad c (key st1);
    if negb (truthy b) then Ok (pc_back c, st1)
    else Ok (setV (x (instruction c)) (u8 (key st1)) c,
             {| keyPressed := CHIP8_KEY_UP; key := 0xFF |}).

(** Case 0xF, 0xFX33. *)
Definition op_bcd (c : Chip8) : result Chip8 :=
  let bcd := getV c (x (instruction c)) in
  c1 ← write_ram (indexRegister c + 2) (bcd mod 10) c;
  let bcd := u8 (bcd / 10) in
  c2 ← write_ram (indexRegister c1 + 1) (bcd mod 10) c1;
  let bcd := u8 (bcd / 10) in
  write_ram (indexRegister c2) bcd c2.

(** Case 0xF, 0xFX55: [for (uint8_t i = 0; i <= chip8->instruction.x; i++)];
    [k] counts the iterations left, x + 1 - i. *)
Fixpoint store_registers (k : nat) (i : Z) (c : Chip8) : result Chip8 :=
  match k with
  | O => Ok c
  | S k' =>
      c1 ← write_ram (indexRegister c + i) (getV c i) c;
      store_registers k' (u8 (i + 1)) c1
  end.

(** Case 0xF, 0xFX65: the same loop, reading. *)
Fixpoint load_registers (k : nat) (i : Z) (c : Chip8) : result Chip8 :=
  match k with
  | O => Ok c
  | S k' =>
      b ← read_ram c (indexRegister c + i);
      load_registers k' (u8 (i + 1)) (setV i b c)
  end.

(** Case 0xF: the switch on [instruction.kk]. *)
Definition op_misc (c : Chip8) (st : Statics) : result (Chip8 * Statics) :=
  let X := x (instruction c) in
  match kk (instruction c) with
  | 0x07 => Ok (setV X (delayTimer c) c, st)
  | 0x0A => op_wait_key c st
  | 0x15 => Ok (set_delayTimer (getV c X) c, st)
  | 0x18 => Ok (set_soundTimer (getV c X) c, st)
  | 0x1E => Ok (set_indexRegister (u16 (indexRegister c + getV c X)) c, st)
  | 0x29 => Ok (set_indexRegister (u16 (getV c X * 5)) c, st)
  | 0x33 => c1 ← op_bcd c; Ok (c1, st)
  | 0x55 => c1 ← store_registers (Z.to_nat (X + 1)) 0 c; Ok (c1, st)
  | 0x65 => c1 ← load_registers (Z.to_nat (X + 1)) 0 c; Ok (c1, st)
  | _ => Ok (c, st)
  end.

(** The switch of [emulateInstruction] on [instruction.raw >> 12], which
    runs on the state the fetch leaves.  [rnd] is the value [rand()] returns
    if the instruction calls it, never a negative one; [st] holds the
    function's static locals.
    The [default] branch of the source only prints a message. *)
Definition execute (rnd : Z) (st : Statics) (c : Chip8)
  : result (Chip8 * Statics) :=
  let ins := instruction c in
  let X := x ins in
  let Y := y ins in
  match Z.shiftr (raw ins) 12 with
  | 0x0 =>
      if kk ins =? 0xE0 then
        Ok (set_draw 1
              (set_frameBuffer
                 (replicate (Z.to_nat (WINDOW_WIDTH * WINDOW_HEIGHT)) 0) c),
            st)
      else if kk ins =? 0xEE then c1 ← op_return c; Ok (c1, st)
      else Ok (c, st)
  | 0x1 => Ok (set_programCounter (nnn ins) c, st)
  | 0x2 => c1 ← op_call c; Ok (c1, st)
  | 0x3 => Ok (if getV c X =? kk ins then pc_forward c else c, st)
  | 0x4 => Ok (if negb (getV c X =? kk ins) then pc_forward c else c, st)
  | 0x5 => Ok (if getV c X =? getV c Y then pc_forward c else c, st)
  | 0x6 => Ok (setV X (kk ins) c, st)
  | 0x7 => Ok (setV X (u8 (getV c X + kk ins)) c, st)
  | 0x8 => Ok (op_alu c, st)
  | 0x9 => Ok (if negb (getV c X =? getV c Y) then pc_forward c else c, st)
  | 0xA => Ok (set_indexRegister (nnn ins) c, st)
  | 0xB => Ok (set_programCounter (u16 (nnn ins + getV c 0x0)) c, st)
  | 0xC => Ok (setV X (Z.land (rnd mod 256) (kk ins)) c, st)
  | 0xD => c1 ← op_draw c; Ok (c1, st)
  | 0xE =>
      match kk ins with
      | 0x9E =>
          b ← read_keypad c (getV c X);
          Ok (if truthy b then pc_forward c else c, st)
      | 0xA1 =>
          b ← read_keypad c (getV c X);
          Ok (if negb (truthy b) then pc_forward c else c, st)
      | _ => Ok (c, st)
      end
  | 0xF => op_misc c st
  | _ => Ok (c, st)
  end.

(** [emulateInstruction]: [nextInstruction], then the switch. *)
Definition emulateInstruction (rnd : Z) (st : Statics) (chip8 : Chip8)
  : result (Chip8 * Statics) :=
  c ← nextInstruction chip8;
  execute rnd st c.

(** The loop of [main] that calls [emulateInstruction]: one cycle for each
    element of [rnds], which lists what [rand()] would return in each. *)
Fixpoint emulateCycles (rnds : list Z) (st : Statics) (chip8 : Chip8)
  : result (Chip8 * Statics) :=
  match rnds with
  | [] => Ok (chip8, st)
  | rnd :: rnds' =>
      '(c1, st1) ← emulateInstruction rnd st chip8;
      emulateCycles rnds' st1 c1
  end.

(** The state [main] reaches before its loop, for a ROM file with the
    bytes [rom]. *)
Definition boot (rom : list Z) : result Chip8 :=
  loadRom (initChip8 zeroChip8) rom.

(** ** The cells a sprite touches *)

(** What case 0xD XORs into frame-buffer cell [cell], as a function of the
    sprite and the origin alone: [row_mask] follows [draw_row] and
    [rows_mask] follows [draw_rows], without the frame buffer. *)
Fixpoint row_mask (j : nat) (spriteByte dy dx : Z) (cell : nat) : Z :=
  match j with
  | O => 0
  | S j' =>
      let spriteBit := Z.land spriteByte (Z.shiftl 1 (Z.of_nat j)) in
      let here :=
        if decide (Z.to_nat (dy * WINDOW_WIDTH + dx) = cell)
        then spriteBit else 0 in
      let dx' := u8 (dx + 1) in
      Z.lxor here
        (if dx' >=? WINDOW_WIDTH then 0 else row_mask j' spriteByte dy dx' cell)
  end.

Fixpoint rows_mask (k : nat) (i x0 dy : Z) (mem : list Z) (index : Z)
    (cell : nat) : Z :=
  match k with
  | O => 0
  | S k' =>
      match lookupZ mem (index + i) with
      | Some spriteByte =>
          let dy' := u8 (dy + 1) in
          Z.lxor (row_mask 7 spriteByte dy x0 cell)
            (if dy' >=? WINDOW_HEIGHT then 0
             else rows_mask k' (u8 (i + 1)) x0 dy' mem index cell)
      | None => 0
      end
  end.

(** ** Well-formed machine states *)

(** The value ranges of the C types and the sizes of the arrays. *)
Definition byte (z : Z) : Prop := 0 <= z < 256.
Definition word16 (z : Z) : Prop := 0 <= z < 65536.

Definition wf (c : Chip8) : Prop :=
  (length (frameBuffer c) = Z.to_nat (WINDOW_WIDTH * WINDOW_HEIGHT)
   /\ Forall byte (frameBuffer c))
  /\ (length (V c) = Z.to_nat NUM_REGISTERS /\ Forall byte (V c))
  /\ (length (stack c) = Z.to_nat STACK_SIZE /\ Forall word16 (stack c))
  /\ (length (ram c) = Z.to_nat RAM_SIZE /\ Forall byte (ram c))
  /\ (length (keypad c) = Z.to_nat KEYS /\ Forall byte (keypad c))
  /\ word16 (indexRegister c)
  /\ 0 <= stackPointer c <= STACK_SIZE
  /\ word16 (programCounter c)
  /\ byte (delayTimer c) /\ byte (soundTimer c) /\ byte (draw c)
  /\ (word16 (raw (instruction c)) /\ word16 (nnn (instruction c))
      /\ byte (n (instruction c)) /\ byte (x (instruction c))
      /\ byte (y (instruction c)) /\ byte (kk (instruction c))).

#[global] Instance byte_dec z : Decision (byte z).
Proof. unfold byte. apply _. Defined.

#[global] Instance word16_dec z : Decision (word16 z).
Proof. unfold word16. apply _. Defined.

#[global] Instance wf_dec c : Decision (wf c).
Proof. unfold wf. apply _. Defined.

(** ** Notions used in the statements *)

(** Everything a draw leaves alone: all of the machine but the registers
    and the frame buffer. *)
Definition same_but_V_frameBuffer (c c' : Chip8) : Prop :=
  c' = set_frameBuffer (frameBuffer c') (set_V (V c') c).

(** The call did not end in an access outside [ram]. *)
Definition ram_safe {A} (r : result A) : Prop :=
  forall a, r <> Undefined (RamOutOfBounds a).

(** What [draw] of chip8.c tests before it paints cell [i]:
    [if (chip8->frameBuffer[i])]. *)
Definition pixel_on (c : Chip8) (i : Z) : bool := truthy (get (frameBuffer c) i).

(** The row of [font] the source labels with digit [d], and the bytes of
    ram from an address on. *)
Definition labelled_row (d : Z) : option (list Z) :=
  snd <$> find (fun r => fst r =? d) font_rows.

Definition bytes_at (c : Chip8) (addr : Z) (len : nat) : list Z :=
  take len (drop (Z.to_nat addr) (ram c)).

(** A result whose machine, if there is one, is well formed. *)
Definition wf_result (r : result (Chip8 * Statics)) : Prop :=
  forall c st, r = Ok (c, st) -> wf c.

(** ** Programs and states used as concrete inputs *)

(** Runs [k] cycles on the machine booted with [rom]; [rand()] is not
    called by any of the programs below. *)
Definition run (rom : list Z) (k : nat) : result (Chip8 * Statics) :=
  c ← boot rom; emulateCycles (replicate k 0) statics0 c.

(** The machine after [initChip8], with no ROM. *)
Definition chip8_init : Chip8 := initChip8 zeroChip8.

(** The machine [k] cycles after booting [rom], and the machine a fetch
    leaves; both fall back to their argument's start when the run is
    undefined, which none of the inputs below is. *)
Definition after (rom : list Z) (k : nat) : Chip8 :=
  match run rom k with
  | Ok (c, _) => c
  | Undefined _ => chip8_init
  end.

Definition fetched (c : Chip8) : Chip8 :=
  match nextInstruction c with
  | Ok c1 => c1
  | Undefined _ => c
  end.

(** 6FC8 6164 8F14: VF = 200, V1 = 100, VF += V1. *)
Definition add_program : list Z := [0x6F; 0xC8; 0x61; 0x64; 0x8F; 0x14].

(** 6005 6105 8015: V0 = 5, V1 = 5, V0 -= V1. *)
Definition sub_program : list Z := [0x60; 0x05; 0x61; 0x05; 0x80; 0x15].

(** 2200 at 0x200: a subroutine that calls itself. *)
Definition call_program : list Z := [0x22; 0x00].

(** 6005 6106 8014 00E0, the end-to-end program of the specification. *)
Definition end_to_end_program : list Z :=
  [0x60; 0x05; 0x61; 0x06; 0x80; 0x14; 0x00; 0xE0].

(** A206 D015 D015 and the five sprite bytes F0 90 90 90 F0 at 0x206: the
    same draw at (V0, V1) = (0, 0), twice in a row. *)
Definition draw_twice_program : list Z :=
  [0xA2; 0x06; 0xD0; 0x15; 0xD0; 0x15; 0xF0; 0x90; 0x90; 0x90; 0xF0].

(** 6F05 A208 DF01 DF01 and the sprite byte 80 at 0x208: the same draw
    twice, with register 0xF as the X coordinate. *)
Definition draw_at_VF_program : list Z :=
  [0x6F; 0x05; 0xA2; 0x08; 0xDF; 0x01; 0xDF; 0x01; 0x80].

(** AFFF F033: the index register at 0xFFF, then the BCD store. *)
Definition bcd_at_top_program : list Z := [0xAF; 0xFF; 0xF0; 0x33].

(** 1FFF: a jump to the last byte of ram. *)
Definition jump_to_top_program : list Z := [0x1F; 0xFF].

(** AFFF D002: I = 0xFFF, then a sprite of two rows, the second of which
    lies at 0x1000. *)
Definition draw_at_top_program : list Z := [0xAF; 0xFF; 0xD0; 0x02].

(** AFFF F155: I = 0xFFF, then a store of V0 and V1, the second to 0x1000. *)
Definition store_at_top_program : list Z := [0xAF; 0xFF; 0xF1; 0x55].

(** AFFF F165: I = 0xFFF, then a load of V0 and V1, the second from 0x1000. *)
Definition load_at_top_program : list Z := [0xAF; 0xFF; 0xF1; 0x65].

(** A204 D011 and the sprite byte FF at 0x204: one row of eight set bits
    drawn at (0, 0). *)
Definition draw_byte_program : list Z := [0xA2; 0x04; 0xD0; 0x11; 0xFF].

(** A20A D011 6001 D011 0000 and the sprite byte C0 at 0x20A: the sprite is
    drawn at (0, 0) and again at (1, 0), so that bit 7 of the second draw
    lands on the cell bit 6 of the first draw turned on. *)
Definition overlap_program : list Z :=
  [0xA2; 0x0A; 0xD0; 0x11; 0x60; 0x01; 0xD0; 0x11; 0x00; 0x00; 0xC0].

(** 600A F029: V0 = 0xA, then the font pointer for V0. *)
Definition font_pointer_program : list Z := [0x60; 0x0A; 0xF0; 0x29].

(** ** The host side: input, display, sound and the loop of main *)

(** Field update for the keypad, which only the input handler writes. *)
Definition set_keypad (v : list Z) (c : Chip8) : Chip8 :=
  mkChip8 (frameBuffer c) (V c) (stack c) (ram c) v (indexRegister c)
    (stackPointer c) (programCounter c) (delayTimer c) (soundTimer c)
    (draw c) (instruction c) (state c).

(** [chip8->keypad[k] = CHIP8_KEY_DOWN] and [chip8->keypad[k] = CHIP8_KEY_UP]. *)
Definition press (k : Z) (c : Chip8) : Chip8 :=
  set_keypad (put (keypad c) k CHIP8_KEY_DOWN) c.

Definition release (k : Z) (c : Chip8) : Chip8 :=
  set_keypad (put (keypad c) k CHIP8_KEY_UP) c.

(** The keys [handleInput] tells apart in [event.key.keysym.sym], and one
    constructor for every other key. *)
Inductive SDL_Keycode : Type :=
| SDLK_SPACE
| SDLK_1 | SDLK_2 | SDLK_3 | SDLK_4
| SDLK_q | SDLK_w | SDLK_e | SDLK_r
| SDLK_a | SDLK_s | SDLK_d | SDLK_f
| SDLK_z | SDLK_x | SDLK_c | SDLK_v
| SDLK_other.

(** What [handleInput] reads of the [SDL_Event]: its type, the key for the
    two keyboard types, and one constructor for every other type. *)
Inductive SDL_Event : Type :=
| SDL_QUIT
| SDL_KEYDOWN (sym : SDL_Keycode)
| SDL_KEYUP (sym : SDL_Keycode)
| SDL_other.

(** [handleInput], with the content of [event] after [SDL_PollEvent] in
    place of the call (when no event is pending the call stores nothing,
    and the switch runs on what the local variable holds): the two
    switches, case by case. *)
Definition handleInput (event : SDL_Event) (chip8 : Chip8) : Chip8 :=
  match event with
  | SDL_QUIT => set_state QUIT chip8
  | SDL_KEYDOWN sym =>
      match sym with
      | SDLK_SPACE =>
          set_state
            (match state chip8 with PAUSED => RUNNING | _ => PAUSED end) chip8
      | SDLK_1 => press 0x1 chip8
      | SDLK_2 => press 0x2 chip8
      | SDLK_3 => press 0x3 chip8
      | SDLK_4 => press 0xC chip8
      | SDLK_q => press 0x4 chip8
      | SDLK_w => press 0x5 chip8
      | SDLK_e => press 0x6 chip8
      | SDLK_r => press 0xD chip8
      | SDLK_a => press 0x7 chip8
      | SDLK_s => press 0x8 chip8
      | SDLK_d => press 0x9 chip8
      | SDLK_f => press 0xE chip8
      | SDLK_z => press 0xA chip8
      | SDLK_x => press 0x0 chip8
      | SDLK_c => press 0xB chip8
      | SDLK_v => press 0xF chip8
      | SDLK_other => chip8
      end
  | SDL_KEYUP sym =>
      match sym with
      | SDLK_1 => release 0x1 chip8
      | SDLK_2 => release 0x2 chip8
      | SDLK_3 => release 0x3 chip8
      | SDLK_4 => release 0xC chip8
      | SDLK_q => release 0x4 chip8
      | SDLK_w => release 0x5 chip8
      | SDLK_e => release 0x6 chip8
      | SDLK_r => release 0xD chip8
      | SDLK_a => release 0x7 chip8
      | SDLK_s => release 0x8 chip8
      | SDLK_d => release 0x9 chip8
      | SDLK_f => release 0xE chip8
      | SDLK_z => release 0xA chip8
      | SDLK_x => release 0x0 chip8
      | SDLK_c => release 0xB chip8
      | SDLK_v => release 0xF chip8
      | SDLK_SPACE | SDLK_other => chip8
      end
  | SDL_other => chip8
  end.

(** The fields of [Config] that chip8.c reads or writes ([romName] is
    never touched); all numbers are [uint32_t]. *)
Record Config : Type := mkConfig {
  scaleFactor : Z;
  foregroundColor : Z;
  backgroundColor : Z;
  sampleFrequency : Z;
  sampleSize : Z;
  audioFrequency : Z;
  audioAmplitude : Z;
  instructionsPerSecond : Z;
  outlines : bool
}.

Definition defaultConfig (config : Config) : Config :=
  {| scaleFactor := 20;
     foregroundColor := 0xD169B6FF;
     backgroundColor := 0x38374CFF;
     sampleFrequency := 44100;
     sampleSize := 2048;
     audioFrequency := 440;
     audioAmplitude := 5000;
     instructionsPerSecond := 700;
     outlines := true |}.

(** [Config config = {0}] in [main]. *)
Definition zeroConfig : Config := mkConfig 0 0 0 0 0 0 0 0 false.

Definition FRAME_RATE : Z := 60.

(** Conversion to [uint32_t], and from [uint32_t] to [int] and to
    [int16_t]; the last two are implementation-defined in C for a value
    the target cannot hold, and wrap here, as the compilers of the
    platforms of SDL make them. *)
Definition u32 (z : Z) : Z := z mod 2 ^ 32.

Definition to_int (z : Z) : Z :=
  let m := z mod 2 ^ 32 in if m <? 2 ^ 31 then m else m - 2 ^ 32.

Definition to_int16 (z : Z) : Z :=
  let m := z mod 2 ^ 16 in if m <? 2 ^ 15 then m else m - 2 ^ 16.

(** Conversion of an [int32_t] to [size_t], taken as 64 bits wide. *)
Definition to_size_t (z : Z) : Z := z mod 2 ^ 64.

(** [SDL_Rect], and the calls the drawing functions make on the renderer,
    in the order they make them. *)
Record SDL_Rect : Type := mkRect {
  rect_x : Z;   (* int *)
  rect_y : Z;
  rect_w : Z;
  rect_h : Z
}.

Inductive RenderCall : Type :=
| SDL_SetRenderDrawColor (r g b a : Z)
| SDL_RenderClear
| SDL_RenderFillRect (rectangle : SDL_Rect)
| SDL_RenderDrawRect (rectangle : SDL_Rect)
| SDL_RenderPresent.

Definition drawColor (color : Z) : list RenderCall :=
  let r := u8 (Z.shiftr (Z.land color 0xFF000000) 24) in
  let g := u8 (Z.shiftr (Z.land color 0x00FF0000) 16) in
  let b := u8 (Z.shiftr (Z.land color 0x0000FF00) 8) in
  let a := u8 (Z.land color 0x000000FF) in
  [SDL_SetRenderDrawColor r g b a].

Definition clearFrameBuffer (config : Config) : list RenderCall :=
  drawColor (backgroundColor config) ++ [SDL_RenderClear].

Definition drawPixel (config : Config) (px py : Z) : list RenderCall :=
  let rectangle :=
    {| rect_x := to_int (u32 (px * scaleFactor config));
       rect_y := to_int (u32 (py * scaleFactor config));
       rect_w := to_int (scaleFactor config);
       rect_h := to_int (scaleFactor config) |} in
  drawColor (foregroundColor config)
  ++ [SDL_RenderFillRect rectangle]
  ++ (if outlines config
      then drawColor (backgroundColor config) ++ [SDL_RenderDrawRect rectangle]
      else []).

(** The loop of [draw] from cell [i] on, [k] cells to go. *)
Fixpoint draw_cells (k : nat) (i : Z) (config : Config) (chip8 : Chip8)
  : list RenderCall :=
  match k with
  | O => []
  | S k' =>
      (if truthy (get (frameBuffer chip8) i)
       then drawPixel config (i mod WINDOW_WIDTH) (i / WINDOW_WIDTH)
       else [])
      ++ draw_cells k' (i + 1) config chip8
  end.

(** [draw] of chip8.c (the name [draw] is the flag of the machine): the
    calls on the renderer and the machine it leaves. *)
Definition draw_display (config : Config) (chip8 : Chip8)
  : list RenderCall * Chip8 :=
  if negb (truthy (draw chip8)) then ([], chip8)
  else
    let frameBufferSize := u32 (WINDOW_WIDTH * WINDOW_HEIGHT) in
    (clearFrameBuffer config
     ++ draw_cells (Z.to_nat frameBufferSize) 0 config chip8
     ++ [SDL_RenderPresent],
     set_draw 0 chip8).

(** [sound]: the [pause_on] argument of its call of
    [SDL_PauseAudioDevice]; 0 lets the tone play, 1 silences it. *)
Definition sound (chip8 : Chip8) : Z :=
  if truthy (soundTimer chip8) then 0 else 1.

(** The loop of [squareWave], [k] samples to go: the samples it writes
    and the value it leaves in the static [sampleIndex].  A division by
    zero is undefined behaviour in C and gives [None]. *)
Fixpoint squareWave_loop (k : nat) (config : Config)
    (samplesPerHalfCycle sampleIndex : Z) : option (list Z * Z) :=
  match k with
  | O => Some ([], sampleIndex)
  | S k' =>
      if samplesPerHalfCycle =? 0 then None
      else
        let halfCycleIndex := sampleIndex / samplesPerHalfCycle in
        let sample :=
          to_int16
            (if truthy (halfCycleIndex mod 2)
             then audioAmplitude config
             else u32 (- audioAmplitude config)) in
        '(samples, sampleIndex') ←
          squareWave_loop k' config samplesPerHalfCycle (u32 (sampleIndex + 1));
        Some (sample :: samples, sampleIndex')
  end.

(** [squareWave], with the static [sampleIndex] passed in and out, and
    the [int16_t] samples it writes to [stream] as its result. *)
Definition squareWave (config : Config) (sampleIndex : Z) (len : Z)
  : option (list Z * Z) :=
  let sampleCount := u32 (to_size_t len / 2) in
  if audioFrequency config =? 0 then None
  else
    let samplesPerHalfCycle :=
      (sampleFrequency config / audioFrequency config) / 2 in
    squareWave_loop (Z.to_nat sampleCount) config samplesPerHalfCycle
      sampleIndex.

(** What one turn of the loop of [main] hands to SDL: the calls on the
    renderer and the [pause_on] of the audio device. *)
Definition FrameOutput : Type := (list RenderCall * Z)%type.

(** The loop of [main], one element of [inputs] for each turn: the event
    [handleInput] finds, and what [rand()] would return in each of the
    cycles of the turn.  The loop ends when the state is QUIT; the model
    also stops when [inputs] runs out.  [SDL_Delay] only waits. *)
Fixpoint main_loop (config : Config) (inputs : list (SDL_Event * (nat -> Z)))
    (st : Statics) (chip8 : Chip8)
  : result (Chip8 * Statics * list FrameOutput) :=
  match inputs with
  | [] => Ok (chip8, st, [])
  | (event, rnd) :: inputs' =>
      match state chip8 with
      | QUIT => Ok (chip8, st, [])
      | _ =>
          let c1 := handleInput event chip8 in
          match state c1 with
          | PAUSED => main_loop config inputs' st c1
          | _ =>
              let cycles :=
                Z.to_nat (instructionsPerSecond config / FRAME_RATE) in
              '(c2, st2) ← emulateCycles (map rnd (seq 0 cycles)) st c1;
              let '(calls, c3) := draw_display config c2 in
              let pause_on := sound c3 in
              '(c4, st4, outputs) ←
                main_loop config inputs' st2 (updateTimers c3);
              Ok (c4, st4, (calls, pause_on) :: outputs)
          end
      end
  end.

(** ** Further notions used in the statements *)

(** The part of the machine that belongs to the input handler: the keypad
    and the run state. *)
Definition host_side (c : Chip8) : list Z * State := (keypad c, state c).

(** A result whose machine, if there is one, has the host side of [c]. *)
Definition keeps_host_side (c : Chip8) (r : result (Chip8 * Statics)) : Prop :=
  forall c' st', r = Ok (c', st') -> host_side c' = host_side c.

(** Whether the switches of [emulateInstruction] have a case for the
    instruction: on [raw >> 12], and below it on [kk] (cases 0x0, 0xE, 0xF)
    or on [n] (case 0x8). *)
Definition has_case (ins : Instruction) : bool :=
  match Z.shiftr (raw ins) 12 with
  | 0x0 => (kk ins =? 0xE0) || (kk ins =? 0xEE)
  | 0x8 =>
      match n ins with
      | 0x0 | 0x1 | 0x2 | 0x3 | 0x4 | 0x5 | 0x6 | 0x7 | 0xE => true
      | _ => false
      end
  | 0xE =>
      match kk ins with
      | 0x9E | 0xA1 => true
      | _ => false
      end
  | 0xF =>
      match kk ins with
      | 0x07 | 0x0A | 0x15 | 0x18 | 0x1E | 0x29 | 0x33 | 0x55 | 0x65 => true
      | _ => false
      end
  | 0x1 | 0x2 | 0x3 | 0x4 | 0x5 | 0x6 | 0x7 | 0x9 | 0xA | 0xB | 0xC | 0xD =>
      true
  | _ => false
  end.

(** The cells with index [k] and above are all off. *)
Definition blank_from (fb : list Z) (k : Z) : Prop :=
  forall i, k <= i -> 0 <= i < Z.of_nat (length fb) -> get fb i = 0.

(** The rectangles a list of calls fills, in order. *)
Definition filled_rects (calls : list RenderCall) : list SDL_Rect :=
  omap (fun call =>
          match call with
          | SDL_RenderFillRect rectangle => Some rectangle
          | _ => None
          end) calls.

(** The square of cell [i] in a window scaled by [s]. *)
Definition cell_rect (s i : Z) : SDL_Rect :=
  {| rect_x := i mod WINDOW_WIDTH * s;
     rect_y := i / WINDOW_WIDTH * s;
     rect_w := s;
     rect_h := s |}.

(** The rectangle lies in the window of [initGraphics]. *)
Definition in_window (s : Z) (r : SDL_Rect) : Prop :=
  0 <= rect_x r /\ rect_x r + rect_w r <= WINDOW_WIDTH * s
  /\ 0 <= rect_y r /\ rect_y r + rect_h r <= WINDOW_HEIGHT * s.

(** The sample of a square wave of half period [h] and height [amp] at
    index [i]: low in the first half period, high in the second. *)
Definition square_sample (h amp i : Z) : Z :=
  if Z.odd (i / h) then amp else - amp.

(** ** Further programs *)

(** 60B5 800E: V0 = 0xB5, then V0 <<= 1. *)
Definition shift_left_program : list Z := [0x60; 0xB5; 0x80; 0x0E].

(** 60B5 8006: V0 = 0xB5, then V0 >>= 1. *)
Definition shift_right_program : list Z := [0x60; 0xB5; 0x80; 0x06].

(** 60C8 6164 8014: V0 = 200, V1 = 100, V0 += V1. *)
Definition add_carry_program : list Z := [0x60; 0xC8; 0x61; 0x64; 0x80; 0x14].

(** C03C: V0 = rand() & 0x3C. *)
Definition random_program : list Z := [0xC0; 0x3C].

(** 60FF A300 F033: V0 = 255, I = 0x300, BCD of V0. *)
Definition bcd_program : list Z := [0x60; 0xFF; 0xA3; 0x00; 0xF0; 0x33].

(** 6011 6122 6233 A300 F155: V0..V2 = 0x11, 0x22, 0x33, I = 0x300, store
    V0..V1. *)
Definition store_program : list Z :=
  [0x60; 0x11; 0x61; 0x22; 0x62; 0x33; 0xA3; 0x00; 0xF1; 0x55].

(** 6277 A200 F165: V2 = 0x77, I = 0x200, load V0..V1 from the program's
    own first bytes. *)
Definition load_program : list Z := [0x62; 0x77; 0xA2; 0x00; 0xF1; 0x65].

(** 2204 0000 00EE: a call to 0x204, where a return waits. *)
Definition call_return_program : list Z := [0x22; 0x04; 0x00; 0x00; 0x00; 0xEE].

(** 00EE: a return with nothing on the stack. *)
Definition return_program : list Z := [0x00; 0xEE].

(** 8008: family 0x8 with a low nibble the switch has no case for. *)
Definition unknown_program : list Z := [0x80; 0x08].

(** D120, with V1 = V2 = 0: a draw of no rows. *)
Definition draw_nothing_program : list Z := [0xD1; 0x20].

(** 603E 611F A208 D012 and the sprite bytes FF FF at 0x208: a sprite of
    two rows drawn at (62, 31), the bottom right corner. *)
Definition corner_program : list Z :=
  [0x60; 0x3E; 0x61; 0x1F; 0xA2; 0x08; 0xD0; 0x12; 0xFF; 0xFF].

(** F30A: wait for a key into V3. *)
Definition wait_key_program : list Z := [0xF3; 0x0A].

(** 6003 6102 A208 D012 and the sprite bytes A4 3C at 0x208: two rows drawn
    at (3, 2) on the blank screen. *)
Definition blank_draw_program : list Z :=
  [0x60; 0x03; 0x61; 0x02; 0xA2; 0x08; 0xD0; 0x12; 0xA4; 0x3C].

(** 6005 E09E: V0 = 5, skip if key 5 is down. *)
Definition key_skip_program : list Z := [0x60; 0x05; 0xE0; 0x9E].

(** 6010 E0A1: V0 = 16, skip if key 16 is up. *)
Definition key_skip_far_program : list Z := [0x60; 0x10; 0xE0; 0xA1].

(** 00E0 A000 D005: clear the screen, point at the font, draw five rows. *)
Definition clear_draw_program : list Z := [0x00; 0xE0; 0xA0; 0x00; 0xD0; 0x05].

(** 6003 F015 F107: V0 = 3, delay timer = V0, V1 = delay timer. *)
Definition delay_program : list Z := [0x60; 0x03; 0xF0; 0x15; 0xF1; 0x07].

(** 1200: jump to 0x200, the address of the jump. *)
Definition halt_program : list Z := [0x12; 0x00].



(** * Properties *)

Ltac by_computation := apply (bool_decide_unpack _); vm_compute; exact I.
Ltac evaluate := vm_compute; reflexivity.
Ltac evaluate_ne := vm_compute; discriminate.

Lemma wf_chip8_init : wf chip8_init.
Proof. by_computation. Qed.

(** ** Arrays *)

Lemma length_put a i v : length (put a i v) = length a.
Proof. apply length_insert. Qed.

Lemma get_put_eq a i v :
  (Z.to_nat i < length a)%nat -> get (put a i v) i = v.
Proof. intros Hi. unfold get, put. by rewrite list_lookup_total_insert_eq. Qed.

Lemma get_put_ne a i j v :
  0 <= i -> 0 <= j -> i <> j -> get (put a i v) j = get a j.
Proof.
  intros Hi Hj Hne. unfold get, put.
  rewrite list_lookup_total_insert_ne; [done | lia].
Qed.

(** ** Fetch *)

Lemma bind_Ok {A B} (r : result A) (f : A -> result B) b :
  r ≫= f = Ok b -> exists a, r = Ok a /\ f a = Ok b.
Proof. destruct r as [a|u]; cbn; [eauto | discriminate]. Qed.

Lemma read_ram_Ok c a b :
  read_ram c a = Ok b <-> lookupZ (ram c) a = Some b.
Proof.
  unfold read_ram. destruct (lookupZ (ram c) a); split; congruence.
Qed.

Lemma lookupZ_in_range a i :
  0 <= i < Z.of_nat (length a) -> exists b, lookupZ a i = Some b.
Proof.
  intros Hi. unfold lookupZ. destruct (Z.leb_spec 0 i); [|lia].
  destruct (lookup_lt_is_Some_2 a (Z.to_nat i)) as [b Hb]; [lia | eauto].
Qed.

Lemma lookupZ_out_of_range a i :
  ~ 0 <= i < Z.of_nat (length a) -> lookupZ a i = None.
Proof.
  intros Hi. unfold lookupZ. destruct (Z.leb_spec 0 i); [|done].
  apply lookup_ge_None_2. lia.
Qed.

Lemma nextInstruction_Ok c c1 :
  nextInstruction c = Ok c1 ->
  c1 = set_instruction (decode (raw (instruction c1)))
         (set_programCounter (u16 (programCounter c + 2)) c).
Proof.
  unfold nextInstruction. intros H.
  apply bind_Ok in H as (hi & _ & H). apply bind_Ok in H as (lo & _ & H).
  injection H as <-. reflexivity.
Qed.

Lemma nextInstruction_shape c c1 :
  nextInstruction c = Ok c1 ->
  exists w,
    c1 = set_instruction (decode w)
           (set_programCounter (u16 (programCounter c + 2)) c).
Proof. intros H. exists (raw (instruction c1)). by apply nextInstruction_Ok. Qed.

Lemma land_ones_bound a k : 0 <= k -> 0 <= Z.land a (Z.ones k) < 2 ^ k.
Proof. intros Hk. rewrite Z.land_ones by done. apply Z.mod_pos_bound. lia. Qed.

Lemma nextInstruction_fields c c1 :
  nextInstruction c = Ok c1 ->
  0 <= n (instruction c1) < 16 /\ 0 <= x (instruction c1) < 16
  /\ 0 <= y (instruction c1) < 16 /\ 0 <= kk (instruction c1) < 256
  /\ 0 <= nnn (instruction c1) < 4096.
Proof.
  unfold nextInstruction. intros H.
  apply bind_Ok in H as (hi & _ & H). apply bind_Ok in H as (lo & _ & H).
  injection H as <-. cbn. unfold u8.
  pose proof (land_ones_bound (u16 (Z.lor (Z.shiftl hi 8) lo)) 4).
  pose proof (land_ones_bound (Z.shiftr (u16 (Z.lor (Z.shiftl hi 8) lo)) 8) 4).
  pose proof (land_ones_bound (Z.shiftr (u16 (Z.lor (Z.shiftl hi 8) lo)) 4) 4).
  pose proof (land_ones_bound (u16 (Z.lor (Z.shiftl hi 8) lo)) 8).
  pose proof (land_ones_bound (u16 (Z.lor (Z.shiftl hi 8) lo)) 12).
  change (Z.ones 4) with 15 in *. change (Z.ones 8) with 255 in *.
  change (Z.ones 12) with 4095 in *.
  rewrite !Z.mod_small by lia. lia.
Qed.

Lemma emulateInstruction_fetch rnd st c c1 :
  nextInstruction c = Ok c1 ->
  emulateInstruction rnd st c = execute rnd st c1.
Proof. intros H. unfold emulateInstruction. rewrite H. reflexivity. Qed.

Lemma execute_alu rnd st c :
  Z.shiftr (raw (instruction c)) 12 = 0x8 -> execute rnd st c = Ok (op_alu c, st).
Proof. intros H. unfold execute. rewrite H. reflexivity. Qed.

Lemma wf_V_length c : wf c -> length (V c) = 16%nat.
Proof. intros H. apply H. Qed.

(** ** Register-to-register add *)

(** C10: when the register-to-register add 0x8XY4 has X = 0xF, register
    0xF ends as the carry of the original operands, 1 if their unsigned sum
    exceeds 255 and 0 otherwise, not as the truncated sum: the carry is
    computed first and written last. *)
Theorem add_into_VF_leaves_carry rnd st c c1 :
  wf c ->
  nextInstruction c = Ok c1 ->
  Z.shiftr (raw (instruction c1)) 12 = 0x8 ->
  n (instruction c1) = 0x4 ->
  x (instruction c1) = 0xF ->
  exists c',
    emulateInstruction rnd st c = Ok (c', st)
    /\ getV c' 0xF =
       (if getV c 0xF + getV c (y (instruction c1)) >? 0xFF then 1 else 0).
Proof.
  intros Hwf Hf Hfam Hn Hx.
  rewrite (emulateInstruction_fetch _ _ _ _ Hf), (execute_alu _ _ _ Hfam).
  eexists; split; [reflexivity|].
  pose proof (wf_V_length c Hwf) as HV.
  rewrite (nextInstruction_Ok _ _ Hf) in *. cbn in Hn, Hx |- *.
  unfold op_alu. cbn. rewrite Hn, Hx. cbn.
  unfold getV, setV. cbn.
  rewrite get_put_eq by (rewrite length_put; lia).
  reflexivity.
Qed.

(** With VF = 200 and V1 = 100 the truncated sum would be 44; VF ends as 1. *)
Lemma add_into_VF_leaves_carry_witness :
  exists c',
    emulateInstruction 0 statics0 (after add_program 2) = Ok (c', statics0)
    /\ getV (after add_program 2) 0xF = 200
    /\ getV (after add_program 2) 1 = 100
    /\ getV c' 0xF = 1.
Proof.
  destruct (add_into_VF_leaves_carry 0 statics0 (after add_program 2)
              (fetched (after add_program 2))) as (c' & Hrun & HVF).
  - by_computation.
  - evaluate.
  - evaluate.
  - evaluate.
  - evaluate.
  - exists c'. refine (conj Hrun (conj _ (conj _ _)));
      [| | rewrite HVF]; evaluate.
Defined.

(** ** Register-to-register subtract *)

(** C7 (amended): for X and Y other than 0xF, the subtract 0x8XY5 sets
    register 0xF to 1 exactly when V[X] > V[Y] held before the operation
    (0 when they are equal), and stores (V[X] - V[Y]) mod 256 in V[X]. *)
Theorem sub_flag_is_strictly_greater rnd st c c1 :
  wf c ->
  nextInstruction c = Ok c1 ->
  Z.shiftr (raw (instruction c1)) 12 = 0x8 ->
  n (instruction c1) = 0x5 ->
  x (instruction c1) <> 0xF ->
  y (instruction c1) <> 0xF ->
  exists c',
    emulateInstruction rnd st c = Ok (c', st)
    /\ getV c' 0xF =
       (if getV c (x (instruction c1)) >? getV c (y (instruction c1))
        then 1 else 0)
    /\ getV c' (x (instruction c1)) =
       (getV c (x (instruction c1)) - getV c (y (instruction c1))) mod 256.
Proof.
  intros Hwf Hf Hfam Hn Hx Hy.
  rewrite (emulateInstruction_fetch _ _ _ _ Hf), (execute_alu _ _ _ Hfam).
  eexists; split; [reflexivity|].
  pose proof (wf_V_length c Hwf) as HV.
  destruct (nextInstruction_fields _ _ Hf) as (_ & HX & HY & _).
  rewrite (nextInstruction_Ok _ _ Hf) in *. cbn in Hn, Hx, Hy, HX, HY |- *.
  unfold op_alu. cbn. rewrite Hn. cbn.
  unfold getV, setV. cbn.
  split.
  - rewrite get_put_ne by lia. rewrite get_put_eq by lia. reflexivity.
  - rewrite get_put_eq by (rewrite length_put; lia).
    rewrite !get_put_ne by lia. reflexivity.
Qed.

Lemma sub_flag_is_strictly_greater_witness :
  exists c',
    emulateInstruction 0 statics0 (after sub_program 2) = Ok (c', statics0)
    /\ getV c' 0xF = 0 /\ getV c' 0 = 0.
Proof.
  destruct (sub_flag_is_strictly_greater 0 statics0 (after sub_program 2)
              (fetched (after sub_program 2))) as (c' & Hrun & HVF & HVX).
  - by_computation.
  - evaluate.
  - evaluate.
  - evaluate.
  - evaluate_ne.
  - evaluate_ne.
  - exists c'. refine (conj Hrun (conj _ _)).
    + rewrite HVF. evaluate.
    + change (x (instruction (fetched (after sub_program 2)))) with 0 in HVX.
      rewrite HVX. evaluate.
Defined.

(** The claim as stated fails for equal operands: 5 >= 5, and the flag is 0. *)
Lemma sub_flag_equal_operands :
  exists c st,
    run sub_program 3 = Ok (c, st)
    /\ getV (after sub_program 2) 0 >= getV (after sub_program 2) 1
    /\ getV c 0xF = 0.
Proof.
  eexists _, _. refine (conj _ (conj _ _)).
  - evaluate.
  - evaluate_ne.
  - evaluate.
Qed.

(** ** Timers *)

Lemma u8_small z : byte z -> u8 z = z.
Proof. unfold byte, u8. intros H. apply Z.mod_small. lia. Qed.

Lemma updateTimers_delayTimer c :
  delayTimer (updateTimers c) =
  if truthy (delayTimer c) then u8 (delayTimer c - 1) else delayTimer c.
Proof.
  unfold updateTimers.
  destruct (truthy (delayTimer c)); cbn;
    destruct (truthy (soundTimer c)); reflexivity.
Qed.

Lemma updateTimers_soundTimer c :
  soundTimer (updateTimers c) =
  if truthy (soundTimer c) then u8 (soundTimer c - 1) else soundTimer c.
Proof.
  unfold updateTimers.
  destruct (truthy (delayTimer c)); cbn;
    destruct (truthy (soundTimer c)); reflexivity.
Qed.

Lemma tick_value z :
  byte z ->
  (if truthy z then u8 (z - 1) else z) = Z.max 0 (z - 1).
Proof.
  intros Hz. unfold truthy. destruct (Z.eqb_spec z 0) as [->|Hne]; cbn.
  - reflexivity.
  - rewrite u8_small by (unfold byte in *; lia). unfold byte in Hz. lia.
Qed.

Lemma ticks_timers k c :
  byte (delayTimer c) -> byte (soundTimer c) ->
  delayTimer (Nat.iter k updateTimers c) = Z.max 0 (delayTimer c - Z.of_nat k)
  /\ soundTimer (Nat.iter k updateTimers c) = Z.max 0 (soundTimer c - Z.of_nat k).
Proof.
  intros Hd Hs. induction k as [|k [IHd IHs]].
  - cbn. unfold byte in *. lia.
  - change (Nat.iter (S k) updateTimers c)
      with (updateTimers (Nat.iter k updateTimers c)).
    rewrite updateTimers_delayTimer, updateTimers_soundTimer.
    rewrite !tick_value by (rewrite ?IHd, ?IHs; unfold byte in *; lia).
    rewrite IHd, IHs. lia.
Qed.

(** C9: a tick takes 1 off a timer that is not zero and leaves a zero timer
    at zero, for the delay timer and the sound timer alike; after any
    number of ticks neither is below zero, and five ticks take a delay
    timer of 3 to exactly 0. *)
Theorem updateTimers_floor_at_zero c :
  byte (delayTimer c) -> byte (soundTimer c) ->
  delayTimer (updateTimers c)
    = (if delayTimer c =? 0 then 0 else delayTimer c - 1)
  /\ soundTimer (updateTimers c)
    = (if soundTimer c =? 0 then 0 else soundTimer c - 1)
  /\ (forall k, 0 <= delayTimer (Nat.iter k updateTimers c)
             /\ 0 <= soundTimer (Nat.iter k updateTimers c))
  /\ (delayTimer c = 3 -> delayTimer (Nat.iter 5 updateTimers c) = 0).
Proof.
  intros Hd Hs. repeat split.
  - rewrite updateTimers_delayTimer, tick_value by done.
    destruct (Z.eqb_spec (delayTimer c) 0); unfold byte in *; lia.
  - rewrite updateTimers_soundTimer, tick_value by done.
    destruct (Z.eqb_spec (soundTimer c) 0); unfold byte in *; lia.
  - destruct (ticks_timers k c Hd Hs) as [-> _]. lia.
  - destruct (ticks_timers k c Hd Hs) as [_ ->]. lia.
  - intros H3. destruct (ticks_timers 5 c Hd Hs) as [-> _]. lia.
Qed.

Lemma updateTimers_floor_at_zero_witness :
  delayTimer (Nat.iter 5 updateTimers (set_delayTimer 3 chip8_init)) = 0.
Proof.
  apply (updateTimers_floor_at_zero (set_delayTimer 3 chip8_init)).
  - vm_compute. split; [discriminate | reflexivity].
  - vm_compute. split; [discriminate | reflexivity].
  - reflexivity.
Defined.

(** ** Subroutine call *)

Lemma execute_call rnd st c :
  Z.shiftr (raw (instruction c)) 12 = 0x2 ->
  execute rnd st c = c1 ← op_call c; Ok (c1, st).
Proof. intros H. unfold execute. rewrite H. reflexivity. Qed.

Lemma wf_stack_length c : wf c -> length (stack c) = 64%nat.
Proof. intros H. apply H. Qed.

Lemma wf_stackPointer c : wf c -> 0 <= stackPointer c <= STACK_SIZE.
Proof. intros H. apply H. Qed.

(** C2 (amended): the call never checks the depth of the stack.  With
    fewer than STACK_SIZE = 0x40 return addresses on the stack, whatever
    their number, 0x2NNN stores the program counter the fetch left in the
    next free slot, moves the stack pointer up by one, jumps to NNN, and
    leaves the run state as it was.  With STACK_SIZE addresses on the
    stack the store goes to the slot past the end of the array, which is
    undefined behaviour: no check stops the call there either. *)
Theorem call_pushes_below_STACK_SIZE rnd st c c1 :
  wf c ->
  nextInstruction c = Ok c1 ->
  Z.shiftr (raw (instruction c1)) 12 = 0x2 ->
  (stackPointer c < STACK_SIZE ->
   exists c',
     emulateInstruction rnd st c = Ok (c', st)
     /\ stackPointer c' = stackPointer c + 1
     /\ get (stack c') (stackPointer c) = u16 (programCounter c + 2)
     /\ programCounter c' = nnn (instruction c1)
     /\ state c' = state c)
  /\ (stackPointer c = STACK_SIZE ->
      emulateInstruction rnd st c = Undefined (StackOutOfBounds STACK_SIZE)).
Proof.
  intros Hwf Hf Hfam.
  rewrite (emulateInstruction_fetch _ _ _ _ Hf), (execute_call _ _ _ Hfam).
  pose proof (wf_stack_length c Hwf) as Hlen.
  pose proof (wf_stackPointer c Hwf) as Hrange.
  destruct (nextInstruction_shape _ _ Hf) as [w ->].
  unfold op_call, write_stack. cbn. split; intros Hsp.
  - destruct (lookupZ_in_range (stack c) (stackPointer c)) as [a ->].
    { unfold STACK_SIZE in *. lia. }
    cbn. eexists. split; [reflexivity|]. cbn.
    rewrite get_put_eq by (unfold STACK_SIZE in *; lia). done.
  - rewrite lookupZ_out_of_range by (unfold STACK_SIZE in *; lia).
    cbn. by rewrite Hsp.
Qed.

Lemma seventeenth_call_is_pushed :
  exists c st,
    run call_program 17 = Ok (c, st)
    /\ stackPointer (after call_program 16) = 16
    /\ stackPointer c = 17
    /\ state c = RUNNING.
Proof.
  eexists _, _. refine (conj _ (conj _ (conj _ _))).
  - evaluate.
  - evaluate.
  - evaluate.
  - evaluate.
Qed.

Lemma call_pushes_below_STACK_SIZE_witness :
  (exists c',
     emulateInstruction 0 statics0 (after call_program 16) = Ok (c', statics0)
     /\ stackPointer c' = 17
     /\ get (stack c') 16 = 0x202
     /\ programCounter c' = 0x200
     /\ state c' = RUNNING)
  /\ stackPointer (after call_program 64) = STACK_SIZE
  /\ emulateInstruction 0 statics0 (after call_program 64)
     = Undefined (StackOutOfBounds STACK_SIZE).
Proof.
  split; [|split].
  - apply (call_pushes_below_STACK_SIZE 0 statics0 (after call_program 16)
             (fetched (after call_program 16))).
    + by_computation.
    + evaluate.
    + evaluate.
    + evaluate.
  - evaluate.
  - apply (call_pushes_below_STACK_SIZE 0 statics0 (after call_program 64)
             (fetched (after call_program 64))).
    + by_computation.
    + evaluate.
    + evaluate.
    + evaluate.
Defined.

(** ** End to end *)

(** C6 (amended): 8014 is the register add 0x8XY4, so the program leaves
    register 0 at 5 + 6 = 11 (and the carry flag at 0); the frame buffer
    is all zero and the draw flag is set. *)
Theorem end_to_end_program_result :
  exists c st,
    run end_to_end_program 4 = Ok (c, st)
    /\ getV c 0 = 11
    /\ getV c 0xF = 0
    /\ frameBuffer c = replicate 2048 0
    /\ draw c = 1.
Proof.
  eexists _, _. refine (conj _ (conj _ (conj _ (conj _ _)))).
  - evaluate.
  - evaluate.
  - evaluate.
  - evaluate.
  - evaluate.
Qed.

Lemma end_to_end_register0_is_not_7 :
  exists c st, run end_to_end_program 4 = Ok (c, st) /\ getV c 0 <> 7.
Proof.
  eexists _, _. split; [evaluate | evaluate_ne].
Qed.

(** ** Font *)

(** C4 (the code at the failing input): the initialiser of [font] has 14
    rows, with none for A and B.  With V0 = 0xA the font pointer is 50,
    where ram holds the row the source labels C; the rows in place are
    those of the digits 0 to 9 only, and the ten bytes from 70 on are 0. *)
Theorem font_pointer_for_A_finds_row_C :
  exists c st,
    run font_pointer_program 2 = Ok (c, st)
    /\ getV c 0 = 0xA
    /\ indexRegister c = 50
    /\ Some (bytes_at c 50 5) = labelled_row 0xC
    /\ labelled_row 0xA = None
    /\ labelled_row 0xB = None
    /\ length font_rows = 14%nat
    /\ filter (fun d => labelled_row d = Some (bytes_at c (d * 5) 5))
         (seqZ 0 16) = seqZ 0 10
    /\ bytes_at c 70 10 = replicate 10 0.
Proof.
  eexists _, _.
  refine (conj _ (conj _ (conj _ (conj _ (conj _ (conj _ (conj _ (conj _ _)))))))).
  - evaluate.
  - evaluate.
  - evaluate.
  - evaluate.
  - evaluate.
  - evaluate.
  - evaluate.
  - evaluate.
  - evaluate.
Qed.

(** ** Sprite drawing *)

Lemma same_but_V_frameBuffer_refl c : same_but_V_frameBuffer c c.
Proof. by destruct c. Qed.

Lemma same_but_V_frameBuffer_trans c1 c2 c3 :
  same_but_V_frameBuffer c1 c2 -> same_but_V_frameBuffer c2 c3 ->
  same_but_V_frameBuffer c1 c3.
Proof.
  unfold same_but_V_frameBuffer. intros H12 H23.
  rewrite H23 at 1. rewrite H12 at 1. reflexivity.
Qed.

Lemma draw_bit_frame j spriteByte dy dx c :
  same_but_V_frameBuffer c (draw_bit j spriteByte dy dx c).
Proof.
  unfold draw_bit. destruct (_ && _); by destruct c.
Qed.

Lemma draw_row_frame j spriteByte dy dx c :
  same_but_V_frameBuffer c (draw_row j spriteByte dy dx c).
Proof.
  revert dx c. induction j as [|j IH]; intros dx c.
  - apply same_but_V_frameBuffer_refl.
  - cbn [draw_row]. pose proof (draw_bit_frame (S j) spriteByte dy dx c) as H2.
    destruct (_ >=? _); [exact H2|].
    eapply same_but_V_frameBuffer_trans; [exact H2 | apply IH].
Qed.

Lemma xor_cell_lookup (fb : list Z) (i : Z) (m : Z) (cell : nat) :
  put fb i (Z.lxor (get fb i) m) !! cell =
  (fun v => Z.lxor v (if decide (Z.to_nat i = cell) then m else 0))
    <$> fb !! cell.
Proof.
  unfold put, get. destruct (decide (Z.to_nat i = cell)) as [<-|Hne].
  - destruct (fb !! Z.to_nat i) as [v|] eqn:Hv.
    + rewrite list_lookup_insert_eq by (by eapply lookup_lt_Some).
      cbn. by rewrite (list_lookup_total_correct _ _ _ Hv).
    + rewrite list_insert_ge by (by apply lookup_ge_None_1).
      by rewrite Hv.
  - rewrite list_lookup_insert_ne by done.
    destruct (fb !! cell); cbn; [|done]. by rewrite Z.lxor_0_r.
Qed.

Lemma fmap_lxor_lxor (o : option Z) m1 m2 :
  (fun v => Z.lxor v m2) <$> ((fun v => Z.lxor v m1) <$> o) =
  (fun v => Z.lxor v (Z.lxor m1 m2)) <$> o.
Proof. destruct o; cbn; [|done]. by rewrite Z.lxor_assoc. Qed.

Lemma draw_bit_frameBuffer j spriteByte dy dx c cell :
  frameBuffer (draw_bit j spriteByte dy dx c) !! cell =
  (fun v => Z.lxor v
     (if decide (Z.to_nat (dy * WINDOW_WIDTH + dx) = cell)
      then Z.land spriteByte (Z.shiftl 1 (Z.of_nat j)) else 0))
    <$> frameBuffer c !! cell.
Proof.
  unfold draw_bit. destruct (_ && _); apply xor_cell_lookup.
Qed.

Lemma draw_row_frameBuffer j spriteByte dy dx c cell :
  frameBuffer (draw_row j spriteByte dy dx c) !! cell =
  (fun v => Z.lxor v (row_mask j spriteByte dy dx cell))
    <$> frameBuffer c !! cell.
Proof.
  revert dx c. induction j as [|j IH]; intros dx c.
  - cbn. destruct (frameBuffer c !! cell); cbn; [|done]. by rewrite Z.lxor_0_r.
  - cbn [draw_row row_mask].
    pose proof (draw_bit_frameBuffer (S j) spriteByte dy dx c cell) as H2.
    destruct (_ >=? _).
    + rewrite H2, Z.lxor_0_r. done.
    + rewrite IH, H2. apply fmap_lxor_lxor.
Qed.

Lemma same_but_V_frameBuffer_ram c c' :
  same_but_V_frameBuffer c c' -> ram c' = ram c.
Proof. intros ->. reflexivity. Qed.

Lemma same_but_V_frameBuffer_indexRegister c c' :
  same_but_V_frameBuffer c c' -> indexRegister c' = indexRegister c.
Proof. intros ->. reflexivity. Qed.

Lemma read_ram_ext c d a :
  ram d = ram c -> read_ram d a = read_ram c a.
Proof. unfold read_ram. by intros ->. Qed.

Lemma Ok_inj {A} (a b : A) : Ok a = Ok b -> a = b.
Proof. congruence. Qed.

Lemma draw_rows_S k i x0 dy c :
  draw_rows (S k) i x0 dy c =
  spriteByte ← read_ram c (indexRegister c + i);
  if u8 (dy + 1) >=? WINDOW_HEIGHT then Ok (draw_row 7 spriteByte dy x0 c)
  else draw_rows k (u8 (i + 1)) x0 (u8 (dy + 1))
         (draw_row 7 spriteByte dy x0 c).
Proof. reflexivity. Qed.

Lemma rows_mask_S k i x0 dy mem index cell :
  rows_mask (S k) i x0 dy mem index cell =
  match lookupZ mem (index + i) with
  | Some spriteByte =>
      Z.lxor (row_mask 7 spriteByte dy x0 cell)
        (if u8 (dy + 1) >=? WINDOW_HEIGHT then 0
         else rows_mask k (u8 (i + 1)) x0 (u8 (dy + 1)) mem index cell)
  | None => 0
  end.
Proof. reflexivity. Qed.

Lemma draw_rows_frame k i x0 dy c c' :
  draw_rows k i x0 dy c = Ok c' -> same_but_V_frameBuffer c c'.
Proof.
  revert i dy c. induction k as [|k IH]; intros i dy c H.
  - injection H as <-. apply same_but_V_frameBuffer_refl.
  - rewrite draw_rows_S in H. apply bind_Ok in H as (spriteByte & _ & H).
    pose proof (draw_row_frame 7 spriteByte dy x0 c) as H1.
    destruct (_ >=? _).
    + apply Ok_inj in H. subst c'. exact H1.
    + eapply same_but_V_frameBuffer_trans; [exact H1 | by eapply IH].
Qed.

Lemma draw_rows_frameBuffer k i x0 dy c c' cell :
  draw_rows k i x0 dy c = Ok c' ->
  frameBuffer c' !! cell =
  (fun v => Z.lxor v
     (rows_mask k i x0 dy (ram c) (indexRegister c) cell))
    <$> frameBuffer c !! cell.
Proof.
  revert i dy c. induction k as [|k IH]; intros i dy c H.
  - injection H as <-. cbn.
    destruct (frameBuffer c !! cell); cbn; [|done]. by rewrite Z.lxor_0_r.
  - rewrite draw_rows_S in H. rewrite rows_mask_S.
    apply bind_Ok in H as (spriteByte & Hread & H).
    apply read_ram_Ok in Hread. rewrite Hread.
    pose proof (draw_row_frame 7 spriteByte dy x0 c) as Hfr.
    pose proof (draw_row_frameBuffer 7 spriteByte dy x0 c cell) as H1.
    destruct (_ >=? _).
    + apply Ok_inj in H. subst c'. by rewrite H1, Z.lxor_0_r.
    + rewrite (IH _ _ _ H), H1.
      rewrite (same_but_V_frameBuffer_ram _ _ Hfr).
      rewrite (same_but_V_frameBuffer_indexRegister _ _ Hfr).
      apply fmap_lxor_lxor.
Qed.

(** Whether the rows can be read depends on ram and the index register
    alone. *)
Lemma draw_rows_defined_ext k i x0 dy x0' c c' d :
  draw_rows k i x0 dy c = Ok c' ->
  ram d = ram c -> indexRegister d = indexRegister c ->
  exists d', draw_rows k i x0' dy d = Ok d'.
Proof.
  revert i dy c d. induction k as [|k IH]; intros i dy c d H Hram Hidx.
  - by eexists.
  - rewrite draw_rows_S in H. rewrite draw_rows_S.
    apply bind_Ok in H as (spriteByte & Hread & H).
    rewrite Hidx, (read_ram_ext _ _ _ Hram), Hread.
    cbn [mbind result_bind].
    destruct (_ >=? _); [by eexists|].
    eapply IH; [exact H | |].
    + rewrite (same_but_V_frameBuffer_ram _ _ (draw_row_frame _ _ _ _ d)).
      rewrite (same_but_V_frameBuffer_ram _ _ (draw_row_frame _ _ _ _ c)).
      done.
    + rewrite (same_but_V_frameBuffer_indexRegister _ _ (draw_row_frame _ _ _ _ d)).
      rewrite (same_but_V_frameBuffer_indexRegister _ _ (draw_row_frame _ _ _ _ c)).
      done.
Qed.

Lemma fmap_lxor_twice (o : option Z) m :
  (fun v => Z.lxor v m) <$> ((fun v => Z.lxor v m) <$> o) = o.
Proof.
  destruct o as [v|]; cbn; [|done].
  by rewrite Z.lxor_assoc, Z.lxor_nilpotent, Z.lxor_0_r.
Qed.

(** The draw of case 0xD, run on [c] and then on a machine [d] that has the
    frame buffer the first draw left, the same ram and index register, and
    the same origin and height: the second draw is defined and undoes the
    first on the frame buffer. *)
Lemma op_draw_twice c c1 d :
  op_draw c = Ok c1 ->
  frameBuffer d = frameBuffer c1 ->
  ram d = ram c -> indexRegister d = indexRegister c ->
  n (instruction d) = n (instruction c) ->
  getV d (x (instruction d)) mod WINDOW_WIDTH
    = getV c (x (instruction c)) mod WINDOW_WIDTH ->
  getV d (y (instruction d)) mod WINDOW_HEIGHT
    = getV c (y (instruction c)) mod WINDOW_HEIGHT ->
  exists d1, op_draw d = Ok d1 /\ frameBuffer d1 = frameBuffer c.
Proof.
  unfold op_draw. intros H Hfb Hram Hidx Hn Hx Hy.
  apply bind_Ok in H as (c2 & Hrows & H). injection H as <-.
  rewrite Hn, Hx, Hy.
  destruct (draw_rows_defined_ext _ _ _ _
              (u8 (getV c (x (instruction c)) mod WINDOW_WIDTH))
              _ _ (setV 0xF 0 d) Hrows) as [d2 Hrows2]; [done..|].
  rewrite Hrows2. cbn. eexists; split; [reflexivity|].
  cbn. apply list_eq. intros cell.
  rewrite (draw_rows_frameBuffer _ _ _ _ _ _ cell Hrows2).
  cbn [frameBuffer setV set_V ram indexRegister].
  rewrite Hfb. cbn.
  rewrite (draw_rows_frameBuffer _ _ _ _ _ _ cell Hrows).
  cbn [frameBuffer setV set_V ram indexRegister].
  rewrite Hram, Hidx. apply fmap_lxor_twice.
Qed.


Lemma execute_draw rnd st c :
  Z.shiftr (raw (instruction c)) 12 = 0xD ->
  execute rnd st c = c1 ← op_draw c; Ok (c1, st).
Proof. intros H. unfold execute. rewrite H. reflexivity. Qed.

Lemma op_draw_frame c c1 :
  op_draw c = Ok c1 ->
  ram c1 = ram c /\ indexRegister c1 = indexRegister c
  /\ programCounter c1 = programCounter c
  /\ instruction c1 = instruction c.
Proof.
  unfold op_draw. intros H.
  apply bind_Ok in H as (c2 & Hrows & H). apply Ok_inj in H. subst c1.
  apply draw_rows_frame in Hrows. rewrite Hrows. done.
Qed.

(** C8: when the instruction fetched from [c] is a sprite draw 0xDXYN that
    is defined on [c], and the instruction fetched next is the same one and
    draws at the same origin, running it again gives back the frame buffer
    of [c]. *)
Theorem draw_twice_restores_frameBuffer rnd1 rnd2 st c c0 c1 d :
  nextInstruction c = Ok c0 ->
  Z.shiftr (raw (instruction c0)) 12 = 0xD ->
  emulateInstruction rnd1 st c = Ok (c1, st) ->
  nextInstruction c1 = Ok d ->
  raw (instruction d) = raw (instruction c0) ->
  getV c1 (x (instruction c0)) mod WINDOW_WIDTH
    = getV c (x (instruction c0)) mod WINDOW_WIDTH ->
  getV c1 (y (instruction c0)) mod WINDOW_HEIGHT
    = getV c (y (instruction c0)) mod WINDOW_HEIGHT ->
  exists c2,
    emulateInstruction rnd2 st c1 = Ok (c2, st)
    /\ frameBuffer c2 = frameBuffer c.
Proof.
  intros Hf Hfam Hrun Hf2 Hsame Hx Hy.
  rewrite (emulateInstruction_fetch _ _ _ _ Hf), (execute_draw _ _ _ Hfam) in Hrun.
  apply bind_Ok in Hrun as (c1' & Hdraw & Hrun).
  apply Ok_inj in Hrun. injection Hrun as ->.
  destruct (op_draw_frame _ _ Hdraw) as (Hram & Hidx & _ & Hins).
  pose proof (nextInstruction_Ok _ _ Hf) as E0.
  pose proof (nextInstruction_Ok _ _ Hf2) as Ed.
  assert (Hinsd : instruction d = instruction c0).
  { rewrite Ed, E0. cbn. by rewrite Hsame. }
  rewrite (emulateInstruction_fetch _ _ _ _ Hf2).
  rewrite execute_draw by (by rewrite Hinsd).
  destruct (op_draw_twice c0 c1 d Hdraw) as (d1 & Hd1 & Hfb).
  - by rewrite Ed.
  - rewrite Ed. cbn. done.
  - rewrite Ed. cbn. done.
  - by rewrite Hinsd.
  - rewrite Hinsd. replace (getV d) with (getV c1) by (by rewrite Ed).
    rewrite Hx. by rewrite E0.
  - rewrite Hinsd. replace (getV d) with (getV c1) by (by rewrite Ed).
    rewrite Hy. by rewrite E0.
  - rewrite Hd1. cbn. eexists; split; [reflexivity|].
    rewrite Hfb. by rewrite E0.
Qed.

Lemma draw_twice_restores_frameBuffer_witness :
  frameBuffer (after draw_twice_program 2)
    <> frameBuffer (after draw_twice_program 1)
  /\ exists c2,
       emulateInstruction 0 statics0 (after draw_twice_program 2)
         = Ok (c2, statics0)
       /\ frameBuffer c2 = frameBuffer (after draw_twice_program 1).
Proof.
  split; [evaluate_ne|].
  apply (draw_twice_restores_frameBuffer 0 0 statics0
           (after draw_twice_program 1)
           (fetched (after draw_twice_program 1))
           (after draw_twice_program 2)
           (fetched (after draw_twice_program 2)));
    evaluate.
Defined.


(** The premise on the origin is needed when X or Y is 0xF: the first draw
    overwrites register 0xF with the collision flag, so the second draw of
    DF01 starts at column 0 instead of column 5 and the frame buffer is not
    what it was. *)
Lemma draw_twice_through_VF_moves_origin :
  exists c st,
    run draw_at_VF_program 4 = Ok (c, st)
    /\ map (get (frameBuffer c)) (seqZ 0 8) = [0x80; 0; 0; 0; 0; 0x80; 0; 0]
    /\ frameBuffer c <> frameBuffer (after draw_at_VF_program 2).
Proof.
  eexists _, _. refine (conj _ (conj _ _)).
  - evaluate.
  - evaluate.
  - evaluate_ne.
Qed.

(** The cell of column [dx] and row [dy] lies inside the frame buffer. *)
Lemma cell_in_frameBuffer dx dy :
  0 <= dx < WINDOW_WIDTH -> 0 <= dy < WINDOW_HEIGHT ->
  0 <= dy * WINDOW_WIDTH + dx < WINDOW_WIDTH * WINDOW_HEIGHT.
Proof. unfold WINDOW_WIDTH, WINDOW_HEIGHT. lia. Qed.

(** A row is clipped at the right edge: nothing is drawn left of the
    origin, nor in any other row. *)
Lemma row_mask_outside j spriteByte dy dx cell :
  0 <= dy -> 0 <= dx < WINDOW_WIDTH ->
  Z.of_nat cell < dy * WINDOW_WIDTH + dx
  \/ dy * WINDOW_WIDTH + WINDOW_WIDTH <= Z.of_nat cell ->
  row_mask j spriteByte dy dx cell = 0.
Proof.
  unfold WINDOW_WIDTH. revert dx. induction j as [|j IH]; intros dx Hdy Hdx Hout.
  - reflexivity.
  - cbn [row_mask]. unfold WINDOW_WIDTH.
    destruct (decide (Z.to_nat (dy * 64 + dx) = cell)) as [Heq|_]; [lia|].
    unfold u8. rewrite Z.mod_small by lia.
    destruct (Z.geb_spec (dx + 1) 64) as [Hge|Hlt]; [reflexivity|].
    rewrite IH by lia. reflexivity.
Qed.

(** The rows are clipped at the bottom edge: nothing is drawn above the
    origin, left of it, or outside the frame buffer. *)
Lemma rows_mask_outside k i x0 dy mem index cell :
  0 <= x0 < WINDOW_WIDTH -> 0 <= dy < WINDOW_HEIGHT ->
  Z.of_nat cell < dy * WINDOW_WIDTH
  \/ WINDOW_WIDTH * WINDOW_HEIGHT <= Z.of_nat cell
  \/ Z.of_nat cell mod WINDOW_WIDTH < x0 ->
  rows_mask k i x0 dy mem index cell = 0.
Proof.
  unfold WINDOW_WIDTH, WINDOW_HEIGHT.
  revert i dy. induction k as [|k IH]; intros i dy Hx Hdy Hout.
  - reflexivity.
  - rewrite rows_mask_S. destruct (lookupZ mem (index + i)); [|reflexivity].
    pose proof (Z.div_mod (Z.of_nat cell) 64 ltac:(lia)) as Hdiv.
    pose proof (Z.mod_pos_bound (Z.of_nat cell) 64 ltac:(lia)) as Hmod.
    rewrite row_mask_outside; unfold WINDOW_WIDTH, WINDOW_HEIGHT; [|lia..].
    unfold u8. rewrite Z.mod_small by lia.
    destruct (Z.geb_spec (dy + 1) 32) as [Hge|Hlt]; [reflexivity|].
    rewrite IH by lia. reflexivity.
Qed.

(** The draw clips the sprite at the edges of the frame buffer, and does
    not wrap it around: it leaves alone every cell above or left of the
    origin (V[X] mod 64, V[Y] mod 32). *)
Lemma op_draw_clips c c' cell :
  op_draw c = Ok c' ->
  0 <= getV c (x (instruction c)) < 256 ->
  0 <= getV c (y (instruction c)) < 256 ->
  Z.of_nat cell < (getV c (y (instruction c)) mod WINDOW_HEIGHT) * WINDOW_WIDTH
  \/ Z.of_nat cell mod WINDOW_WIDTH
     < getV c (x (instruction c)) mod WINDOW_WIDTH ->
  frameBuffer c' !! cell = frameBuffer c !! cell.
Proof.
  unfold op_draw. intros Hd HX HY Hout.
  apply bind_Ok in Hd as (c2 & Hrows & Hd). apply Ok_inj in Hd. subst c'.
  cbn. rewrite (draw_rows_frameBuffer _ _ _ _ _ _ cell Hrows).
  assert (Hx : 0 <= getV c (x (instruction c)) mod WINDOW_WIDTH < WINDOW_WIDTH)
    by (apply Z.mod_pos_bound; unfold WINDOW_WIDTH; lia).
  assert (Hy : 0 <= getV c (y (instruction c)) mod WINDOW_HEIGHT < WINDOW_HEIGHT)
    by (apply Z.mod_pos_bound; unfold WINDOW_HEIGHT; lia).
  unfold WINDOW_WIDTH, WINDOW_HEIGHT in *.
  rewrite (u8_small (getV c (x (instruction c)) mod 64)) by (unfold byte; lia).
  rewrite (u8_small (getV c (y (instruction c)) mod 32)) by (unfold byte; lia).
  rewrite rows_mask_outside; unfold WINDOW_WIDTH, WINDOW_HEIGHT; [|lia..].
  cbn. destruct (frameBuffer c !! cell); cbn; [|done]. by rewrite Z.lxor_0_r.
Qed.

(** The inner loop never looks at bit 0 of the sprite byte. *)
Lemma mask_without_bit0 (j : nat) :
  (1 <= j <= 7)%nat ->
  Z.land 0xFE (Z.shiftl 1 (Z.of_nat j)) = Z.shiftl 1 (Z.of_nat j).
Proof.
  intros Hj.
  do 8 (destruct j as [|j]; [first [lia | reflexivity]|]). lia.
Qed.

Lemma draw_bit_ignores_bit0 (j : nat) spriteByte dy dx c :
  (1 <= j <= 7)%nat ->
  draw_bit j (Z.land spriteByte 0xFE) dy dx c = draw_bit j spriteByte dy dx c.
Proof.
  intros Hj. unfold draw_bit.
  by rewrite <- Z.land_assoc, (mask_without_bit0 j Hj).
Qed.

Lemma draw_row_ignores_bit0 (j : nat) spriteByte dy dx c :
  (j <= 7)%nat ->
  draw_row j (Z.land spriteByte 0xFE) dy dx c = draw_row j spriteByte dy dx c.
Proof.
  revert dx c. induction j as [|j IH]; intros dx c Hj; [done|].
  cbn [draw_row]. rewrite draw_bit_ignores_bit0 by lia.
  destruct (_ >=? _); [done|]. apply IH. lia.
Qed.

(** C1 (the code at the failing input): the row drawn for a sprite byte is
    the row drawn for the byte with bit 0 cleared, whatever the machine
    state; one sprite row FF drawn at (0, 0) on an empty frame buffer turns
    on the seven cells of bits 7 to 1 and leaves the eighth cell, the one
    of bit 0, off. *)
Theorem draw_byte_stops_before_bit0 :
  (forall spriteByte dy dx c,
     draw_row 7 (Z.land spriteByte 0xFE) dy dx c
     = draw_row 7 spriteByte dy dx c)
  /\ exists c st,
       run draw_byte_program 2 = Ok (c, st)
       /\ map (pixel_on c) (seqZ 0 8)
          = [true; true; true; true; true; true; true; false].
Proof.
  split.
  - intros. by apply draw_row_ignores_bit0.
  - eexists _, _. split.
    + evaluate.
    + evaluate.
Qed.

(** C3 (the code at the failing input): the cell at (1, 0) is on after the
    first draw, holding the mask 0x40 of the sprite bit that set it; the
    second draw lands a set bit on it, reports the collision, and the cell
    stays on, now holding 0xC0. *)
Theorem overlapping_bit_leaves_cell_on :
  exists c st,
    run overlap_program 4 = Ok (c, st)
    /\ get (frameBuffer (after overlap_program 2)) 1 = 0x40
    /\ pixel_on (after overlap_program 2) 1 = true
    /\ getV c 0xF = 1
    /\ get (frameBuffer c) 1 = 0xC0
    /\ pixel_on c 1 = true.
Proof.
  eexists _, _.
  refine (conj _ (conj _ (conj _ (conj _ (conj _ _))))).
  - evaluate.
  - evaluate.
  - evaluate.
  - evaluate.
  - evaluate.
  - evaluate.
Qed.

(** ** Memory addresses *)

Lemma ram_safe_Ok {A} (a : A) : ram_safe (Ok a).
Proof. intros b. discriminate. Qed.

Lemma ram_safe_bind_Ok {A B} (r : result A) (f : A -> result B) :
  ram_safe r -> (forall a, r = Ok a -> ram_safe (f a)) -> ram_safe (r ≫= f).
Proof.
  intros Hr Hf. destruct r as [a|u]; cbn.
  - by apply Hf.
  - intros a E. apply (Hr a). congruence.
Qed.

Lemma wf_ram_length c : wf c -> length (ram c) = 4096%nat.
Proof. intros H. apply H. Qed.

Lemma read_ram_in_range c a :
  0 <= a < Z.of_nat (length (ram c)) -> exists b, read_ram c a = Ok b.
Proof.
  intros Ha. unfold read_ram.
  destruct (lookupZ_in_range _ _ Ha) as [b ->]. by eexists.
Qed.

Lemma write_ram_in_range c a v :
  0 <= a < Z.of_nat (length (ram c)) ->
  write_ram a v c = Ok (set_ram (put (ram c) a v) c).
Proof.
  intros Ha. unfold write_ram.
  by destruct (lookupZ_in_range _ _ Ha) as [b ->].
Qed.

Lemma read_ram_out_of_range c a :
  ~ 0 <= a < Z.of_nat (length (ram c)) ->
  read_ram c a = Undefined (RamOutOfBounds a).
Proof.
  intros Ha. unfold read_ram. by rewrite lookupZ_out_of_range.
Qed.

(** The fetch reads ram[programCounter] and ram[programCounter + 1] as they
    are: it is defined when both lie inside ram, and not otherwise. *)
Lemma nextInstruction_defined c :
  0 <= programCounter c ->
  programCounter c + 1 < Z.of_nat (length (ram c)) ->
  exists c1, nextInstruction c = Ok c1.
Proof.
  intros H0 Hpc. unfold nextInstruction.
  destruct (read_ram_in_range c (programCounter c)) as [hi ->]; [lia|].
  destruct (read_ram_in_range c (programCounter c + 1)) as [lo ->]; [lia|].
  by eexists.
Qed.

Lemma nextInstruction_out_of_range c :
  0 <= programCounter c ->
  Z.of_nat (length (ram c)) <= programCounter c + 1 ->
  exists a, nextInstruction c = Undefined (RamOutOfBounds a)
            /\ Z.of_nat (length (ram c)) <= a.
Proof.
  intros H0 Hpc. unfold nextInstruction.
  destruct (decide (programCounter c < Z.of_nat (length (ram c)))) as [Hin|Hout].
  - destruct (read_ram_in_range c (programCounter c)) as [hi ->]; [lia|].
    rewrite (read_ram_out_of_range c (programCounter c + 1)) by lia.
    eexists; split; [reflexivity | lia].
  - rewrite (read_ram_out_of_range c (programCounter c)) by lia.
    eexists; split; [reflexivity | lia].
Qed.

Lemma draw_rows_defined k i x0 dy c :
  0 <= indexRegister c -> 0 <= i ->
  i + Z.of_nat k < 256 ->
  indexRegister c + i + Z.of_nat k <= Z.of_nat (length (ram c)) ->
  exists c', draw_rows k i x0 dy c = Ok c'.
Proof.
  revert i dy c. induction k as [|k IH]; intros i dy c HI Hi Hk Hr.
  - by eexists.
  - rewrite draw_rows_S.
    destruct (read_ram_in_range c (indexRegister c + i)) as [b ->]; [lia|].
    cbn [mbind result_bind]. destruct (_ >=? _); [by eexists|].
    pose proof (draw_row_frame 7 b dy x0 c) as Hfr.
    apply IH.
    + rewrite (same_but_V_frameBuffer_indexRegister _ _ Hfr). lia.
    + unfold u8. rewrite Z.mod_small by lia. lia.
    + unfold u8. rewrite Z.mod_small by lia. lia.
    + rewrite (same_but_V_frameBuffer_indexRegister _ _ Hfr).
      rewrite (same_but_V_frameBuffer_ram _ _ Hfr).
      unfold u8. rewrite Z.mod_small by lia. lia.
Qed.

Lemma op_draw_defined c :
  0 <= indexRegister c -> 0 <= n (instruction c) < 256 ->
  indexRegister c + n (instruction c) <= Z.of_nat (length (ram c)) ->
  exists c', op_draw c = Ok c'.
Proof.
  intros HI Hn Hr. unfold op_draw.
  destruct (draw_rows_defined (Z.to_nat (n (instruction c))) 0
              (u8 (getV c (x (instruction c)) mod WINDOW_WIDTH))
              (u8 (getV c (y (instruction c)) mod WINDOW_HEIGHT))
              (setV 0xF 0 c)) as [c' ->]; cbn; try lia.
  by eexists.
Qed.

Lemma store_registers_defined k i c :
  0 <= indexRegister c -> 0 <= i ->
  i + Z.of_nat k < 256 ->
  indexRegister c + i + Z.of_nat k <= Z.of_nat (length (ram c)) ->
  exists c', store_registers k i c = Ok c'.
Proof.
  revert i c. induction k as [|k IH]; intros i c HI Hi Hk Hr.
  - by eexists.
  - cbn [store_registers]. rewrite write_ram_in_range by lia.
    cbn [mbind result_bind]. apply IH; cbn; rewrite ?length_put;
      unfold u8; rewrite ?Z.mod_small by lia; lia.
Qed.

Lemma load_registers_defined k i c :
  0 <= indexRegister c -> 0 <= i ->
  i + Z.of_nat k < 256 ->
  indexRegister c + i + Z.of_nat k <= Z.of_nat (length (ram c)) ->
  exists c', load_registers k i c = Ok c'.
Proof.
  revert i c. induction k as [|k IH]; intros i c HI Hi Hk Hr.
  - by eexists.
  - cbn [load_registers].
    destruct (read_ram_in_range c (indexRegister c + i)) as [b ->]; [lia|].
    cbn [mbind result_bind]. apply IH; cbn;
      unfold u8; rewrite ?Z.mod_small by lia; lia.
Qed.

Lemma op_bcd_defined c :
  0 <= indexRegister c ->
  indexRegister c + 2 < Z.of_nat (length (ram c)) ->
  exists c', op_bcd c = Ok c'.
Proof.
  intros HI Hr. unfold op_bcd.
  rewrite write_ram_in_range by lia. cbn [mbind result_bind].
  rewrite write_ram_in_range by (cbn; rewrite ?length_put; lia).
  cbn [mbind result_bind].
  rewrite write_ram_in_range by (cbn; rewrite ?length_put; lia).
  by eexists.
Qed.


Ltac split_switch :=
  repeat match goal with
  | |- context [match ?p with xI _ => _ | xO _ => _ | xH => _ end] =>
      is_var p; destruct p
  end.

Lemma ram_safe_defined {A} (r : result A) :
  (exists a, r = Ok a) -> ram_safe r.
Proof. intros [a ->]. apply ram_safe_Ok. Qed.

Lemma ram_safe_then_Ok {A B} (r : result A) (f : A -> B) :
  ram_safe r -> ram_safe (a ← r; Ok (f a)).
Proof.
  intros Hr. apply ram_safe_bind_Ok; [done|]. intros. apply ram_safe_Ok.
Qed.

Lemma read_keypad_ram_safe c k : ram_safe (read_keypad c k).
Proof. unfold read_keypad. intros a. destruct (lookupZ _ _); discriminate. Qed.

Lemma read_stack_ram_safe c k : ram_safe (read_stack c k).
Proof. unfold read_stack. intros a. destruct (lookupZ _ _); discriminate. Qed.

Lemma write_stack_ram_safe c k v : ram_safe (write_stack k v c).
Proof. unfold write_stack. intros a. destruct (lookupZ _ _); discriminate. Qed.

Lemma op_return_ram_safe c : ram_safe (op_return c).
Proof.
  unfold op_return. apply ram_safe_bind_Ok; [apply read_stack_ram_safe|].
  intros. apply ram_safe_Ok.
Qed.

Lemma op_call_ram_safe c : ram_safe (op_call c).
Proof.
  unfold op_call. apply ram_safe_bind_Ok; [apply write_stack_ram_safe|].
  intros. apply ram_safe_Ok.
Qed.

Lemma scan_keypad_ram_safe k i c st : ram_safe (scan_keypad k i c st).
Proof.
  revert i. induction k as [|k IH]; intros i; cbn [scan_keypad].
  - apply ram_safe_Ok.
  - destruct (_ =? _); [|apply ram_safe_Ok].
    apply ram_safe_bind_Ok; [apply read_keypad_ram_safe|].
    intros b _. destruct (truthy b); [apply ram_safe_Ok | apply IH].
Qed.

Lemma op_wait_key_ram_safe c st : ram_safe (op_wait_key c st).
Proof.
  unfold op_wait_key. apply ram_safe_bind_Ok; [apply scan_keypad_ram_safe|].
  intros st1 _. destruct (negb _); [apply ram_safe_Ok|].
  apply ram_safe_bind_Ok; [apply read_keypad_ram_safe|].
  intros b _. destruct (negb _); apply ram_safe_Ok.
Qed.

Section InRange.
Variables (rnd : Z) (st : Statics) (c : Chip8).
Hypothesis Hlen : length (ram c) = 4096%nat.
Hypothesis HI : 0 <= indexRegister c.
Hypothesis HI15 : indexRegister c + 15 < 4096.
Hypothesis Hn : 0 <= n (instruction c) < 16.
Hypothesis Hx : 0 <= x (instruction c) < 16.

Lemma op_misc_ram_safe : ram_safe (op_misc c st).
Proof using Hlen HI HI15 Hx.
  unfold op_misc. destruct (kk (instruction c)) as [|p|p];
    try apply ram_safe_Ok.
  split_switch;
    first
      [ apply ram_safe_Ok
      | apply op_wait_key_ram_safe
      | apply ram_safe_then_Ok, ram_safe_defined, op_bcd_defined; lia
      | apply ram_safe_then_Ok, ram_safe_defined, store_registers_defined;
        lia
      | apply ram_safe_then_Ok, ram_safe_defined, load_registers_defined;
        lia ].
Qed.

Lemma keypad_skip_ram_safe (f : Z -> Chip8 * Statics) k :
  ram_safe (b ← read_keypad c k; Ok (f b)).
Proof using Type. apply ram_safe_then_Ok, read_keypad_ram_safe. Qed.

Lemma execute_ram_safe : ram_safe (execute rnd st c).
Proof using Hlen HI HI15 Hn Hx.
  unfold execute. cbv zeta.
  destruct (Z.shiftr (raw (instruction c)) 12) as [|p|p];
    [| split_switch | apply ram_safe_Ok];
    first
      [ apply ram_safe_Ok
      | apply op_misc_ram_safe
      | apply ram_safe_then_Ok, op_call_ram_safe
      | apply ram_safe_then_Ok, ram_safe_defined, op_draw_defined; lia
      | idtac ].
  - repeat (destruct (_ =? _); try apply ram_safe_Ok).
    apply ram_safe_then_Ok, op_return_ram_safe.
  - destruct (kk (instruction c)) as [|p|p]; try apply ram_safe_Ok.
    split_switch;
      first [ apply ram_safe_Ok
            | apply (keypad_skip_ram_safe
                       (fun b => (if truthy b then pc_forward c else c, st)))
            | apply (keypad_skip_ram_safe
                       (fun b => (if negb (truthy b) then pc_forward c else c,
                                  st))) ].
Qed.
End InRange.


Lemma wf_indexRegister c : wf c -> word16 (indexRegister c).
Proof. intros H. apply H. Qed.

Lemma wf_programCounter c : wf c -> word16 (programCounter c).
Proof. intros H. apply H. Qed.

Lemma write_ram_out_of_range c a v :
  ~ 0 <= a < Z.of_nat (length (ram c)) ->
  write_ram a v c = Undefined (RamOutOfBounds a).
Proof.
  intros Ha. unfold write_ram. by rewrite lookupZ_out_of_range.
Qed.

(** The loops use indexRegister + i as it is: when row, or register, [m]
    from the current one is the first whose address lies outside ram, the
    loop gets there and accesses ram at this address. *)
Lemma draw_rows_leaves_ram m k i x0 dy c :
  0 <= indexRegister c -> 0 <= i -> 0 <= dy ->
  (m < k)%nat -> i + Z.of_nat m < 256 -> dy + Z.of_nat m < WINDOW_HEIGHT ->
  indexRegister c + i + Z.of_nat m
  = Z.max (indexRegister c + i) (Z.of_nat (length (ram c))) ->
  draw_rows k i x0 dy c
  = Undefined (RamOutOfBounds (indexRegister c + i + Z.of_nat m)).
Proof.
  unfold WINDOW_HEIGHT.
  revert k i dy c. induction m as [|m IH]; intros k i dy c HI Hi Hdy Hk Him Hrow Hm;
    (destruct k as [|k]; [lia|]); rewrite draw_rows_S.
  - rewrite read_ram_out_of_range by lia. cbn. f_equal. f_equal. lia.
  - destruct (read_ram_in_range c (indexRegister c + i)) as [b ->]; [lia|].
    cbn [mbind result_bind]. unfold WINDOW_HEIGHT.
    rewrite (u8_small (dy + 1)), (u8_small (i + 1)) by (unfold byte; lia).
    destruct (Z.geb_spec (dy + 1) 32) as [|_]; [lia|].
    pose proof (draw_row_frame 7 b dy x0 c) as Hfr.
    rewrite (IH k (i + 1) (dy + 1)).
    + rewrite (same_but_V_frameBuffer_indexRegister _ _ Hfr).
      f_equal. f_equal. lia.
    + rewrite (same_but_V_frameBuffer_indexRegister _ _ Hfr). lia.
    + lia.
    + lia.
    + lia.
    + lia.
    + unfold WINDOW_HEIGHT. lia.
    + rewrite (same_but_V_frameBuffer_indexRegister _ _ Hfr),
        (same_but_V_frameBuffer_ram _ _ Hfr). lia.
Qed.

Lemma store_registers_leaves_ram m k i c :
  0 <= indexRegister c -> 0 <= i ->
  (m < k)%nat -> i + Z.of_nat m < 256 ->
  indexRegister c + i + Z.of_nat m
  = Z.max (indexRegister c + i) (Z.of_nat (length (ram c))) ->
  store_registers k i c
  = Undefined (RamOutOfBounds (indexRegister c + i + Z.of_nat m)).
Proof.
  revert k i c. induction m as [|m IH]; intros k i c HI Hi Hk Him Hm;
    (destruct k as [|k]; [lia|]); cbn [store_registers].
  - rewrite write_ram_out_of_range by lia. cbn. f_equal. f_equal. lia.
  - rewrite write_ram_in_range by lia. cbn [mbind result_bind].
    rewrite (u8_small (i + 1)) by (unfold byte; lia).
    rewrite (IH k (i + 1)); cbn [indexRegister ram set_ram];
      rewrite ?length_put; try lia.
    f_equal. f_equal. lia.
Qed.

Lemma load_registers_leaves_ram m k i c :
  0 <= indexRegister c -> 0 <= i ->
  (m < k)%nat -> i + Z.of_nat m < 256 ->
  indexRegister c + i + Z.of_nat m
  = Z.max (indexRegister c + i) (Z.of_nat (length (ram c))) ->
  load_registers k i c
  = Undefined (RamOutOfBounds (indexRegister c + i + Z.of_nat m)).
Proof.
  revert k i c. induction m as [|m IH]; intros k i c HI Hi Hk Him Hm;
    (destruct k as [|k]; [lia|]); cbn [load_registers].
  - rewrite read_ram_out_of_range by lia. cbn. f_equal. f_equal. lia.
  - destruct (read_ram_in_range c (indexRegister c + i)) as [b ->]; [lia|].
    cbn [mbind result_bind].
    rewrite (u8_small (i + 1)) by (unfold byte; lia).
    rewrite (IH k (i + 1)); cbn [indexRegister ram setV set_V]; try lia.
    f_equal. f_equal. lia.
Qed.

Lemma emulate_leaves_ram_at_index rnd st c c1 :
  wf c ->
  nextInstruction c = Ok c1 ->
  (Z.shiftr (raw (instruction c1)) 12 = 0xD ->
   Z.max (indexRegister c) RAM_SIZE < indexRegister c + n (instruction c1) ->
   getV c (y (instruction c1)) mod WINDOW_HEIGHT
   + (Z.max (indexRegister c) RAM_SIZE - indexRegister c) < WINDOW_HEIGHT ->
   emulateInstruction rnd st c
   = Undefined (RamOutOfBounds (Z.max (indexRegister c) RAM_SIZE)))
  /\ (Z.shiftr (raw (instruction c1)) 12 = 0xF ->
      kk (instruction c1) = 0x33 ->
      RAM_SIZE <= indexRegister c + 2 ->
      emulateInstruction rnd st c
      = Undefined (RamOutOfBounds (indexRegister c + 2)))
  /\ (Z.shiftr (raw (instruction c1)) 12 = 0xF ->
      kk (instruction c1) = 0x55 \/ kk (instruction c1) = 0x65 ->
      Z.max (indexRegister c) RAM_SIZE <= indexRegister c + x (instruction c1) ->
      emulateInstruction rnd st c
      = Undefined (RamOutOfBounds (Z.max (indexRegister c) RAM_SIZE))).
Proof.
  intros Hwf Hf.
  pose proof (wf_ram_length c Hwf) as Hlen.
  pose proof (wf_indexRegister c Hwf) as HI.
  destruct (nextInstruction_fields _ _ Hf) as (Hn & Hx & _).
  rewrite (emulateInstruction_fetch _ _ _ _ Hf).
  assert (Hram : ram c1 = ram c)
    by (destruct (nextInstruction_shape _ _ Hf) as [w ->]; done).
  assert (Hidx : indexRegister c1 = indexRegister c)
    by (destruct (nextInstruction_shape _ _ Hf) as [w ->]; done).
  assert (HV : V c1 = V c)
    by (destruct (nextInstruction_shape _ _ Hf) as [w ->]; done).
  unfold word16, RAM_SIZE, WINDOW_HEIGHT in *.
  set (m := Z.to_nat (Z.max (indexRegister c) 4096 - indexRegister c)).
  assert (Hm : indexRegister c + 0 + Z.of_nat m = Z.max (indexRegister c) 4096)
    by (subst m; lia).
  split; [|split].
  - intros Hfam Hrows Hrow. rewrite (execute_draw _ _ _ Hfam). unfold op_draw.
    unfold WINDOW_HEIGHT.
    replace (getV c1 (y (instruction c1))) with (getV c (y (instruction c1)))
      by (unfold getV; by rewrite HV).
    pose proof (Z.mod_pos_bound (getV c (y (instruction c1))) 32 ltac:(lia)).
    rewrite (u8_small (getV c (y (instruction c1)) mod 32))
      by (unfold byte; lia).
    rewrite (draw_rows_leaves_ram m);
      cbn [indexRegister ram setV set_V]; rewrite ?Hidx, ?Hram, ?Hlen;
      unfold WINDOW_HEIGHT; try lia.
    cbn. by rewrite Hm.
  - intros Hfam Hkk Hout. unfold execute. rewrite Hfam. cbv zeta.
    unfold op_misc. rewrite Hkk. unfold op_bcd.
    rewrite write_ram_out_of_range by (rewrite Hidx, Hram, Hlen; lia).
    cbn. by rewrite Hidx.
  - intros Hfam Hkk Hout. unfold execute. rewrite Hfam. cbv zeta.
    unfold op_misc. destruct Hkk as [-> | ->].
    + rewrite (store_registers_leaves_ram m);
        rewrite ?Hidx, ?Hram, ?Hlen; try lia.
      cbn. by rewrite Hm.
    + rewrite (load_registers_leaves_ram m);
        rewrite ?Hidx, ?Hram, ?Hlen; try lia.
      cbn. by rewrite Hm.
Qed.

(** C5 (amended): addresses are used as they are computed, with no mask to
    12 bits.  While programCounter + 1 and indexRegister + 15 are at most
    0xFFF no instruction leaves ram; a fetch with programCounter + 1 above
    0xFFF reads outside ram; and so do the accesses at indexRegister + i:
    a sprite read, a register-block transfer or the BCD store whose
    addresses go past 0xFFF accesses ram at the first such address (for
    the BCD store, which starts with its last byte, at indexRegister + 2),
    where a masked address would have wrapped to the start of ram. *)
Theorem addresses_in_range_without_mask rnd st c :
  wf c ->
  (programCounter c + 1 < RAM_SIZE ->
   indexRegister c + 15 < RAM_SIZE ->
   ram_safe (emulateInstruction rnd st c))
  /\ (RAM_SIZE <= programCounter c + 1 ->
      exists a, emulateInstruction rnd st c = Undefined (RamOutOfBounds a)
                /\ RAM_SIZE <= a)
  /\ (forall c1,
        nextInstruction c = Ok c1 ->
        (Z.shiftr (raw (instruction c1)) 12 = 0xD ->
         Z.max (indexRegister c) RAM_SIZE
         < indexRegister c + n (instruction c1) ->
         getV c (y (instruction c1)) mod WINDOW_HEIGHT
         + (Z.max (indexRegister c) RAM_SIZE - indexRegister c)
         < WINDOW_HEIGHT ->
         emulateInstruction rnd st c
         = Undefined (RamOutOfBounds (Z.max (indexRegister c) RAM_SIZE)))
        /\ (Z.shiftr (raw (instruction c1)) 12 = 0xF ->
            kk (instruction c1) = 0x33 ->
            RAM_SIZE <= indexRegister c + 2 ->
            emulateInstruction rnd st c
            = Undefined (RamOutOfBounds (indexRegister c + 2)))
        /\ (Z.shiftr (raw (instruction c1)) 12 = 0xF ->
            kk (instruction c1) = 0x55 \/ kk (instruction c1) = 0x65 ->
            Z.max (indexRegister c) RAM_SIZE
            <= indexRegister c + x (instruction c1) ->
            emulateInstruction rnd st c
            = Undefined (RamOutOfBounds (Z.max (indexRegister c) RAM_SIZE)))).
Proof.
  intros Hwf.
  split; [|split]; [| |intros c1 Hf; by apply emulate_leaves_ram_at_index].
  - pose proof (wf_ram_length c Hwf) as Hlen.
    pose proof (wf_indexRegister c Hwf) as HI.
    pose proof (wf_programCounter c Hwf) as Hpc.
    unfold word16, RAM_SIZE in *.
    intros Hpc1 HI15.
    destruct (nextInstruction_defined c) as [c1 Hf]; [lia..|].
    rewrite (emulateInstruction_fetch _ _ _ _ Hf).
    destruct (nextInstruction_fields _ _ Hf) as (Hn & Hx & _).
    destruct (nextInstruction_shape _ _ Hf) as [w ->].
    apply execute_ram_safe; cbn in *; done || lia.
  - pose proof (wf_ram_length c Hwf) as Hlen.
    pose proof (wf_programCounter c Hwf) as Hpc.
    unfold word16, RAM_SIZE in *.
    intros Hpc1.
    destruct (nextInstruction_out_of_range c) as (a & Hf & Ha); [lia..|].
    exists a. unfold emulateInstruction. rewrite Hf. split; [done | lia].
Qed.

Lemma addresses_in_range_without_mask_witness :
  ram_safe (emulateInstruction 0 statics0 (after draw_byte_program 1))
  /\ emulateInstruction 0 statics0 (after draw_at_top_program 1)
     = Undefined (RamOutOfBounds 0x1000)
  /\ emulateInstruction 0 statics0 (after bcd_at_top_program 1)
     = Undefined (RamOutOfBounds 0x1001)
  /\ emulateInstruction 0 statics0 (after store_at_top_program 1)
     = Undefined (RamOutOfBounds 0x1000)
  /\ emulateInstruction 0 statics0 (after load_at_top_program 1)
     = Undefined (RamOutOfBounds 0x1000).
Proof.
  split; [|split; [|split; [|split]]].
  - apply (addresses_in_range_without_mask 0 statics0
             (after draw_byte_program 1)).
    + by_computation.
    + evaluate.
    + evaluate.
  - destruct (proj2 (proj2 (addresses_in_range_without_mask 0 statics0
                              (after draw_at_top_program 1)
                              ltac:(by_computation)))
                (fetched (after draw_at_top_program 1)) ltac:(evaluate))
      as (Hdraw & _ & _).
    etransitivity; [apply Hdraw | evaluate].
    + evaluate.
    + evaluate.
    + evaluate.
  - destruct (proj2 (proj2 (addresses_in_range_without_mask 0 statics0
                              (after bcd_at_top_program 1)
                              ltac:(by_computation)))
                (fetched (after bcd_at_top_program 1)) ltac:(evaluate))
      as (_ & Hbcd & _).
    etransitivity; [apply Hbcd | evaluate].
    + evaluate.
    + evaluate.
    + evaluate_ne.
  - destruct (proj2 (proj2 (addresses_in_range_without_mask 0 statics0
                              (after store_at_top_program 1)
                              ltac:(by_computation)))
                (fetched (after store_at_top_program 1)) ltac:(evaluate))
      as (_ & _ & Hblock).
    etransitivity; [apply Hblock | evaluate].
    + evaluate.
    + left. evaluate.
    + evaluate_ne.
  - destruct (proj2 (proj2 (addresses_in_range_without_mask 0 statics0
                              (after load_at_top_program 1)
                              ltac:(by_computation)))
                (fetched (after load_at_top_program 1)) ltac:(evaluate))
      as (_ & _ & Hblock).
    etransitivity; [apply Hblock | evaluate].
    + evaluate.
    + right. evaluate.
    + evaluate_ne.
Defined.

Lemma unmasked_addresses_leave_ram :
  run bcd_at_top_program 2 = Undefined (RamOutOfBounds 0x1001)
  /\ run jump_to_top_program 2 = Undefined (RamOutOfBounds 0x1000).
Proof. split; evaluate. Qed.

(** The draw is defined whenever the N sprite rows lie inside ram. *)
Lemma emulate_draw_defined rnd st c c0 :
  wf c ->
  nextInstruction c = Ok c0 ->
  Z.shiftr (raw (instruction c0)) 12 = 0xD ->
  indexRegister c + n (instruction c0) <= RAM_SIZE ->
  exists c1, emulateInstruction rnd st c = Ok (c1, st).
Proof.
  intros Hwf Hf Hfam Hrange.
  rewrite (emulateInstruction_fetch _ _ _ _ Hf), (execute_draw _ _ _ Hfam).
  pose proof (wf_ram_length c Hwf) as Hlen.
  pose proof (wf_indexRegister c Hwf) as HI.
  destruct (nextInstruction_fields _ _ Hf) as (Hn & _).
  destruct (nextInstruction_shape _ _ Hf) as [w ->].
  unfold word16, RAM_SIZE in *. cbn in Hn, Hrange.
  destruct (op_draw_defined
              (set_instruction (decode w)
                 (set_programCounter (u16 (programCounter c + 2)) c)))
    as [c1 ->]; cbn; try lia.
  by eexists.
Qed.

(** ** The value ranges are kept *)

Lemma byte_land_255 z : byte z <-> Z.land z 255 = z.
Proof.
  change 255 with (Z.ones 8). rewrite Z.land_ones by lia. unfold byte.
  change (2 ^ 8) with 256. split.
  - intros H. apply Z.mod_small. lia.
  - intros <-. apply Z.mod_pos_bound. lia.
Qed.

Lemma byte_land a b : byte a -> byte (Z.land a b).
Proof.
  rewrite !byte_land_255. intros Ha.
  by rewrite <- Z.land_assoc, (Z.land_comm b), Z.land_assoc, Ha.
Qed.

Lemma byte_lor a b : byte a -> byte b -> byte (Z.lor a b).
Proof.
  rewrite !byte_land_255. intros Ha Hb.
  by rewrite Z.land_lor_distr_l, Ha, Hb.
Qed.

Lemma byte_lxor a b : byte a -> byte b -> byte (Z.lxor a b).
Proof.
  rewrite !byte_land_255. intros Ha Hb.
  apply Z.bits_inj'. intros k Hk.
  rewrite Z.land_spec, Z.lxor_spec.
  assert (Hak : Z.testbit a k = Z.testbit a k && Z.testbit 255 k)
    by (by rewrite <- Z.land_spec, Ha).
  assert (Hbk : Z.testbit b k = Z.testbit b k && Z.testbit 255 k)
    by (by rewrite <- Z.land_spec, Hb).
  destruct (Z.testbit a k), (Z.testbit b k), (Z.testbit 255 k);
    done.
Qed.

Lemma byte_u8 z : byte (u8 z).
Proof. unfold byte, u8. apply Z.mod_pos_bound. lia. Qed.

Lemma word16_u16 z : word16 (u16 z).
Proof. unfold word16, u16. apply Z.mod_pos_bound. lia. Qed.

Lemma byte_of_bool b : byte (of_bool b).
Proof. unfold byte. destruct b; cbn; lia. Qed.

Lemma byte_shiftr a k : 0 <= k -> byte a -> byte (Z.shiftr a k).
Proof.
  unfold byte. intros Hk Ha. rewrite Z.shiftr_div_pow2 by done.
  assert (0 < 2 ^ k) by (apply Z.pow_pos_nonneg; lia).
  split.
  - apply Z.div_pos; lia.
  - apply Z.le_lt_trans with a; [|lia]. apply Z.div_le_upper_bound; nia.
Qed.

Lemma byte_get a i : Forall byte a -> byte (get a i).
Proof.
  intros Ha. unfold get. rewrite list_lookup_total_alt.
  destruct (a !! Z.to_nat i) as [v|] eqn:Hv; cbn.
  - by eapply Forall_lookup_1.
  - unfold byte. lia.
Qed.

Lemma Forall_put (P : Z -> Prop) a i v :
  Forall P a -> P v -> Forall P (put a i v).
Proof. apply Forall_insert. Qed.

Lemma lookupZ_Forall (P : Z -> Prop) a i v :
  Forall P a -> lookupZ a i = Some v -> P v.
Proof.
  unfold lookupZ. intros Ha. destruct (0 <=? i); [|done].
  by apply Forall_lookup_1.
Qed.

Lemma lookupZ_Some_range a i v :
  lookupZ a i = Some v -> 0 <= i < Z.of_nat (length a).
Proof.
  unfold lookupZ. destruct (Z.leb_spec 0 i) as [Hi|Hi]; [|done].
  intros Hv%lookup_lt_Some. lia.
Qed.

(** [wf] field by field. *)
Lemma wf_intro fb v stk mem kp idx sp pc dt snd_t dr ins stt :
  length fb = 2048%nat -> Forall byte fb ->
  length v = 16%nat -> Forall byte v ->
  length stk = 64%nat -> Forall word16 stk ->
  length mem = 4096%nat -> Forall byte mem ->
  length kp = 16%nat -> Forall byte kp ->
  word16 idx -> 0 <= sp <= 64 -> word16 pc ->
  byte dt -> byte snd_t -> byte dr ->
  word16 (raw ins) -> word16 (nnn ins) -> byte (n ins) -> byte (x ins) ->
  byte (y ins) -> byte (kk ins) ->
  wf (mkChip8 fb v stk mem kp idx sp pc dt snd_t dr ins stt).
Proof. intros. unfold wf. cbn. done. Qed.

Ltac wf_fields H c :=
  destruct c; unfold wf in H; cbn in H;
  destruct H as ((?&?)&(?&?)&(?&?)&(?&?)&(?&?)&?&?&?&?&?&?&(?&?&?&?&?&?));
  change (Z.to_nat (WINDOW_WIDTH * WINDOW_HEIGHT)) with 2048%nat in *;
  change (Z.to_nat NUM_REGISTERS) with 16%nat in *;
  change (Z.to_nat STACK_SIZE) with 64%nat in *;
  change (Z.to_nat RAM_SIZE) with 4096%nat in *;
  change (Z.to_nat KEYS) with 16%nat in *;
  change STACK_SIZE with 64 in *.

Ltac wf_rebuild :=
  apply wf_intro; cbn; rewrite ?length_put; try assumption.

Lemma wf_setV i v c : wf c -> byte v -> wf (setV i v c).
Proof.
  intros H Hv. wf_fields H c. unfold setV.
  wf_rebuild. by apply Forall_put.
Qed.

Lemma wf_getV c i : wf c -> byte (getV c i).
Proof. intros H. apply byte_get. apply H. Qed.

Lemma wf_set_frameBuffer fb c :
  wf c -> length fb = 2048%nat -> Forall byte fb -> wf (set_frameBuffer fb c).
Proof. intros H Hl Hfb. wf_fields H c. wf_rebuild. Qed.

Lemma wf_set_programCounter v c :
  wf c -> word16 v -> wf (set_programCounter v c).
Proof. intros H Hv. wf_fields H c. wf_rebuild. Qed.

Lemma wf_set_indexRegister v c :
  wf c -> word16 v -> wf (set_indexRegister v c).
Proof. intros H Hv. wf_fields H c. wf_rebuild. Qed.

Lemma wf_set_delayTimer v c : wf c -> byte v -> wf (set_delayTimer v c).
Proof. intros H Hv. wf_fields H c. wf_rebuild. Qed.

Lemma wf_set_soundTimer v c : wf c -> byte v -> wf (set_soundTimer v c).
Proof. intros H Hv. wf_fields H c. wf_rebuild. Qed.

Lemma wf_set_draw v c : wf c -> byte v -> wf (set_draw v c).
Proof. intros H Hv. wf_fields H c. wf_rebuild. Qed.

Lemma wf_pc_forward c : wf c -> wf (pc_forward c).
Proof. intros H. apply wf_set_programCounter; [done | apply word16_u16]. Qed.

Lemma wf_pc_back c : wf c -> wf (pc_back c).
Proof. intros H. apply wf_set_programCounter; [done | apply word16_u16]. Qed.

Lemma wf_read_ram c a b : wf c -> read_ram c a = Ok b -> byte b.
Proof.
  intros H. unfold read_ram.
  destruct (lookupZ (ram c) a) as [v|] eqn:Hv; [|done].
  intros [= <-]. eapply lookupZ_Forall; [|exact Hv]. apply H.
Qed.

Lemma wf_write_ram c a v c' :
  wf c -> byte v -> write_ram a v c = Ok c' -> wf c'.
Proof.
  intros H Hv. unfold write_ram. destruct (lookupZ (ram c) a); [|done].
  intros [= <-]. wf_fields H c. wf_rebuild. by apply Forall_put.
Qed.

Lemma wf_nextInstruction c c1 : wf c -> nextInstruction c = Ok c1 -> wf c1.
Proof.
  intros H Hf.
  destruct (nextInstruction_fields _ _ Hf) as (Hn & Hx & Hy & Hkk & Hnnn).
  pose proof (nextInstruction_Ok _ _ Hf) as E.
  assert (Hraw : word16 (raw (instruction c1))).
  { revert Hf. unfold nextInstruction. intros Hf.
    apply bind_Ok in Hf as (hi & _ & Hf). apply bind_Ok in Hf as (lo & _ & Hf).
    apply Ok_inj in Hf. subst c1. cbn. apply word16_u16. }
  rewrite E in Hn, Hx, Hy, Hkk, Hnnn, Hraw. cbn in Hn, Hx, Hy, Hkk, Hnnn, Hraw.
  rewrite E. clear E Hf. wf_fields H c. unfold byte, word16 in *.
  wf_rebuild; try apply word16_u16; unfold byte, word16; lia.
Qed.

Lemma wf_op_alu c : wf c -> wf (op_alu c).
Proof.
  intros H. unfold op_alu.
  destruct (n (instruction c)) as [|p|p]; try done; split_switch; try done;
    repeat first
      [ apply wf_setV | apply wf_getV | apply byte_u8 | apply byte_of_bool
      | apply byte_lor | apply byte_land | apply byte_lxor
      | apply byte_shiftr | lia | assumption ].
Qed.

Lemma wf_op_return c c' : wf c -> op_return c = Ok c' -> wf c'.
Proof.
  intros H. unfold op_return, read_stack.
  destruct (lookupZ (stack c) (stackPointer c - 1)) as [a|] eqn:Ha; [|done].
  intros [= <-].
  pose proof (lookupZ_Some_range _ _ _ Ha) as Hr.
  assert (Hw : word16 a) by (eapply lookupZ_Forall; [apply H | exact Ha]).
  wf_fields H c. cbn in *. wf_rebuild. lia.
Qed.

Lemma wf_op_call c c' : wf c -> op_call c = Ok c' -> wf c'.
Proof.
  intros H. unfold op_call, write_stack.
  destruct (lookupZ (stack c) (stackPointer c)) as [a|] eqn:Ha; [|done].
  intros [= <-].
  pose proof (lookupZ_Some_range _ _ _ Ha) as Hr.
  wf_fields H c. cbn in *.
  wf_rebuild; first [by apply Forall_put | unfold word16, byte in *; lia].
Qed.

Lemma wf_draw_bit j spriteByte dy dx c :
  wf c -> byte spriteByte -> wf (draw_bit j spriteByte dy dx c).
Proof.
  intros H Hs. unfold draw_bit.
  set (m := Z.land spriteByte (Z.shiftl 1 (Z.of_nat j))).
  assert (Hm : byte m) by (by apply byte_land).
  set (c1 := if _ : bool then _ else c).
  assert (H1 : wf c1).
  { subst c1. destruct (_ && _); [|done]. apply wf_setV; [done|]. apply byte_of_bool. }
  assert (Hfb : frameBuffer c1 = frameBuffer c).
  { subst c1. by destruct (_ && _). }
  apply wf_set_frameBuffer; [done| |].
  - rewrite length_put. apply H1.
  - apply Forall_put; [apply H1|]. apply byte_lxor; [|done].
    apply byte_get. apply H.
Qed.

Lemma wf_draw_row j spriteByte dy dx c :
  wf c -> byte spriteByte -> wf (draw_row j spriteByte dy dx c).
Proof.
  revert dx c. induction j as [|j IH]; intros dx c H Hs; [done|].
  cbn [draw_row]. pose proof (wf_draw_bit (S j) spriteByte dy dx c H Hs).
  destruct (_ >=? _); [done|]. by apply IH.
Qed.

Lemma wf_draw_rows k i x0 dy c c' :
  wf c -> draw_rows k i x0 dy c = Ok c' -> wf c'.
Proof.
  revert i dy c. induction k as [|k IH]; intros i dy c H Hd.
  - apply Ok_inj in Hd. by subst.
  - rewrite draw_rows_S in Hd. apply bind_Ok in Hd as (b & Hb & Hd).
    pose proof (wf_draw_row 7 b dy x0 c H (wf_read_ram _ _ _ H Hb)) as H1.
    destruct (_ >=? _).
    + apply Ok_inj in Hd. by subst.
    + by eapply IH.
Qed.

Lemma wf_op_draw c c' : wf c -> op_draw c = Ok c' -> wf c'.
Proof.
  intros H. unfold op_draw. intros Hd.
  apply bind_Ok in Hd as (c2 & Hrows & Hd). apply Ok_inj in Hd. subst c'.
  apply wf_set_draw; [|unfold byte; lia].
  eapply wf_draw_rows; [|exact Hrows].
  apply wf_setV; [done | unfold byte; lia].
Qed.

Lemma wf_op_bcd c c' : wf c -> op_bcd c = Ok c' -> wf c'.
Proof.
  intros H. unfold op_bcd. intros Hb.
  apply bind_Ok in Hb as (c1 & H1 & Hb). apply bind_Ok in Hb as (c2 & H2 & Hb).
  pose proof (wf_getV c (x (instruction c)) H) as Hv. unfold byte in Hv.
  eapply wf_write_ram in H1; [|done|].
  2:{ unfold byte. pose proof (Z.mod_pos_bound (getV c (x (instruction c))) 10). lia. }
  eapply wf_write_ram in H2; [|done|].
  2:{ unfold byte.
      pose proof (Z.mod_pos_bound (u8 (getV c (x (instruction c)) / 10)) 10). lia. }
  eapply wf_write_ram in Hb; [done|done|apply byte_u8].
Qed.

Lemma wf_store_registers k i c c' :
  wf c -> store_registers k i c = Ok c' -> wf c'.
Proof.
  revert i c. induction k as [|k IH]; intros i c H Hs.
  - apply Ok_inj in Hs. by subst.
  - cbn [store_registers] in Hs. apply bind_Ok in Hs as (c1 & H1 & Hs).
    eapply IH; [|exact Hs]. eapply wf_write_ram; [exact H| |exact H1].
    by apply wf_getV.
Qed.

Lemma wf_load_registers k i c c' :
  wf c -> load_registers k i c = Ok c' -> wf c'.
Proof.
  revert i c. induction k as [|k IH]; intros i c H Hs.
  - apply Ok_inj in Hs. by subst.
  - cbn [load_registers] in Hs. apply bind_Ok in Hs as (b & Hb & Hs).
    eapply IH; [|exact Hs]. apply wf_setV; [done|]. by eapply wf_read_ram.
Qed.

Lemma wf_op_wait_key c st c' st' :
  wf c -> op_wait_key c st = Ok (c', st') -> wf c'.
Proof.
  intros H. unfold op_wait_key. intros Hw.
  apply bind_Ok in Hw as (st1 & _ & Hw).
  destruct (negb _).
  { apply Ok_inj in Hw. injection Hw as <- _. by apply wf_pc_back. }
  apply bind_Ok in Hw as (b & _ & Hw).
  destruct (negb _); apply Ok_inj in Hw; injection Hw as <- _.
  - by apply wf_pc_back.
  - apply wf_setV; [done | apply byte_u8].
Qed.

Lemma wf_result_Ok c st : wf c -> wf_result (Ok (c, st)).
Proof. intros H c' st' [= <- _]. exact H. Qed.

Lemma wf_result_then (r : result Chip8) st :
  (forall c, r = Ok c -> wf c) -> wf_result (c ← r; Ok (c, st)).
Proof.
  intros H c' st' Hr. apply bind_Ok in Hr as (c & Hc & [= <- _]). by apply H.
Qed.

Lemma wf_keypad_skip c st (f : Z -> Chip8) k :
  (forall b, wf (f b)) -> wf_result (b ← read_keypad c k; Ok (f b, st)).
Proof.
  intros H c' st' Hr. apply bind_Ok in Hr as (b & _ & [= <- _]). apply H.
Qed.

Lemma wf_op_misc c st : wf c -> wf_result (op_misc c st).
Proof.
  intros H. unfold op_misc.
  assert (Hword : forall z, word16 (u16 z)) by apply word16_u16.
  destruct (kk (instruction c)) as [|p|p]; try by apply wf_result_Ok.
  split_switch;
    first
      [ by apply wf_result_Ok
      | intros c' st'; apply wf_op_wait_key; exact H
      | apply wf_result_then; intros c'; first
          [ apply wf_op_bcd | apply wf_store_registers
          | apply wf_load_registers ]; exact H
      | apply wf_result_Ok; first
          [ apply wf_setV | apply wf_set_delayTimer | apply wf_set_soundTimer
          | apply wf_set_indexRegister ];
        first [ exact H | apply wf_getV; exact H | apply Hword | apply H ] ].
Qed.

Lemma wf_execute rnd st c : wf c -> wf_result (execute rnd st c).
Proof.
  intros H. unfold execute. cbv zeta.
  assert (Hword : forall z, word16 (u16 z)) by apply word16_u16.
  assert (Hnnn : word16 (nnn (instruction c))) by apply H.
  assert (Hkk : byte (kk (instruction c))) by apply H.
  assert (Hfwd : forall b : bool, wf (if b then pc_forward c else c)).
  { intros []; [by apply wf_pc_forward | done]. }
  destruct (Z.shiftr (raw (instruction c)) 12) as [|p|p];
    [| split_switch | by apply wf_result_Ok];
    first
      [ by apply wf_result_Ok
      | apply wf_op_misc; exact H
      | apply wf_result_Ok, wf_op_alu; exact H
      | apply wf_result_Ok, Hfwd
      | apply wf_result_then; intros c'; first
          [ apply wf_op_call | apply wf_op_draw ]; exact H
      | apply wf_result_Ok; first
          [ apply wf_setV | apply wf_set_programCounter
          | apply wf_set_indexRegister ];
        first [ exact H | apply Hword | exact Hnnn | exact Hkk
              | apply byte_u8 | apply byte_land, byte_u8 ]
      | idtac ].
  - destruct (_ =? _).
    { apply wf_result_Ok, wf_set_draw; [|unfold byte; lia].
      apply wf_set_frameBuffer; [done|done|].
      apply Forall_replicate. unfold byte; lia. }
    destruct (_ =? _); [|by apply wf_result_Ok].
    apply wf_result_then. intros c'. by apply wf_op_return.
  - destruct (kk (instruction c)) as [|p|p]; try by apply wf_result_Ok.
    split_switch;
      first
        [ by apply wf_result_Ok
        | apply (wf_keypad_skip c st
                   (fun b => if truthy b then pc_forward c else c));
          intros b; apply Hfwd
        | apply (wf_keypad_skip c st
                   (fun b => if negb (truthy b) then pc_forward c else c));
          intros b; apply Hfwd ].
Qed.

(** One cycle keeps the machine well formed: every value stays in the range
    of its C type and every array keeps its size. *)
Lemma wf_emulateInstruction rnd st c c' st' :
  wf c -> emulateInstruction rnd st c = Ok (c', st') -> wf c'.
Proof.
  intros H. unfold emulateInstruction. intros Hr.
  apply bind_Ok in Hr as (c1 & Hf & Hr).
  eapply wf_execute; [|exact Hr]. by eapply wf_nextInstruction.
Qed.

Lemma wf_emulateCycles rnds st c c' st' :
  wf c -> emulateCycles rnds st c = Ok (c', st') -> wf c'.
Proof.
  revert st c. induction rnds as [|rnd rnds IH]; intros st c H Hr.
  - cbn in Hr. by injection Hr as <- _.
  - cbn [emulateCycles] in Hr. apply bind_Ok in Hr as ([c1 st1] & H1 & Hr).
    eapply IH; [|exact Hr]. by eapply wf_emulateInstruction.
Qed.

Lemma wf_loadRom c rom c' :
  wf c -> Forall byte rom -> loadRom c rom = Ok c' -> wf c'.
Proof.
  intros H Hrom. unfold loadRom, memcpy.
  destruct (Z.leb_spec (512 + Z.of_nat (length rom)) (Z.of_nat (length (ram c))))
    as [Hfit|]; [|done].
  intros [= <-]. wf_fields H c. cbn in *. wf_rebuild.
  - rewrite !length_app, !length_take, !length_drop. lia.
  - rewrite !Forall_app. split_and!.
    + by apply Forall_take.
    + by apply Forall_take.
    + by apply Forall_drop, Forall_drop.
  - unfold word16. lia.
Qed.

(** The machine [main] starts from is well formed, for any ROM file that
    fits into ram, and stays so as long as the run is defined. *)
Lemma wf_boot rom c : Forall byte rom -> boot rom = Ok c -> wf c.
Proof.
  intros Hrom. unfold boot. apply wf_loadRom; [|done]. apply wf_chip8_init.
Qed.

Lemma wf_run rom k c st :
  Forall byte rom -> run rom k = Ok (c, st) -> wf c.
Proof.
  intros Hrom. unfold run. intros Hr. apply bind_Ok in Hr as (c0 & H0 & Hr).
  eapply wf_emulateCycles; [|exact Hr]. by eapply wf_boot.
Qed.

(** ** Fetch and decode *)

Lemma lor_shiftl_8 hi lo :
  0 <= lo < 256 -> Z.lor (Z.shiftl hi 8) lo = hi * 256 + lo.
Proof.
  intros Hlo. rewrite Z.shiftl_mul_pow2 by lia. change (2 ^ 8) with 256.
  rewrite <- Z.lxor_lor, <- Z.add_nocarry_lxor; [lia| |];
    (apply Z.bits_inj'; intros k Hk; rewrite Z.land_spec, Z.bits_0;
     destruct (Z.lt_ge_cases k 8) as [Hlt|Hge];
     [ change 256 with (2 ^ 8); rewrite Z.mul_pow2_bits_low by lia; reflexivity
     | rewrite (Z.bits_above_log2 lo k), andb_false_r; [reflexivity | lia |];
       destruct (Z.eq_dec lo 0) as [->|Hne]; [cbn; lia|];
       apply Z.lt_le_trans with 8; [|lia];
       apply Z.log2_lt_pow2; lia ]).
Qed.

Lemma land_low_bits w k : 0 <= k -> Z.land w (2 ^ k - 1) = w mod 2 ^ k.
Proof.
  intros Hk. rewrite <- Z.land_ones by done. f_equal.
  rewrite Z.ones_equiv. lia.
Qed.

Lemma decode_fields w :
  0 <= w < 65536 ->
  Z.shiftr w 12 * 4096 + nnn (decode w) = w
  /\ nnn (decode w) = x (decode w) * 256 + y (decode w) * 16 + n (decode w)
  /\ kk (decode w) = y (decode w) * 16 + n (decode w)
  /\ 0 <= Z.shiftr w 12 < 16
  /\ 0 <= x (decode w) < 16 /\ 0 <= y (decode w) < 16
  /\ 0 <= n (decode w) < 16.
Proof.
  intros Hw. unfold decode. cbn [nnn n x y kk]. unfold u8.
  change 0x0FFF with (2 ^ 12 - 1). change 0x000F with (2 ^ 4 - 1).
  change 0x00FF with (2 ^ 8 - 1).
  rewrite !land_low_bits by lia. rewrite !Z.shiftr_div_pow2 by lia.
  change (2 ^ 12) with 4096. change (2 ^ 8) with 256. change (2 ^ 4) with 16.
  repeat split; Z.div_mod_to_equations; lia.
Qed.

Lemma lookupZ_get a i b : lookupZ a i = Some b -> get a i = b.
Proof.
  unfold lookupZ, get. destruct (0 <=? i); [|done].
  apply list_lookup_total_correct.
Qed.

(** X1: the fetch reads the opcode big-endian from ram[programCounter] and
    ram[programCounter + 1] and moves the program counter on by 2 (modulo
    2^16); the decoded fields are the hexadecimal digits of the opcode:
    the family nibble raw >> 12, x, y and n are each below 16, the family
    nibble and nnn make up raw, and x, y, n make up nnn and kk. *)
Theorem fetch_is_big_endian c c1 :
  wf c ->
  nextInstruction c = Ok c1 ->
  raw (instruction c1)
    = get (ram c) (programCounter c) * 256 + get (ram c) (programCounter c + 1)
  /\ programCounter c1 = (programCounter c + 2) mod 65536
  /\ Z.shiftr (raw (instruction c1)) 12 * 4096 + nnn (instruction c1)
     = raw (instruction c1)
  /\ nnn (instruction c1)
     = x (instruction c1) * 256 + y (instruction c1) * 16 + n (instruction c1)
  /\ kk (instruction c1) = y (instruction c1) * 16 + n (instruction c1)
  /\ 0 <= Z.shiftr (raw (instruction c1)) 12 < 16
  /\ 0 <= x (instruction c1) < 16
  /\ 0 <= y (instruction c1) < 16
  /\ 0 <= n (instruction c1) < 16.
Proof.
  intros Hwf Hf. pose proof Hf as Hf'. unfold nextInstruction in Hf'.
  apply bind_Ok in Hf' as (hi & Hhi & Hf'). apply bind_Ok in Hf' as (lo & Hlo & Hf').
  apply Ok_inj in Hf'. subst c1. cbn [instruction set_instruction programCounter
    set_programCounter].
  pose proof (wf_read_ram _ _ _ Hwf Hhi) as Bhi.
  pose proof (wf_read_ram _ _ _ Hwf Hlo) as Blo.
  apply read_ram_Ok in Hhi, Hlo.
  rewrite (lookupZ_get _ _ _ Hhi), (lookupZ_get _ _ _ Hlo).
  unfold byte in *. rewrite lor_shiftl_8 by lia.
  assert (Hw : u16 (hi * 256 + lo) = hi * 256 + lo)
    by (unfold u16; apply Z.mod_small; lia).
  rewrite Hw.
  destruct (decode_fields (hi * 256 + lo))
    as (H1 & H2 & H3 & H4 & H5 & H6 & H7); [lia|].
  change (raw (decode (hi * 256 + lo))) with (hi * 256 + lo).
  done.
Qed.

Lemma fetch_is_big_endian_witness :
  raw (instruction (fetched (after end_to_end_program 0))) = 0x60 * 256 + 0x05
  /\ programCounter (fetched (after end_to_end_program 0)) = 0x202
  /\ 0 <= n (instruction (fetched (after end_to_end_program 0))) < 16.
Proof.
  destruct (fetch_is_big_endian (after end_to_end_program 0)
              (fetched (after end_to_end_program 0)))
    as (H1 & H2 & _ & _ & _ & _ & _ & _ & H9).
  - by_computation.
  - evaluate.
  - split; [|split].
    + rewrite H1. evaluate.
    + rewrite H2. evaluate.
    + exact H9.
Defined.

(** ** Arithmetic on registers *)

Lemma wf_V_byte c i : wf c -> 0 <= getV c i < 256.
Proof. intros H. apply (wf_getV c i H). Qed.

Lemma getV_setV_eq i v c :
  (Z.to_nat i < length (V c))%nat -> getV (setV i v c) i = v.
Proof. intros Hi. unfold getV, setV. cbn. by apply get_put_eq. Qed.

Lemma getV_setV_ne i j v c :
  0 <= i -> 0 <= j -> i <> j -> getV (setV i v c) j = getV c j.
Proof. intros Hi Hj Hne. unfold getV, setV. cbn. by apply get_put_ne. Qed.

Lemma length_V_setV i v c : length (V (setV i v c)) = length (V c).
Proof. unfold setV. cbn. apply length_put. Qed.

(** What the fetch leaves alone. *)
Lemma fetch_frame c c1 :
  nextInstruction c = Ok c1 ->
  frameBuffer c1 = frameBuffer c /\ V c1 = V c /\ stack c1 = stack c
  /\ ram c1 = ram c /\ keypad c1 = keypad c
  /\ indexRegister c1 = indexRegister c /\ stackPointer c1 = stackPointer c
  /\ delayTimer c1 = delayTimer c /\ soundTimer c1 = soundTimer c
  /\ draw c1 = draw c /\ state c1 = state c.
Proof. intros Hf. destruct (nextInstruction_shape _ _ Hf) as [w ->]. done. Qed.

Lemma fetch_getV c c1 i : nextInstruction c = Ok c1 -> getV c1 i = getV c i.
Proof.
  intros Hf. destruct (fetch_frame _ _ Hf) as (_ & HV & _).
  unfold getV. by rewrite HV.
Qed.

Lemma fetch_length_V c c1 :
  wf c -> nextInstruction c = Ok c1 -> length (V c1) = 16%nat.
Proof.
  intros Hwf Hf. destruct (fetch_frame _ _ Hf) as (_ & -> & _).
  by apply wf_V_length.
Qed.

(** X2: for X other than 0xF, the add 0x8XY4 leaves the full 9-bit sum in
    the pair (V[0xF], V[X]): V[X] + 256 * V[0xF] is the sum of the two
    operands as they were, and V[0xF] is 0 or 1. *)
Theorem add_keeps_the_sum rnd st c c1 :
  wf c ->
  nextInstruction c = Ok c1 ->
  Z.shiftr (raw (instruction c1)) 12 = 0x8 ->
  n (instruction c1) = 0x4 ->
  x (instruction c1) <> 0xF ->
  exists c',
    emulateInstruction rnd st c = Ok (c', st)
    /\ getV c' (x (instruction c1)) + 256 * getV c' 0xF
       = getV c (x (instruction c1)) + getV c (y (instruction c1))
    /\ (getV c' 0xF = 0 \/ getV c' 0xF = 1).
Proof.
  intros Hwf Hf Hfam Hn Hx.
  rewrite (emulateInstruction_fetch _ _ _ _ Hf), (execute_alu _ _ _ Hfam).
  eexists; split; [reflexivity|].
  pose proof (fetch_length_V _ _ Hwf Hf) as HV.
  destruct (nextInstruction_fields _ _ Hf) as (_ & HX & HY & _).
  pose proof (wf_V_byte c (x (instruction c1)) Hwf) as Bx.
  pose proof (wf_V_byte c (y (instruction c1)) Hwf) as By.
  unfold op_alu. rewrite Hn. cbv beta iota zeta.
  rewrite getV_setV_eq by (rewrite length_V_setV; lia).
  rewrite getV_setV_ne by lia. rewrite getV_setV_eq by lia.
  rewrite !(fetch_getV _ _ _ Hf).
  set (a := getV c (x (instruction c1))) in *.
  set (b := getV c (y (instruction c1))) in *.
  unfold u8, of_bool. destruct (Z.gtb_spec (a + b) 255);
    split; try lia; Z.div_mod_to_equations; lia.
Qed.

Lemma add_keeps_the_sum_witness :
  exists c',
    emulateInstruction 0 statics0 (after add_carry_program 2)
      = Ok (c', statics0)
    /\ getV c' 0 + 256 * getV c' 0xF = 200 + 100.
Proof.
  destruct (add_keeps_the_sum 0 statics0 (after add_carry_program 2)
              (fetched (after add_carry_program 2))) as (c' & Hrun & Hsum & _).
  - by_computation.
  - evaluate.
  - evaluate.
  - evaluate.
  - evaluate_ne.
  - exists c'. split; [exact Hrun|].
    change (x (instruction (fetched (after add_carry_program 2)))) with 0 in Hsum.
    rewrite Hsum. evaluate.
Defined.

Ltac simpl_getV :=
  repeat first
    [ rewrite getV_setV_eq by (rewrite ?length_V_setV; lia)
    | rewrite getV_setV_ne by lia ].

Lemma land_1 a : Z.land a 1 = a mod 2.
Proof. change 1 with (Z.ones 1). by rewrite Z.land_ones. Qed.

(** X3: for X other than 0xF, the shifts lose no bit: after 0x8XY6,
    2 * V[X] + V[0xF] is the old V[X]; after 0x8XYE, V[X] + 256 * V[0xF]
    is twice the old V[X].  Register Y plays no part. *)
Theorem shifts_keep_the_bit rnd st c c1 :
  wf c ->
  nextInstruction c = Ok c1 ->
  Z.shiftr (raw (instruction c1)) 12 = 0x8 ->
  n (instruction c1) = 0x6 \/ n (instruction c1) = 0xE ->
  x (instruction c1) <> 0xF ->
  exists c',
    emulateInstruction rnd st c = Ok (c', st)
    /\ (getV c' 0xF = 0 \/ getV c' 0xF = 1)
    /\ (n (instruction c1) = 0x6 ->
        2 * getV c' (x (instruction c1)) + getV c' 0xF
        = getV c (x (instruction c1)))
    /\ (n (instruction c1) = 0xE ->
        getV c' (x (instruction c1)) + 256 * getV c' 0xF
        = 2 * getV c (x (instruction c1))).
Proof.
  intros Hwf Hf Hfam Hn Hx.
  rewrite (emulateInstruction_fetch _ _ _ _ Hf), (execute_alu _ _ _ Hfam).
  eexists; split; [reflexivity|].
  pose proof (fetch_length_V _ _ Hwf Hf) as HV.
  destruct (nextInstruction_fields _ _ Hf) as (_ & HX & _).
  pose proof (wf_V_byte c (x (instruction c1)) Hwf) as Bx.
  unfold op_alu.
  destruct Hn as [Hn|Hn]; rewrite Hn; cbv beta iota zeta;
    repeat first
      [ rewrite getV_setV_eq by (rewrite ?length_V_setV; lia)
      | rewrite getV_setV_ne by lia ];
    rewrite !(fetch_getV _ _ _ Hf);
    set (a := getV c (x (instruction c1))) in *.
  - rewrite !land_1, !Z.shiftr_div_pow2 by lia. change (2 ^ 1) with 2.
    split; [|split]; [| |discriminate]; intros; Z.div_mod_to_equations; lia.
  - rewrite !land_1, !Z.shiftr_div_pow2, !Z.shiftl_mul_pow2 by lia.
    change (2 ^ 1) with 2. change (2 ^ 7) with 128. unfold u8.
    split; [|split]; [|discriminate|]; intros; Z.div_mod_to_equations; lia.
Qed.

Lemma shifts_keep_the_bit_witness :
  (exists c',
     emulateInstruction 0 statics0 (after shift_right_program 1)
       = Ok (c', statics0)
     /\ 2 * getV c' 0 + getV c' 0xF = 0xB5)
  /\ (exists c',
        emulateInstruction 0 statics0 (after shift_left_program 1)
          = Ok (c', statics0)
        /\ getV c' 0 + 256 * getV c' 0xF = 2 * 0xB5).
Proof.
  split.
  - destruct (shifts_keep_the_bit 0 statics0 (after shift_right_program 1)
                (fetched (after shift_right_program 1)))
      as (c' & Hrun & _ & Hr & _).
    + by_computation.
    + evaluate.
    + evaluate.
    + left. evaluate.
    + evaluate_ne.
    + exists c'. split; [exact Hrun|].
      change (x (instruction (fetched (after shift_right_program 1)))) with 0 in Hr.
      rewrite Hr; evaluate.
  - destruct (shifts_keep_the_bit 0 statics0 (after shift_left_program 1)
                (fetched (after shift_left_program 1)))
      as (c' & Hrun & _ & _ & Hl).
    + by_computation.
    + evaluate.
    + evaluate.
    + right. evaluate.
    + evaluate_ne.
    + exists c'. split; [exact Hrun|].
      change (x (instruction (fetched (after shift_left_program 1)))) with 0 in Hl.
      rewrite Hl; evaluate.
Defined.

Lemma execute_random rnd st c :
  Z.shiftr (raw (instruction c)) 12 = 0xC ->
  execute rnd st c
  = Ok (setV (x (instruction c)) (Z.land (rnd mod 256) (kk (instruction c))) c,
        st).
Proof. intros H. unfold execute. rewrite H. reflexivity. Qed.

(** X4: whatever [rand()] returns, 0xCXKK leaves in V[X] a value whose set
    bits are all bits of KK: it lies between 0 and KK, and is 0 when KK
    is 0. *)
Theorem random_stays_under_the_mask rnd st c c1 :
  wf c ->
  nextInstruction c = Ok c1 ->
  Z.shiftr (raw (instruction c1)) 12 = 0xC ->
  exists c',
    emulateInstruction rnd st c = Ok (c', st)
    /\ Z.land (getV c' (x (instruction c1))) (kk (instruction c1))
       = getV c' (x (instruction c1))
    /\ 0 <= getV c' (x (instruction c1)) <= kk (instruction c1).
Proof.
  intros Hwf Hf Hfam.
  rewrite (emulateInstruction_fetch _ _ _ _ Hf), (execute_random _ _ _ Hfam).
  eexists; split; [reflexivity|].
  pose proof (fetch_length_V _ _ Hwf Hf) as HV.
  destruct (nextInstruction_fields _ _ Hf) as (_ & HX & _ & Hkk & _).
  rewrite getV_setV_eq by lia.
  set (r := rnd mod 256). set (m := kk (instruction c1)) in *.
  assert (Hr : 0 <= r) by (apply Z.mod_pos_bound; lia).
  split.
  - by rewrite <- Z.land_assoc, Z.land_diag.
  - apply Z.ldiff_le; [lia|]. apply Z.bits_inj'. intros k Hk.
    rewrite Z.ldiff_spec, Z.land_spec, Z.bits_0.
    by destruct (Z.testbit r k), (Z.testbit m k).
Qed.

Lemma random_stays_under_the_mask_witness :
  exists c',
    emulateInstruction 0xA7 statics0 (after random_program 0)
      = Ok (c', statics0)
    /\ 0 <= getV c' 0 <= 0x3C.
Proof.
  destruct (random_stays_under_the_mask 0xA7 statics0 (after random_program 0)
              (fetched (after random_program 0))) as (c' & Hrun & _ & Hle).
  - by_computation.
  - evaluate.
  - evaluate.
  - exists c'. split; [exact Hrun | exact Hle].
Defined.

(** ** Memory instructions *)

Lemma execute_misc rnd st c :
  Z.shiftr (raw (instruction c)) 12 = 0xF -> execute rnd st c = op_misc c st.
Proof. intros H. unfold execute. rewrite H. reflexivity. Qed.

Lemma get_put a i v j :
  0 <= i < Z.of_nat (length a) -> 0 <= j ->
  get (put a i v) j = if decide (j = i) then v else get a j.
Proof.
  intros Hi Hj. destruct (decide (j = i)) as [->|Hne].
  - apply get_put_eq. lia.
  - apply get_put_ne; lia.
Qed.

(** X5: 0xFX33 writes the hundreds, tens and ones digit of V[X] to
    ram[I], ram[I+1] and ram[I+2], so that 100 * ram[I] + 10 * ram[I+1] +
    ram[I+2] is V[X] again; it touches no other byte of ram, no register
    and not the index register. *)
Theorem bcd_writes_the_decimal_digits rnd st c c1 :
  wf c ->
  nextInstruction c = Ok c1 ->
  Z.shiftr (raw (instruction c1)) 12 = 0xF ->
  kk (instruction c1) = 0x33 ->
  indexRegister c + 2 < RAM_SIZE ->
  exists c',
    emulateInstruction rnd st c = Ok (c', st)
    /\ get (ram c') (indexRegister c) = getV c (x (instruction c1)) / 100
    /\ get (ram c') (indexRegister c + 1)
       = getV c (x (instruction c1)) / 10 mod 10
    /\ get (ram c') (indexRegister c + 2) = getV c (x (instruction c1)) mod 10
    /\ 100 * get (ram c') (indexRegister c)
       + 10 * get (ram c') (indexRegister c + 1)
       + get (ram c') (indexRegister c + 2) = getV c (x (instruction c1))
    /\ (forall a, 0 <= a ->
          a < indexRegister c \/ indexRegister c + 2 < a ->
          get (ram c') a = get (ram c) a)
    /\ V c' = V c /\ indexRegister c' = indexRegister c.
Proof.
  intros Hwf Hf Hfam Hkk Hrange.
  rewrite (emulateInstruction_fetch _ _ _ _ Hf), (execute_misc _ _ _ Hfam).
  unfold op_misc. rewrite Hkk. cbv beta iota zeta.
  pose proof (wf_ram_length c Hwf) as Hlen.
  pose proof (wf_indexRegister c Hwf) as HI.
  pose proof (wf_V_byte c (x (instruction c1)) Hwf) as Bx.
  destruct (fetch_frame _ _ Hf) as (_ & HV & _ & Hram & _ & Hidx & _).
  unfold word16, RAM_SIZE in *.
  unfold op_bcd. rewrite (fetch_getV _ _ _ Hf).
  set (v := getV c (x (instruction c1))) in *.
  rewrite write_ram_in_range by (rewrite Hram, Hidx; lia).
  cbn [mbind result_bind indexRegister set_ram].
  rewrite write_ram_in_range by (cbn; rewrite length_put, Hram, Hidx; lia).
  cbn [mbind result_bind indexRegister set_ram].
  rewrite write_ram_in_range by (cbn; rewrite !length_put, Hram, Hidx; lia).
  cbn [mbind result_bind]. eexists; split; [reflexivity|].
  cbn [ram set_ram V indexRegister]. rewrite Hram, Hidx, HV.
  assert (E1 : u8 (v / 10) = v / 10)
    by (unfold u8; apply Z.mod_small; Z.div_mod_to_equations; lia).
  rewrite !E1.
  assert (E2 : u8 (v / 10 / 10) = v / 100).
  { rewrite Z.div_div by lia. unfold u8. apply Z.mod_small.
    Z.div_mod_to_equations; lia. }
  rewrite E2.
  assert (G : forall a, 0 <= a ->
            get (put (put (put (ram c) (indexRegister c + 2) (v mod 10))
                   (indexRegister c + 1) (v / 10 mod 10))
                   (indexRegister c) (v / 100)) a
            = if decide (a = indexRegister c) then v / 100
              else if decide (a = indexRegister c + 1) then v / 10 mod 10
              else if decide (a = indexRegister c + 2) then v mod 10
              else get (ram c) a).
  { intros a Ha. rewrite !get_put by (rewrite ?length_put; lia).
    repeat case_decide; try lia; reflexivity. }
  rewrite !G by lia.
  repeat case_decide; try lia.
  split; [done|]. split; [done|]. split; [done|].
  split; [Z.div_mod_to_equations; lia|].
  split; [|done]. intros a Ha Hout. rewrite G by done.
  repeat case_decide; try lia; reflexivity.
Qed.

Lemma store_registers_spec k i c :
  0 <= indexRegister c -> 0 <= i -> i + Z.of_nat k < 256 ->
  indexRegister c + i + Z.of_nat k <= Z.of_nat (length (ram c)) ->
  exists c',
    store_registers k i c = Ok c'
    /\ c' = set_ram (ram c') c
    /\ length (ram c') = length (ram c)
    /\ forall a, 0 <= a ->
         get (ram c') a
         = if decide (indexRegister c + i <= a
                      < indexRegister c + i + Z.of_nat k)
           then getV c (a - indexRegister c) else get (ram c) a.
Proof.
  revert i c. induction k as [|k IH]; intros i c HI Hi Hk Hr.
  - exists c. split; [done|]. split; [by destruct c|]. split; [done|].
    intros a Ha. case_decide; [lia | done].
  - cbn [store_registers]. rewrite write_ram_in_range by lia.
    cbn [mbind result_bind].
    set (c1 := set_ram (put (ram c) (indexRegister c + i) (getV c i)) c).
    assert (E : u8 (i + 1) = i + 1) by (unfold u8; apply Z.mod_small; lia).
    rewrite E.
    destruct (IH (i + 1) c1) as (c' & Hrun & Hshape & Hlen & Hget).
    { subst c1. cbn. lia. }
    { lia. }
    { lia. }
    { subst c1. cbn. rewrite length_put. lia. }
    exists c'. split; [exact Hrun|]. split.
    { rewrite Hshape. subst c1. reflexivity. }
    split.
    { rewrite Hlen. subst c1. cbn. apply length_put. }
    intros a Ha. rewrite Hget by done. subst c1.
    cbn [indexRegister set_ram ram].
    change (getV (set_ram (put (ram c) (indexRegister c + i) (getV c i)) c))
      with (getV c).
    rewrite get_put by lia.
    repeat case_decide; try lia; try reflexivity.
    f_equal. lia.
Qed.

Lemma load_registers_spec k i c :
  0 <= indexRegister c -> 0 <= i -> i + Z.of_nat k < 256 ->
  i + Z.of_nat k <= Z.of_nat (length (V c)) ->
  indexRegister c + i + Z.of_nat k <= Z.of_nat (length (ram c)) ->
  exists c',
    load_registers k i c = Ok c'
    /\ c' = set_V (V c') c
    /\ length (V c') = length (V c)
    /\ forall j, 0 <= j ->
         getV c' j
         = if decide (i <= j < i + Z.of_nat k)
           then get (ram c) (indexRegister c + j) else getV c j.
Proof.
  revert i c. induction k as [|k IH]; intros i c HI Hi Hk HV Hr.
  - exists c. split; [done|]. split; [by destruct c|]. split; [done|].
    intros j Hj. case_decide; [lia | done].
  - cbn [load_registers].
    destruct (read_ram_in_range c (indexRegister c + i)) as [b Hb]; [lia|].
    rewrite Hb. cbn [mbind result_bind].
    assert (Eb : get (ram c) (indexRegister c + i) = b).
    { apply lookupZ_get. by apply read_ram_Ok. }
    assert (E : u8 (i + 1) = i + 1) by (unfold u8; apply Z.mod_small; lia).
    rewrite E.
    destruct (IH (i + 1) (setV i b c)) as (c' & Hrun & Hshape & Hlen & Hget).
    { cbn. lia. }
    { lia. }
    { lia. }
    { rewrite length_V_setV. lia. }
    { cbn. lia. }
    exists c'. split; [exact Hrun|]. split.
    { rewrite Hshape. reflexivity. }
    split.
    { rewrite Hlen. apply length_V_setV. }
    intros j Hj. rewrite Hget by done.
    change (indexRegister (setV i b c)) with (indexRegister c).
    change (ram (setV i b c)) with (ram c).
    destruct (decide (j = i)) as [->|Hne].
    + rewrite getV_setV_eq by lia. repeat case_decide; try lia; done.
    + rewrite getV_setV_ne by lia. repeat case_decide; try lia; done.
Qed.

(** X6: 0xFX55 copies V[0] to V[X] into ram[I] to ram[I+X] in this order,
    and touches no other byte of ram, no register and not the index
    register. *)
Theorem store_copies_registers_to_ram rnd st c c1 :
  wf c ->
  nextInstruction c = Ok c1 ->
  Z.shiftr (raw (instruction c1)) 12 = 0xF ->
  kk (instruction c1) = 0x55 ->
  indexRegister c + x (instruction c1) < RAM_SIZE ->
  exists c',
    emulateInstruction rnd st c = Ok (c', st)
    /\ (forall j, 0 <= j <= x (instruction c1) ->
          get (ram c') (indexRegister c + j) = getV c j)
    /\ (forall a, 0 <= a ->
          a < indexRegister c \/ indexRegister c + x (instruction c1) < a ->
          get (ram c') a = get (ram c) a)
    /\ V c' = V c /\ indexRegister c' = indexRegister c.
Proof.
  intros Hwf Hf Hfam Hkk Hrange.
  rewrite (emulateInstruction_fetch _ _ _ _ Hf), (execute_misc _ _ _ Hfam).
  unfold op_misc. rewrite Hkk. cbv beta iota zeta.
  pose proof (wf_ram_length c Hwf) as Hlen.
  pose proof (wf_indexRegister c Hwf) as HI.
  destruct (nextInstruction_fields _ _ Hf) as (_ & HX & _).
  destruct (fetch_frame _ _ Hf) as (_ & HV & _ & Hram & _ & Hidx & _).
  unfold word16, RAM_SIZE in *.
  destruct (store_registers_spec (Z.to_nat (x (instruction c1) + 1)) 0 c1)
    as (c' & Hrun & Hshape & _ & Hget); [rewrite ?Hram, ?Hidx; lia..|].
  rewrite Hrun. cbn [mbind result_bind]. eexists; split; [reflexivity|].
  rewrite Hidx, Hram in Hget.
  split; [|split].
  - intros j Hj. rewrite Hget by lia. case_decide; [|lia].
    rewrite (fetch_getV _ _ _ Hf). f_equal. lia.
  - intros a Ha Hout. rewrite Hget by lia. case_decide; [lia | done].
  - rewrite Hshape. cbn. done.
Qed.

Lemma store_copies_registers_to_ram_witness :
  exists c',
    emulateInstruction 0 statics0 (after store_program 4) = Ok (c', statics0)
    /\ get (ram c') 0x300 = 0x11 /\ get (ram c') 0x301 = 0x22
    /\ get (ram c') 0x302 = 0.
Proof.
  destruct (store_copies_registers_to_ram 0 statics0 (after store_program 4)
              (fetched (after store_program 4)))
    as (c' & Hrun & Hin & Hout & _).
  - by_computation.
  - evaluate.
  - evaluate.
  - evaluate.
  - evaluate.
  - exists c'. split; [exact Hrun|].
    change (indexRegister (after store_program 4)) with 0x300 in Hin, Hout.
    change (x (instruction (fetched (after store_program 4)))) with 1 in Hin, Hout.
    refine (conj _ (conj _ _)).
    + etransitivity; [exact (Hin 0 ltac:(lia)) | evaluate].
    + etransitivity; [exact (Hin 1 ltac:(lia)) | evaluate].
    + etransitivity; [exact (Hout 0x302 ltac:(lia) ltac:(lia)) | evaluate].
Defined.

(** X7: 0xFX65 copies ram[I] to ram[I+X] into V[0] to V[X], and touches
    no register above X, no byte of ram and not the index register. *)
Theorem load_copies_ram_to_registers rnd st c c1 :
  wf c ->
  nextInstruction c = Ok c1 ->
  Z.shiftr (raw (instruction c1)) 12 = 0xF ->
  kk (instruction c1) = 0x65 ->
  indexRegister c + x (instruction c1) < RAM_SIZE ->
  exists c',
    emulateInstruction rnd st c = Ok (c', st)
    /\ (forall j, 0 <= j <= x (instruction c1) ->
          getV c' j = get (ram c) (indexRegister c + j))
    /\ (forall j, x (instruction c1) < j -> getV c' j = getV c j)
    /\ ram c' = ram c /\ indexRegister c' = indexRegister c.
Proof.
  intros Hwf Hf Hfam Hkk Hrange.
  rewrite (emulateInstruction_fetch _ _ _ _ Hf), (execute_misc _ _ _ Hfam).
  unfold op_misc. rewrite Hkk. cbv beta iota zeta.
  pose proof (wf_ram_length c Hwf) as Hlen.
  pose proof (wf_indexRegister c Hwf) as HI.
  pose proof (fetch_length_V _ _ Hwf Hf) as HVlen.
  destruct (nextInstruction_fields _ _ Hf) as (_ & HX & _).
  destruct (fetch_frame _ _ Hf) as (_ & HV & _ & Hram & _ & Hidx & _).
  unfold word16, RAM_SIZE in *.
  destruct (load_registers_spec (Z.to_nat (x (instruction c1) + 1)) 0 c1)
    as (c' & Hrun & Hshape & _ & Hget); [rewrite ?Hram, ?Hidx; lia..|].
  rewrite Hrun. cbn [mbind result_bind]. eexists; split; [reflexivity|].
  rewrite Hidx, Hram in Hget.
  split; [|split].
  - intros j Hj. rewrite Hget by lia. case_decide; [done | lia].
  - intros j Hj. rewrite Hget by lia. case_decide; [lia|].
    apply (fetch_getV _ _ _ Hf).
  - rewrite Hshape. cbn. done.
Qed.

Lemma load_copies_ram_to_registers_witness :
  exists c',
    emulateInstruction 0 statics0 (after load_program 2) = Ok (c', statics0)
    /\ getV c' 0 = 0x62 /\ getV c' 1 = 0x77 /\ getV c' 2 = 0x77.
Proof.
  destruct (load_copies_ram_to_registers 0 statics0 (after load_program 2)
              (fetched (after load_program 2)))
    as (c' & Hrun & Hin & Hout & _).
  - by_computation.
  - evaluate.
  - evaluate.
  - evaluate.
  - evaluate.
  - exists c'. split; [exact Hrun|].
    change (indexRegister (after load_program 2)) with 0x200 in Hin.
    change (x (instruction (fetched (after load_program 2)))) with 1 in Hin, Hout.
    refine (conj _ (conj _ _)).
    + etransitivity; [exact (Hin 0 ltac:(lia)) | evaluate].
    + etransitivity; [exact (Hin 1 ltac:(lia)) | evaluate].
    + etransitivity; [exact (Hout 2 ltac:(lia)) | evaluate].
Defined.

Lemma bcd_writes_the_decimal_digits_witness :
  exists c',
    emulateInstruction 0 statics0 (after bcd_program 2) = Ok (c', statics0)
    /\ get (ram c') 0x300 = 2 /\ get (ram c') 0x301 = 5
    /\ get (ram c') 0x302 = 5.
Proof.
  destruct (bcd_writes_the_decimal_digits 0 statics0 (after bcd_program 2)
              (fetched (after bcd_program 2)))
    as (c' & Hrun & H100 & H10 & H1 & _).
  - by_computation.
  - evaluate.
  - evaluate.
  - evaluate.
  - evaluate.
  - exists c'. split; [exact Hrun|]. refine (conj _ (conj _ _)).
    + etransitivity; [exact H100 | evaluate].
    + etransitivity; [exact H10 | evaluate].
    + etransitivity; [exact H1 | evaluate].
Defined.

(** ** Call and return *)

Lemma execute_return rnd st c :
  Z.shiftr (raw (instruction c)) 12 = 0x0 ->
  kk (instruction c) = 0xEE ->
  execute rnd st c = c1 ← op_return c; Ok (c1, st).
Proof. intros H Hkk. unfold execute. rewrite H, Hkk. reflexivity. Qed.

(** X8: a return undoes a call.  When 0x2NNN has run on [c] and, later,
    0x00EE runs on a machine whose stack and stack pointer are as the call
    left them, the program counter comes back to the instruction after
    the call and the stack pointer to where it was before the call. *)
Theorem return_resumes_after_the_call rnd rnd' st c c1 c' d d1 :
  wf c ->
  nextInstruction c = Ok c1 ->
  Z.shiftr (raw (instruction c1)) 12 = 0x2 ->
  emulateInstruction rnd st c = Ok (c', st) ->
  nextInstruction d = Ok d1 ->
  Z.shiftr (raw (instruction d1)) 12 = 0x0 ->
  kk (instruction d1) = 0xEE ->
  stack d = stack c' ->
  stackPointer d = stackPointer c' ->
  exists d',
    emulateInstruction rnd' st d = Ok (d', st)
    /\ programCounter d' = (programCounter c + 2) mod 65536
    /\ stackPointer d' = stackPointer c.
Proof.
  intros Hwf Hf Hfam Hrun Hfd Hfamd Hkkd Hstack Hsp.
  rewrite (emulateInstruction_fetch _ _ _ _ Hf), (execute_call _ _ _ Hfam) in Hrun.
  apply bind_Ok in Hrun as (c2 & Hcall & Hrun). apply Ok_inj in Hrun.
  injection Hrun as ->.
  unfold op_call, write_stack in Hcall.
  destruct (lookupZ (stack c1) (stackPointer c1)) as [old|] eqn:Hslot; [|done].
  cbn in Hcall. apply Ok_inj in Hcall. subst c'. cbn in Hstack, Hsp.
  pose proof (lookupZ_Some_range _ _ _ Hslot) as Hr.
  rewrite (emulateInstruction_fetch _ _ _ _ Hfd),
    (execute_return _ _ _ Hfamd Hkkd).
  destruct (fetch_frame _ _ Hfd) as (_ & _ & Hsd & _ & _ & _ & Hspd & _).
  destruct (fetch_frame _ _ Hf) as (_ & _ & _ & _ & _ & _ & Hspc & _).
  unfold op_return, read_stack. rewrite Hsd, Hspd, Hstack, Hsp.
  replace (stackPointer c1 + 1 - 1) with (stackPointer c1) by lia.
  destruct (lookupZ_in_range (put (stack c1) (stackPointer c1) (programCounter c1))
              (stackPointer c1)) as [v Hv]; [rewrite length_put; lia|].
  rewrite Hv. cbn. eexists; split; [reflexivity|]. cbn.
  apply lookupZ_get in Hv. rewrite get_put_eq in Hv by lia. subst v.
  split; [|done].
  destruct (nextInstruction_shape _ _ Hf) as [w ->]. reflexivity.
Qed.

Lemma return_resumes_after_the_call_witness :
  exists d',
    emulateInstruction 0 statics0 (after call_return_program 1)
      = Ok (d', statics0)
    /\ programCounter d' = 0x202
    /\ stackPointer d' = 0.
Proof.
  apply (return_resumes_after_the_call 0 0 statics0
           (after call_return_program 0)
           (fetched (after call_return_program 0))
           (after call_return_program 1)
           (after call_return_program 1)
           (fetched (after call_return_program 1))).
  - by_computation.
  - evaluate.
  - evaluate.
  - evaluate.
  - evaluate.
  - evaluate.
  - evaluate.
  - reflexivity.
  - reflexivity.
Defined.

(** X9: a return with nothing on the stack is not caught: the code moves
    the stack pointer below the array and reads there, which is undefined
    behaviour; no run state changes to report it. *)
Theorem return_on_empty_stack_is_undefined rnd st c c1 :
  wf c ->
  nextInstruction c = Ok c1 ->
  Z.shiftr (raw (instruction c1)) 12 = 0x0 ->
  kk (instruction c1) = 0xEE ->
  stackPointer c = 0 ->
  emulateInstruction rnd st c = Undefined (StackOutOfBounds (-1)).
Proof.
  intros Hwf Hf Hfam Hkk Hsp.
  rewrite (emulateInstruction_fetch _ _ _ _ Hf), (execute_return _ _ _ Hfam Hkk).
  destruct (fetch_frame _ _ Hf) as (_ & _ & _ & _ & _ & _ & Hspc & _).
  unfold op_return, read_stack. rewrite Hspc, Hsp.
  rewrite lookupZ_out_of_range by lia. reflexivity.
Qed.

Lemma return_on_empty_stack_is_undefined_witness :
  run return_program 1 = Undefined (StackOutOfBounds (-1)).
Proof.
  transitivity (emulateInstruction 0 statics0 (after return_program 0)).
  - evaluate.
  - apply (return_on_empty_stack_is_undefined 0 statics0
             (after return_program 0) (fetched (after return_program 0))).
    + by_computation.
    + evaluate.
    + evaluate.
    + evaluate.
    + evaluate.
Defined.

(** ** What the interpreter leaves alone *)

Lemma keeps_host_side_Ok c c' st :
  host_side c' = host_side c -> keeps_host_side c (Ok (c', st)).
Proof. intros H d st' [= <- _]. exact H. Qed.

Lemma keeps_host_side_then c (r : result Chip8) st :
  (forall c', r = Ok c' -> host_side c' = host_side c) ->
  keeps_host_side c (c' ← r; Ok (c', st)).
Proof.
  intros H d st' Hr. apply bind_Ok in Hr as (c' & Hc & [= <- _]). by apply H.
Qed.

Lemma host_side_op_alu c : host_side (op_alu c) = host_side c.
Proof.
  unfold op_alu. destruct (n (instruction c)) as [|p|p]; try done.
  split_switch; done.
Qed.

Lemma host_side_op_return c c' : op_return c = Ok c' -> host_side c' = host_side c.
Proof.
  unfold op_return. intros H. apply bind_Ok in H as (a & _ & H).
  apply Ok_inj in H. by subst.
Qed.

Lemma host_side_op_call c c' : op_call c = Ok c' -> host_side c' = host_side c.
Proof.
  unfold op_call, write_stack. destruct (lookupZ _ _); [|done].
  cbn. intros H. apply Ok_inj in H. by subst.
Qed.

Lemma host_side_op_draw c c' : op_draw c = Ok c' -> host_side c' = host_side c.
Proof.
  unfold op_draw. intros H. apply bind_Ok in H as (c2 & Hrows & H).
  apply Ok_inj in H. subst c'. apply draw_rows_frame in Hrows.
  rewrite Hrows. reflexivity.
Qed.

Lemma host_side_write_ram a v c c' :
  write_ram a v c = Ok c' -> host_side c' = host_side c.
Proof.
  unfold write_ram. destruct (lookupZ _ _); [|done].
  intros H. apply Ok_inj in H. by subst.
Qed.

Lemma host_side_op_bcd c c' : op_bcd c = Ok c' -> host_side c' = host_side c.
Proof.
  unfold op_bcd. intros H.
  apply bind_Ok in H as (c1 & H1 & H). apply bind_Ok in H as (c2 & H2 & H).
  apply host_side_write_ram in H1, H2, H. congruence.
Qed.

Lemma host_side_store_registers k i c c' :
  store_registers k i c = Ok c' -> host_side c' = host_side c.
Proof.
  revert i c. induction k as [|k IH]; intros i c H.
  - apply Ok_inj in H. by subst.
  - cbn [store_registers] in H. apply bind_Ok in H as (c1 & H1 & H).
    apply host_side_write_ram in H1. apply IH in H. congruence.
Qed.

Lemma host_side_load_registers k i c c' :
  load_registers k i c = Ok c' -> host_side c' = host_side c.
Proof.
  revert i c. induction k as [|k IH]; intros i c H.
  - apply Ok_inj in H. by subst.
  - cbn [load_registers] in H. apply bind_Ok in H as (b & _ & H).
    apply IH in H. exact H.
Qed.

Lemma host_side_op_wait_key c st :
  keeps_host_side c (op_wait_key c st).
Proof.
  unfold op_wait_key. intros c' st' H.
  apply bind_Ok in H as (st1 & _ & H). destruct (negb _).
  { apply Ok_inj in H. by injection H as <- _. }
  apply bind_Ok in H as (b & _ & H).
  destruct (negb _); apply Ok_inj in H; by injection H as <- _.
Qed.

Lemma host_side_op_misc c st : keeps_host_side c (op_misc c st).
Proof.
  unfold op_misc.
  destruct (kk (instruction c)) as [|p|p]; try by apply keeps_host_side_Ok.
  split_switch;
    first
      [ by apply keeps_host_side_Ok
      | apply host_side_op_wait_key
      | apply keeps_host_side_then; intros c'; first
          [ apply host_side_op_bcd | apply host_side_store_registers
          | apply host_side_load_registers ] ].
Qed.

Lemma host_side_keypad_skip c st (f : Z -> Chip8) k :
  (forall b, host_side (f b) = host_side c) ->
  keeps_host_side c (b ← read_keypad c k; Ok (f b, st)).
Proof.
  intros H c' st' Hr. apply bind_Ok in Hr as (b & _ & [= <- _]). apply H.
Qed.

Lemma host_side_execute rnd st c : keeps_host_side c (execute rnd st c).
Proof.
  unfold execute. cbv zeta.
  assert (Hfwd : forall b : bool,
            host_side (if b then pc_forward c else c) = host_side c)
    by (by intros []).
  destruct (Z.shiftr (raw (instruction c)) 12) as [|p|p];
    [| split_switch | by apply keeps_host_side_Ok];
    first
      [ by apply keeps_host_side_Ok
      | apply host_side_op_misc
      | apply keeps_host_side_Ok, host_side_op_alu
      | apply keeps_host_side_Ok, Hfwd
      | apply keeps_host_side_then; intros c'; first
          [ apply host_side_op_call | apply host_side_op_draw ]
      | idtac ].
  - destruct (_ =? _); [by apply keeps_host_side_Ok|].
    destruct (_ =? _); [|by apply keeps_host_side_Ok].
    apply keeps_host_side_then. intros c'. apply host_side_op_return.
  - destruct (kk (instruction c)) as [|p|p]; try by apply keeps_host_side_Ok.
    split_switch;
      first
        [ by apply keeps_host_side_Ok
        | apply (host_side_keypad_skip c st
                   (fun b => if truthy b then pc_forward c else c));
          intros b; apply Hfwd
        | apply (host_side_keypad_skip c st
                   (fun b => if negb (truthy b) then pc_forward c else c));
          intros b; apply Hfwd ].
Qed.

Lemma host_side_emulateInstruction rnd st c c' st' :
  emulateInstruction rnd st c = Ok (c', st') -> host_side c' = host_side c.
Proof.
  unfold emulateInstruction. intros H. apply bind_Ok in H as (c1 & Hf & H).
  apply host_side_execute in H. rewrite H.
  destruct (fetch_frame _ _ Hf) as (_ & _ & _ & _ & Hk & _ & _ & _ & _ & _ & Hs).
  unfold host_side. by rewrite Hk, Hs.
Qed.

(** X10: no instruction writes the keypad or the run state: after any
    number of cycles both are what they were, so a run never pauses or
    quits by itself and never fakes a key. *)
Theorem interpreter_leaves_keypad_and_state rnds st c c' st' :
  emulateCycles rnds st c = Ok (c', st') ->
  keypad c' = keypad c /\ state c' = state c.
Proof.
  revert st c. induction rnds as [|rnd rnds IH]; intros st c H.
  - cbn in H. by injection H as <- _.
  - cbn [emulateCycles] in H. apply bind_Ok in H as ([c1 st1] & H1 & H).
    apply host_side_emulateInstruction in H1. apply IH in H.
    unfold host_side in H1. injection H1 as Hk Hs. rewrite <- Hk, <- Hs. exact H.
Qed.

Lemma interpreter_leaves_keypad_and_state_witness :
  keypad (after draw_twice_program 3) = keypad (after draw_twice_program 0)
  /\ state (after draw_twice_program 3) = RUNNING.
Proof.
  destruct (interpreter_leaves_keypad_and_state [0; 0; 0] statics0
              (after draw_twice_program 0) (after draw_twice_program 3)
              statics0) as [Hk Hs].
  - evaluate.
  - split; [exact Hk | rewrite Hs; evaluate].
Defined.

(** ** Instructions without a case *)

(** X11: an opcode the switches have no case for is skipped in silence:
    the cycle is defined and changes nothing but the program counter and
    the decoded instruction (the [default] branch that would print a
    message cannot be reached, as raw >> 12 is always one of 0x0 to 0xF). *)
Theorem instruction_without_case_is_skipped rnd st c c1 :
  nextInstruction c = Ok c1 ->
  has_case (instruction c1) = false ->
  emulateInstruction rnd st c = Ok (c1, st).
Proof.
  intros Hf Hcase.
  rewrite (emulateInstruction_fetch _ _ _ _ Hf).
  unfold has_case in Hcase. unfold execute. cbv zeta.
  destruct (Z.shiftr (raw (instruction c1)) 12) as [|p|p]; [| |done].
  - destruct (kk (instruction c1) =? 0xE0); [done|].
    destruct (kk (instruction c1) =? 0xEE); done.
  - do 4 (try destruct p as [p|p|]); try done.
    + unfold op_misc.
      destruct (kk (instruction c1)) as [|q|q]; [done| |done].
      do 8 (try destruct q as [q|q|]); done.
    + destruct (kk (instruction c1)) as [|q|q]; [done| |done].
      do 8 (try destruct q as [q|q|]); done.
    + unfold op_alu.
      destruct (n (instruction c1)) as [|q|q]; [done| |done].
      do 4 (try destruct q as [q|q|]); done.
Qed.

Lemma instruction_without_case_is_skipped_witness :
  run unknown_program 1
  = Ok (fetched (after unknown_program 0), statics0).
Proof.
  transitivity (emulateInstruction 0 statics0 (after unknown_program 0)).
  - evaluate.
  - apply (instruction_without_case_is_skipped 0 statics0
             (after unknown_program 0) (fetched (after unknown_program 0))).
    + evaluate.
    + evaluate.
Defined.

(** ** Sprite drawing, edges *)

(** X12: a draw of no rows, 0xDXY0, reads no byte of ram, whatever the
    index register holds, and leaves the frame buffer as it was; it still
    clears V[0xF] and sets the draw flag. *)
Theorem draw_of_no_rows rnd st c c1 :
  wf c ->
  nextInstruction c = Ok c1 ->
  Z.shiftr (raw (instruction c1)) 12 = 0xD ->
  n (instruction c1) = 0 ->
  exists c',
    emulateInstruction rnd st c = Ok (c', st)
    /\ frameBuffer c' = frameBuffer c
    /\ getV c' 0xF = 0
    /\ draw c' = 1.
Proof.
  intros Hwf Hf Hfam Hn.
  rewrite (emulateInstruction_fetch _ _ _ _ Hf), (execute_draw _ _ _ Hfam).
  unfold op_draw. rewrite Hn. cbn.
  eexists; split; [reflexivity|]. cbn.
  destruct (fetch_frame _ _ Hf) as (Hfb & _).
  split; [done|]. split; [|done].
  change (getV (set_draw 1 (setV 15 0 c1)) 15) with (getV (setV 15 0 c1) 15).
  apply getV_setV_eq. rewrite (fetch_length_V _ _ Hwf Hf). lia.
Qed.

Lemma draw_of_no_rows_witness :
  exists c',
    emulateInstruction 0 statics0 (after draw_nothing_program 0)
      = Ok (c', statics0)
    /\ frameBuffer c' = frameBuffer (after draw_nothing_program 0)
    /\ getV c' 0xF = 0
    /\ draw c' = 1.
Proof.
  apply (draw_of_no_rows 0 statics0 (after draw_nothing_program 0)
           (fetched (after draw_nothing_program 0))).
  - by_computation.
  - evaluate.
  - evaluate.
  - evaluate.
Defined.

(** X13: a sprite is clipped at the right and bottom edges, it does not
    wrap around: a draw with origin (V[X] mod 64, V[Y] mod 32) changes no
    cell left of the origin's column and no cell above the origin's row. *)
Theorem draw_does_not_wrap rnd st c c1 c' px py :
  wf c ->
  nextInstruction c = Ok c1 ->
  Z.shiftr (raw (instruction c1)) 12 = 0xD ->
  emulateInstruction rnd st c = Ok (c', st) ->
  0 <= px < WINDOW_WIDTH -> 0 <= py < WINDOW_HEIGHT ->
  px < getV c (x (instruction c1)) mod WINDOW_WIDTH
  \/ py < getV c (y (instruction c1)) mod WINDOW_HEIGHT ->
  get (frameBuffer c') (py * WINDOW_WIDTH + px)
  = get (frameBuffer c) (py * WINDOW_WIDTH + px).
Proof.
  intros Hwf Hf Hfam Hrun Hpx Hpy Hout.
  rewrite (emulateInstruction_fetch _ _ _ _ Hf), (execute_draw _ _ _ Hfam) in Hrun.
  apply bind_Ok in Hrun as (c2 & Hdraw & Hrun). apply Ok_inj in Hrun.
  injection Hrun as ->.
  destruct (fetch_frame _ _ Hf) as (Hfb & _).
  unfold get. rewrite !list_lookup_total_alt. f_equal. rewrite <- Hfb.
  pose proof (wf_V_byte c (x (instruction c1)) Hwf) as Bx.
  pose proof (wf_V_byte c (y (instruction c1)) Hwf) as By.
  rewrite <- !(fetch_getV _ _ _ Hf) in *.
  apply (op_draw_clips c1 c' _ Hdraw); [done..|].
  unfold WINDOW_WIDTH, WINDOW_HEIGHT in *.
  rewrite Z2Nat.id by lia.
  pose proof (Z.mod_pos_bound (getV c1 (y (instruction c1))) 32 ltac:(lia)).
  destruct Hout as [Hl|Ha].
  - right. replace ((py * 64 + px) mod 64) with px; [done|].
    rewrite Z.add_comm, Z.mod_add by lia. symmetry. apply Z.mod_small. lia.
  - left. nia.
Qed.

Lemma draw_does_not_wrap_witness :
  get (frameBuffer (after corner_program 4)) (31 * WINDOW_WIDTH + 0)
  = get (frameBuffer (after corner_program 3)) (31 * WINDOW_WIDTH + 0)
  /\ get (frameBuffer (after corner_program 4)) (0 * WINDOW_WIDTH + 62)
     = get (frameBuffer (after corner_program 3)) (0 * WINDOW_WIDTH + 62)
  /\ pixel_on (after corner_program 4) (31 * WINDOW_WIDTH + 62) = true.
Proof.
  refine (conj _ (conj _ _)).
  - apply (draw_does_not_wrap 0 statics0 (after corner_program 3)
             (fetched (after corner_program 3)) (after corner_program 4) 0 31).
    + by_computation.
    + evaluate.
    + evaluate.
    + evaluate.
    + unfold WINDOW_WIDTH; lia.
    + unfold WINDOW_HEIGHT; lia.
    + left. evaluate.
  - apply (draw_does_not_wrap 0 statics0 (after corner_program 3)
             (fetched (after corner_program 3)) (after corner_program 4) 62 0).
    + by_computation.
    + evaluate.
    + evaluate.
    + evaluate.
    + unfold WINDOW_WIDTH; lia.
    + unfold WINDOW_HEIGHT; lia.
    + right. evaluate.
  - evaluate.
Defined.

(** ** Waiting for a key *)

Lemma wf_keypad_length c : wf c -> length (keypad c) = 16%nat.
Proof. intros H. apply H. Qed.

Lemma read_keypad_get c k :
  0 <= k < Z.of_nat (length (keypad c)) ->
  read_keypad c k = Ok (get (keypad c) k).
Proof.
  intros Hk. unfold read_keypad.
  destruct (lookupZ_in_range _ _ Hk) as [b Hb]. rewrite Hb.
  by rewrite (lookupZ_get _ _ _ Hb).
Qed.

Lemma scan_keypad_none k i c st :
  key st = 0xFF -> 0 <= i ->
  i + Z.of_nat k <= Z.of_nat (length (keypad c)) ->
  (forall j, i <= j < i + Z.of_nat k -> get (keypad c) j = 0) ->
  scan_keypad k i c st = Ok st.
Proof.
  intros Hkey. revert i. induction k as [|k IH]; intros i Hi Hlen Hup; [done|].
  cbn [scan_keypad]. rewrite Hkey. cbn.
  rewrite read_keypad_get by lia. rewrite Hup by lia. cbn.
  apply IH; [lia | lia |]. intros j Hj. apply Hup. lia.
Qed.

Lemma scan_keypad_first k i c st m :
  key st = 0xFF -> 0 <= i -> i <= m < i + Z.of_nat k ->
  i + Z.of_nat k <= Z.of_nat (length (keypad c)) ->
  (forall j, i <= j < m -> get (keypad c) j = 0) ->
  get (keypad c) m <> 0 ->
  scan_keypad k i c st = Ok {| keyPressed := CHIP8_KEY_DOWN; key := u16 m |}.
Proof.
  intros Hkey. revert i. induction k as [|k IH]; intros i Hi Hm Hlen Hup Hdown.
  - lia.
  - cbn [scan_keypad]. rewrite Hkey. cbn.
    rewrite read_keypad_get by lia. cbn.
    destruct (decide (i = m)) as [->|Hne].
    + unfold truthy. destruct (Z.eqb_spec (get (keypad c) m) 0); [done|].
      reflexivity.
    + rewrite Hup by lia. cbn.
      apply IH; [lia | lia | lia | | done]. intros j Hj. apply Hup. lia.
Qed.

Lemma op_misc_wait_key c st :
  kk (instruction c) = 0x0A -> op_misc c st = op_wait_key c st.
Proof. intros H. unfold op_misc. rewrite H. reflexivity. Qed.

(** X14: while no key is down, 0xFX0A changes nothing: the cycle puts the
    program counter back on the instruction, so that the machine is the
    one before the cycle but for the decoded instruction, and the next
    cycle runs the wait again. *)
Theorem wait_key_spins_without_key rnd c c1 :
  wf c ->
  nextInstruction c = Ok c1 ->
  Z.shiftr (raw (instruction c1)) 12 = 0xF ->
  kk (instruction c1) = 0x0A ->
  (forall j, 0 <= j < KEYS -> get (keypad c) j = 0) ->
  emulateInstruction rnd statics0 c
  = Ok (set_instruction (instruction c1) c, statics0).
Proof.
  intros Hwf Hf Hfam Hkk Hup.
  rewrite (emulateInstruction_fetch _ _ _ _ Hf), (execute_misc _ _ _ Hfam),
    (op_misc_wait_key _ _ Hkk).
  pose proof (wf_keypad_length c Hwf) as Hlen.
  pose proof (wf_programCounter c Hwf) as Hpc.
  destruct (fetch_frame _ _ Hf) as (_ & _ & _ & _ & Hk & _).
  unfold op_wait_key. change (Z.to_nat KEYS) with 16%nat. unfold KEYS in *.
  rewrite (scan_keypad_none 16 0 c1 statics0); [| done | lia | | ].
  - cbn. do 2 f_equal.
    destruct (nextInstruction_shape _ _ Hf) as [w ->].
    unfold pc_back, word16 in *. cbn.
    assert (E : u16 (u16 (programCounter c + 2) - 2) = programCounter c).
    { unfold u16. rewrite Zminus_mod_idemp_l.
      replace (programCounter c + 2 - 2) with (programCounter c) by lia.
      apply Z.mod_small. lia. }
    rewrite E. by destruct c.
  - rewrite Hk, Hlen. lia.
  - intros j Hj. rewrite Hk. apply Hup. lia.
Qed.

Lemma wait_key_spins_without_key_witness :
  run wait_key_program 1
  = Ok (set_instruction (instruction (fetched (after wait_key_program 0)))
          (after wait_key_program 0), statics0)
  /\ programCounter (after wait_key_program 1) = 0x200.
Proof.
  split; [|evaluate].
  transitivity (emulateInstruction 0 statics0 (after wait_key_program 0)).
  - evaluate.
  - apply (wait_key_spins_without_key 0 (after wait_key_program 0)
             (fetched (after wait_key_program 0))).
    + by_computation.
    + evaluate.
    + evaluate.
    + evaluate.
    + intros j Hj. unfold KEYS in Hj.
      assert (Hcases : j = 0 \/ j = 1 \/ j = 2 \/ j = 3 \/ j = 4 \/ j = 5
                       \/ j = 6 \/ j = 7 \/ j = 8 \/ j = 9 \/ j = 10
                       \/ j = 11 \/ j = 12 \/ j = 13 \/ j = 14 \/ j = 15)
        by lia.
      repeat (destruct Hcases as [->|Hcases]; [evaluate|]).
      subst j. evaluate.
Defined.

(** X15: as soon as a key is down, 0xFX0A stores the lowest key that is
    down in V[X] and goes on to the next instruction, in the same cycle:
    the two static locals are back at their initial values when the call
    returns, so the wait does not last until the key is released. *)
Theorem wait_key_takes_lowest_key rnd c c1 m :
  wf c ->
  nextInstruction c = Ok c1 ->
  Z.shiftr (raw (instruction c1)) 12 = 0xF ->
  kk (instruction c1) = 0x0A ->
  0 <= m < KEYS ->
  get (keypad c) m <> 0 ->
  (forall j, 0 <= j < m -> get (keypad c) j = 0) ->
  exists c',
    emulateInstruction rnd statics0 c = Ok (c', statics0)
    /\ getV c' (x (instruction c1)) = m
    /\ programCounter c' = (programCounter c + 2) mod 65536.
Proof.
  intros Hwf Hf Hfam Hkk Hm Hdown Hup.
  rewrite (emulateInstruction_fetch _ _ _ _ Hf), (execute_misc _ _ _ Hfam),
    (op_misc_wait_key _ _ Hkk).
  pose proof (wf_keypad_length c Hwf) as Hlen.
  destruct (nextInstruction_fields _ _ Hf) as (_ & HX & _).
  destruct (fetch_frame _ _ Hf) as (_ & _ & _ & _ & Hk & _).
  unfold op_wait_key. change (Z.to_nat KEYS) with 16%nat. unfold KEYS in *.
  rewrite (scan_keypad_first 16 0 c1 statics0 m);
    [| done | lia | lia | rewrite Hk, Hlen; lia | by rewrite Hk
     | by rewrite Hk ].
  assert (Em : u16 m = m) by (unfold u16; apply Z.mod_small; lia).
  cbn [mbind result_bind keyPressed key]. rewrite Em.
  rewrite read_keypad_get by (rewrite Hk, Hlen; lia). rewrite Hk.
  cbn [mbind result_bind CHIP8_KEY_DOWN truthy]. cbn [Z.eqb negb].
  unfold truthy. destruct (Z.eqb_spec (get (keypad c) m) 0); [done|]. cbn.
  eexists; split; [reflexivity|]. split.
  - rewrite getV_setV_eq by (rewrite (fetch_length_V _ _ Hwf Hf); lia).
    unfold u8. apply Z.mod_small. lia.
  - destruct (nextInstruction_shape _ _ Hf) as [w ->]. reflexivity.
Qed.

Lemma wait_key_takes_lowest_key_witness :
  exists c',
    emulateInstruction 0 statics0
      (press 9 (press 5 (after wait_key_program 0))) = Ok (c', statics0)
    /\ getV c' 3 = 5
    /\ programCounter c' = 0x202.
Proof.
  apply (wait_key_takes_lowest_key 0
           (press 9 (press 5 (after wait_key_program 0)))
           (fetched (press 9 (press 5 (after wait_key_program 0)))) 5).
  - by_computation.
  - evaluate.
  - evaluate.
  - evaluate.
  - unfold KEYS. lia.
  - evaluate_ne.
  - intros j Hj.
    assert (Hcases : j = 0 \/ j = 1 \/ j = 2 \/ j = 3 \/ j = 4) by lia.
    repeat (destruct Hcases as [->|Hcases]; [evaluate|]).
    subst j. evaluate.
Defined.

(** ** Loading a ROM *)

Lemma loadRom_fits c rom :
  0x200 + Z.of_nat (length rom) <= Z.of_nat (length (ram c)) ->
  loadRom c rom
  = Ok (set_programCounter 0x200
          (set_ram (take 512 (ram c)
                      ++ (rom ++ drop (length rom) (drop 512 (ram c)))) c)).
Proof.
  intros Hfit. unfold loadRom, memcpy. cbv zeta.
  destruct (Z.leb_spec (0x200 + Z.of_nat (length rom))
              (Z.of_nat (length (ram c)))); [|lia].
  change (Z.to_nat 0x200) with 512%nat. by rewrite firstn_all.
Qed.

(** X16: [loadRom] puts the bytes of the file at 0x200 and the following
    addresses and sets the program counter to 0x200; the bytes below 0x200
    (the font) and the bytes after the file stay as they were.  A file
    that does not fit between 0x200 and the end of ram is not refused: the
    read runs over the end of the array. *)
Theorem loadRom_places_the_file c rom :
  wf c ->
  (0x200 + Z.of_nat (length rom) <= RAM_SIZE ->
   exists c',
     loadRom c rom = Ok c'
     /\ bytes_at c' 0x200 (length rom) = rom
     /\ programCounter c' = 0x200
     /\ (forall a, 0 <= a < 0x200
                   \/ 0x200 + Z.of_nat (length rom) <= a < RAM_SIZE ->
           get (ram c') a = get (ram c) a)
     /\ length (ram c') = length (ram c))
  /\ (RAM_SIZE < 0x200 + Z.of_nat (length rom) ->
      loadRom c rom = Undefined (RamOutOfBounds RAM_SIZE)).
Proof.
  intros Hwf. pose proof (wf_ram_length c Hwf) as Hlen.
  unfold RAM_SIZE. split.
  - intros Hfit. rewrite loadRom_fits by lia.
    eexists; split; [reflexivity|].
    assert (Htake : length (take 512 (ram c)) = 512%nat)
      by (rewrite length_take; lia).
    cbn [ram set_ram set_programCounter programCounter]. unfold bytes_at.
    cbn [ram set_ram set_programCounter].
    change (Z.to_nat 0x200) with 512%nat.
    split; [|split; [done|split]].
    + rewrite drop_app_length' by done. by rewrite take_app_length.
    + intros a Ha. unfold get. destruct Ha as [Ha|Ha].
      * rewrite lookup_total_app_l by lia.
        apply lookup_total_take_lt. lia.
      * rewrite lookup_total_app_r by lia.
        rewrite lookup_total_app_r by lia.
        rewrite !lookup_total_drop. f_equal. lia.
    + rewrite !length_app, length_take, !length_drop. lia.
  - intros Hlong. unfold loadRom. cbv zeta.
    destruct (Z.leb_spec (0x200 + Z.of_nat (length rom))
                (Z.of_nat (length (ram c)))); [lia|].
    by rewrite Hlen.
Qed.

Lemma loadRom_places_the_file_witness :
  exists c',
    loadRom chip8_init end_to_end_program = Ok c'
    /\ bytes_at c' 0x200 8 = end_to_end_program
    /\ programCounter c' = 0x200.
Proof.
  destruct (loadRom_places_the_file chip8_init end_to_end_program)
    as [Hfits _]; [by_computation|].
  destruct Hfits as (c' & Hload & Hbytes & Hpc & _); [evaluate_ne|].
  exists c'. split; [exact Hload|]. split; [exact Hbytes | exact Hpc].
Defined.

(** X17: the first instruction a booted machine fetches is made of the
    first two bytes of the ROM file, the first byte being the high one. *)
Theorem boot_fetches_the_first_two_bytes hi lo rest c :
  byte hi -> byte lo ->
  boot (hi :: lo :: rest) = Ok c ->
  exists c1,
    nextInstruction c = Ok c1
    /\ raw (instruction c1) = hi * 256 + lo
    /\ programCounter c1 = 0x202.
Proof.
  intros Bhi Blo Hboot. unfold boot in Hboot.
  pose proof wf_chip8_init as Hwf.
  pose proof (wf_ram_length _ Hwf) as Hlen.
  change (initChip8 zeroChip8) with chip8_init in Hboot.
  assert (Hfit : 0x200 + Z.of_nat (length (hi :: lo :: rest))
                 <= Z.of_nat (length (ram chip8_init))).
  { unfold loadRom in Hboot. cbv zeta in Hboot.
    destruct (Z.leb_spec (0x200 + Z.of_nat (length (hi :: lo :: rest)))
                (Z.of_nat (length (ram chip8_init)))); [done|discriminate]. }
  rewrite (loadRom_fits _ _ Hfit) in Hboot. apply Ok_inj in Hboot. subst c.
  set (mem := take 512 (ram chip8_init)
              ++ ((hi :: lo :: rest)
                  ++ drop (length (hi :: lo :: rest)) (drop 512 (ram chip8_init)))).
  assert (Htake : length (take 512 (ram chip8_init)) = 512%nat)
    by (rewrite length_take; lia).
  assert (Hhi : lookupZ mem 0x200 = Some hi).
  { unfold lookupZ, mem. cbn [Z.leb Z.compare]. change (Z.to_nat 0x200) with 512%nat.
    rewrite lookup_app_r by lia. rewrite Htake. reflexivity. }
  assert (Hlo : lookupZ mem (0x200 + 1) = Some lo).
  { unfold lookupZ, mem. cbn [Z.leb Z.compare Z.add Pos.add Pos.succ].
    change (Z.to_nat 513) with 513%nat.
    rewrite lookup_app_r by lia. rewrite Htake. reflexivity. }
  unfold nextInstruction, read_ram.
  cbn [ram set_ram set_programCounter programCounter].
  fold mem. rewrite Hhi, Hlo. cbn [mbind result_bind].
  eexists; split; [reflexivity|].
  cbn [instruction set_instruction raw decode programCounter set_programCounter].
  unfold byte in *. rewrite lor_shiftl_8 by lia.
  split; [|reflexivity]. unfold u16. apply Z.mod_small. lia.
Qed.

Lemma boot_fetches_the_first_two_bytes_witness :
  exists c1,
    nextInstruction (after end_to_end_program 0) = Ok c1
    /\ raw (instruction c1) = 0x60 * 256 + 0x05
    /\ programCounter c1 = 0x202.
Proof.
  apply (boot_fetches_the_first_two_bytes 0x60 0x05
           [0x61; 0x06; 0x80; 0x14; 0x00; 0xE0] (after end_to_end_program 0)).
  - unfold byte. lia.
  - unfold byte. lia.
  - evaluate.
Defined.

(** ** Drawing on a blank screen *)

Lemma row_mask_at j spriteByte dy dx col :
  0 <= dy -> 0 <= dx -> 0 <= col < Z.of_nat j -> dx + col < WINDOW_WIDTH ->
  row_mask j spriteByte dy dx (Z.to_nat (dy * WINDOW_WIDTH + dx + col))
  = Z.land spriteByte (Z.shiftl 1 (Z.of_nat j - col)).
Proof.
  unfold WINDOW_WIDTH. revert dx col.
  induction j as [|j IH]; intros dx col Hdy Hdx Hcol Hfit; [lia|].
  cbn [row_mask]. unfold WINDOW_WIDTH, u8.
  rewrite (Z.mod_small (dx + 1)) by lia.
  destruct (decide (col = 0)) as [->|Hne].
  - rewrite Z.add_0_r, Z.sub_0_r.
    destruct (decide _) as [_|Hbad]; [|done].
    destruct (Z.geb_spec (dx + 1) 64); [by rewrite Z.lxor_0_r|].
    rewrite row_mask_outside; unfold WINDOW_WIDTH; [|lia..].
    by rewrite Z.lxor_0_r.
  - destruct (decide _) as [Hbad|_]; [lia|].
    destruct (Z.geb_spec (dx + 1) 64); [lia|].
    replace (dy * 64 + dx + col) with (dy * 64 + (dx + 1) + (col - 1)) by lia.
    rewrite IH by lia. rewrite Z.lxor_0_l. do 2 f_equal. lia.
Qed.

Lemma rows_mask_at k i x0 dy mem index row col :
  0 <= x0 -> 0 <= dy -> 0 <= i -> i + Z.of_nat k < 256 ->
  0 <= index -> index + i + Z.of_nat k <= Z.of_nat (length mem) ->
  0 <= row < Z.of_nat k -> dy + row < WINDOW_HEIGHT ->
  0 <= col < 7 -> x0 + col < WINDOW_WIDTH ->
  rows_mask k i x0 dy mem index
    (Z.to_nat ((dy + row) * WINDOW_WIDTH + x0 + col))
  = Z.land (get mem (index + i + row)) (Z.shiftl 1 (7 - col)).
Proof.
  unfold WINDOW_WIDTH, WINDOW_HEIGHT. intros Hx0. revert i dy row.
  induction k as [|k IH]; intros i dy row Hdy Hi Hk Hidx Hlen Hrow Hfit Hcol Hxfit;
    [lia|].
  rewrite rows_mask_S.
  destruct (lookupZ_in_range mem (index + i)) as [b Hb]; [lia|].
  rewrite Hb. apply lookupZ_get in Hb. unfold WINDOW_HEIGHT, u8.
  rewrite (Z.mod_small (dy + 1)), (Z.mod_small (i + 1)) by lia.
  destruct (decide (row = 0)) as [->|Hne].
  - rewrite !Z.add_0_r. rewrite (row_mask_at 7); unfold WINDOW_WIDTH; [|lia..].
    rewrite Hb. change (Z.of_nat 7) with 7.
    destruct (Z.geb_spec (dy + 1) 32); [by rewrite Z.lxor_0_r|].
    rewrite rows_mask_outside; unfold WINDOW_WIDTH, WINDOW_HEIGHT; [|lia..].
    by rewrite Z.lxor_0_r.
  - rewrite row_mask_outside; unfold WINDOW_WIDTH; [|lia..].
    destruct (Z.geb_spec (dy + 1) 32); [lia|].
    replace ((dy + row) * 64 + x0 + col)
      with ((dy + 1 + (row - 1)) * 64 + x0 + col) by lia.
    rewrite IH by lia. rewrite Z.lxor_0_l. do 2 f_equal. lia.
Qed.

Lemma draw_bit_blank j spriteByte dy dx c :
  0 <= dy * WINDOW_WIDTH + dx < Z.of_nat (length (frameBuffer c)) ->
  blank_from (frameBuffer c) (dy * WINDOW_WIDTH + dx) ->
  getV (draw_bit j spriteByte dy dx c) 0xF = getV c 0xF
  /\ length (frameBuffer (draw_bit j spriteByte dy dx c))
     = length (frameBuffer c)
  /\ blank_from (frameBuffer (draw_bit j spriteByte dy dx c))
       (dy * WINDOW_WIDTH + dx + 1).
Proof.
  intros Hin Hblank. unfold draw_bit.
  rewrite (Hblank (dy * WINDOW_WIDTH + dx)) by lia.
  change (truthy 0) with false. rewrite andb_false_r.
  cbn [frameBuffer set_frameBuffer]. split; [done|]. split.
  - apply length_put.
  - intros i Hi Hlen. rewrite length_put in Hlen.
    rewrite get_put_ne by lia. apply Hblank; lia.
Qed.

Lemma blank_from_le fb k k' : k <= k' -> blank_from fb k -> blank_from fb k'.
Proof. intros Hle H i Hi Hlen. apply H; lia. Qed.

Lemma draw_row_blank j spriteByte dy dx c :
  0 <= dy -> 0 <= dx < WINDOW_WIDTH ->
  dy * WINDOW_WIDTH + WINDOW_WIDTH <= Z.of_nat (length (frameBuffer c)) ->
  blank_from (frameBuffer c) (dy * WINDOW_WIDTH + dx) ->
  getV (draw_row j spriteByte dy dx c) 0xF = getV c 0xF
  /\ length (frameBuffer (draw_row j spriteByte dy dx c))
     = length (frameBuffer c)
  /\ blank_from (frameBuffer (draw_row j spriteByte dy dx c))
       (dy * WINDOW_WIDTH + WINDOW_WIDTH).
Proof.
  revert dx c. induction j as [|j IH]; intros dx c Hdy Hdx Hlen Hblank.
  - split; [done|]. split; [done|].
    eapply blank_from_le; [|exact Hblank]. lia.
  - cbn [draw_row].
    destruct (draw_bit_blank (S j) spriteByte dy dx c) as (HF & HL & HB);
      [unfold WINDOW_WIDTH in *; lia | done |].
    unfold u8. rewrite (Z.mod_small (dx + 1)) by (unfold WINDOW_WIDTH in *; lia).
    destruct (Z.geb_spec (dx + 1) WINDOW_WIDTH).
    + split; [done|]. split; [done|].
      eapply blank_from_le; [|exact HB]. lia.
    + destruct (IH (dx + 1) (draw_bit (S j) spriteByte dy dx c))
        as (HF' & HL' & HB'); [lia | lia | by rewrite HL | |].
      { eapply blank_from_le; [|exact HB]. lia. }
      split; [congruence|]. split; [congruence | done].
Qed.

Lemma draw_rows_blank k i x0 dy c c' :
  0 <= x0 < WINDOW_WIDTH -> 0 <= dy < WINDOW_HEIGHT ->
  length (frameBuffer c) = 2048%nat ->
  blank_from (frameBuffer c) (dy * WINDOW_WIDTH + x0) ->
  draw_rows k i x0 dy c = Ok c' ->
  getV c' 0xF = getV c 0xF.
Proof.
  revert i dy c. induction k as [|k IH]; intros i dy c Hx0 Hdy Hlen Hblank Hrun.
  - apply Ok_inj in Hrun. by subst.
  - rewrite draw_rows_S in Hrun. apply bind_Ok in Hrun as (b & _ & Hrun).
    destruct (draw_row_blank 7 b dy x0 c) as (HF & HL & HB);
      [lia | done | unfold WINDOW_WIDTH, WINDOW_HEIGHT in *; lia | done |].
    unfold u8 in Hrun.
    rewrite (Z.mod_small (dy + 1)) in Hrun
      by (unfold WINDOW_HEIGHT in *; lia).
    destruct (Z.geb_spec (dy + 1) WINDOW_HEIGHT).
    + apply Ok_inj in Hrun. by subst.
    + assert (HB' : blank_from (frameBuffer (draw_row 7 b dy x0 c))
                      ((dy + 1) * WINDOW_WIDTH + x0))
        by (eapply blank_from_le; [|exact HB]; lia).
      rewrite (IH _ (dy + 1) (draw_row 7 b dy x0 c) Hx0 ltac:(lia)
                 ltac:(congruence) HB' Hrun).
      done.
Qed.

Lemma truthy_land_bit s k :
  0 <= k -> truthy (Z.land s (Z.shiftl 1 k)) = Z.testbit s k.
Proof.
  intros Hk. unfold truthy.
  assert (Hbits : forall m, 0 <= m ->
            Z.testbit (Z.land s (Z.shiftl 1 k)) m
            = Z.testbit s m && (m =? k)).
  { intros m Hm. rewrite Z.land_spec, Z.shiftl_spec by done.
    destruct (Z.eqb_spec m k) as [->|Hne].
    - by rewrite Z.sub_diag.
    - destruct (Z.lt_ge_cases m k).
      + rewrite (Z.testbit_neg_r 1 (m - k)) by lia. done.
      + replace (m - k) with (Z.succ (m - k - 1)) by lia.
        rewrite (Z.bits_above_log2 1) by (cbn; lia). done. }
  destruct (Z.testbit s k) eqn:Hs.
  - destruct (Z.eqb_spec (Z.land s (Z.shiftl 1 k)) 0) as [E|]; [|done].
    pose proof (Hbits k Hk) as Hb. rewrite E, Z.bits_0, Hs, Z.eqb_refl in Hb.
    done.
  - destruct (Z.eqb_spec (Z.land s (Z.shiftl 1 k)) 0) as [|Hne]; [done|].
    exfalso. apply Hne. apply Z.bits_inj'. intros m Hm.
    rewrite Hbits, Z.bits_0 by done.
    destruct (Z.eqb_spec m k) as [->|]; [by rewrite Hs | by rewrite andb_false_r].
Qed.

Lemma get_lookup fb i v : 0 <= i -> fb !! Z.to_nat i = Some v -> get fb i = v.
Proof. intros Hi H. unfold get. by apply list_lookup_total_correct. Qed.

(** X18: on a blank screen a draw reports no collision and paints the
    sprite as it is stored: for each row of the sprite and each of its
    seven leftmost columns that fall inside the screen, the cell is on
    exactly when the matching bit of the sprite byte, from bit 7 down to
    bit 1, is set. *)
Theorem draw_on_blank_screen rnd st c c1 :
  wf c ->
  nextInstruction c = Ok c1 ->
  Z.shiftr (raw (instruction c1)) 12 = 0xD ->
  (forall i, 0 <= i < WINDOW_WIDTH * WINDOW_HEIGHT ->
     get (frameBuffer c) i = 0) ->
  indexRegister c + n (instruction c1) <= RAM_SIZE ->
  exists c',
    emulateInstruction rnd st c = Ok (c', st)
    /\ getV c' 0xF = 0
    /\ forall row col,
         0 <= row < n (instruction c1) -> 0 <= col < 7 ->
         getV c (y (instruction c1)) mod WINDOW_HEIGHT + row < WINDOW_HEIGHT ->
         getV c (x (instruction c1)) mod WINDOW_WIDTH + col < WINDOW_WIDTH ->
         pixel_on c'
           ((getV c (y (instruction c1)) mod WINDOW_HEIGHT + row)
              * WINDOW_WIDTH
            + getV c (x (instruction c1)) mod WINDOW_WIDTH + col)
         = Z.testbit (get (ram c) (indexRegister c + row)) (7 - col).
Proof.
  intros Hwf Hf Hfam Hblank Hrange.
  rewrite (emulateInstruction_fetch _ _ _ _ Hf), (execute_draw _ _ _ Hfam).
  pose proof (wf_ram_length c Hwf) as Hlen.
  pose proof (wf_indexRegister c Hwf) as HI.
  assert (Hfblen : length (frameBuffer c) = 2048%nat) by apply Hwf.
  destruct (nextInstruction_fields _ _ Hf) as (Hn & _).
  destruct (fetch_frame _ _ Hf) as (Hfb & _ & _ & Hram & _ & Hidx & _).
  pose proof (wf_V_byte c (x (instruction c1)) Hwf) as Bx.
  pose proof (wf_V_byte c (y (instruction c1)) Hwf) as By.
  rewrite <- !(fetch_getV _ _ _ Hf) in *.
  unfold word16, RAM_SIZE, WINDOW_WIDTH, WINDOW_HEIGHT in *.
  pose proof (Z.mod_pos_bound (getV c1 (x (instruction c1))) 64 ltac:(lia)) as Hx0.
  pose proof (Z.mod_pos_bound (getV c1 (y (instruction c1))) 32 ltac:(lia)) as Hy0.
  unfold op_draw. unfold WINDOW_WIDTH, WINDOW_HEIGHT.
  rewrite (u8_small (getV c1 (x (instruction c1)) mod 64)) by (unfold byte; lia).
  rewrite (u8_small (getV c1 (y (instruction c1)) mod 32)) by (unfold byte; lia).
  set (x0 := getV c1 (x (instruction c1)) mod 64) in *.
  set (y0 := getV c1 (y (instruction c1)) mod 32) in *.
  clearbody x0 y0.
  destruct (draw_rows_defined (Z.to_nat (n (instruction c1))) 0 x0 y0
              (setV 0xF 0 c1)) as [c2 Hrows]; cbn; rewrite ?Hram, ?Hidx; try lia.
  rewrite Hrows. cbn [mbind result_bind]. eexists; split; [reflexivity|].
  split.
  - change (getV (set_draw 1 c2) 15) with (getV c2 15).
    rewrite (draw_rows_blank (Z.to_nat (n (instruction c1))) 0 x0 y0
               (setV 0xF 0 c1) c2); try done.
    + apply getV_setV_eq. rewrite (fetch_length_V _ _ Hwf Hf). lia.
    + cbn. congruence.
    + intros i Hi Hin. cbn in Hin |- *. rewrite Hfb in *. apply Hblank. lia.
  - intros row col Hrow Hcol Hyfit Hxfit.
    unfold pixel_on. cbn [frameBuffer set_draw].
    set (cell := (y0 + row) * 64 + x0 + col).
    pose proof (draw_rows_frameBuffer _ _ _ _ _ _ (Z.to_nat cell) Hrows) as Hc.
    cbn [frameBuffer setV set_V ram indexRegister] in Hc.
    rewrite Hfb, Hram, Hidx in Hc.
    destruct (lookup_lt_is_Some_2 (frameBuffer c) (Z.to_nat cell)) as [v Hv];
      [apply Nat2Z.inj_lt; rewrite Z2Nat.id, Hfblen by (subst cell; lia);
       change (Z.of_nat 2048) with 2048; subst cell; lia|].
    rewrite Hv in Hc. cbn in Hc.
    assert (Hcell : 0 <= cell) by (subst cell; lia).
    rewrite (get_lookup _ _ _ Hcell Hc).
    pose proof (get_lookup _ _ _ Hcell Hv) as Ev.
    rewrite Hblank in Ev by (subst cell; lia). subst v. rewrite Z.lxor_0_l.
    subst cell.
    rewrite (rows_mask_at _ 0 x0 y0 (ram c) (indexRegister c) row col);
      unfold WINDOW_WIDTH, WINDOW_HEIGHT; try lia.
    rewrite Z.add_0_r. apply truthy_land_bit. lia.
Qed.

Lemma draw_on_blank_screen_witness :
  exists c',
    emulateInstruction 0 statics0 (after blank_draw_program 3)
      = Ok (c', statics0)
    /\ getV c' 0xF = 0
    /\ pixel_on c' ((2 + 0) * WINDOW_WIDTH + 3 + 0) = true
    /\ pixel_on c' ((2 + 0) * WINDOW_WIDTH + 3 + 1) = false
    /\ pixel_on c' ((2 + 1) * WINDOW_WIDTH + 3 + 2) = true.
Proof.
  destruct (draw_on_blank_screen 0 statics0 (after blank_draw_program 3)
              (fetched (after blank_draw_program 3)))
    as (c' & Hrun & HF & Hpix).
  - by_computation.
  - evaluate.
  - evaluate.
  - intros i Hi.
    apply (Forall_lookup_total_1 (fun v => v = 0)
             (frameBuffer (after blank_draw_program 3))).
    + by_computation.
    + change (length (frameBuffer (after blank_draw_program 3))) with 2048%nat.
      unfold WINDOW_WIDTH, WINDOW_HEIGHT in Hi. lia.
  - evaluate_ne.
  - exists c'. split; [exact Hrun|]. split; [exact HF|].
    refine (conj _ (conj _ _)).
    + etransitivity;
        [ exact (Hpix 0 0 ltac:(vm_compute; split; congruence)
                   ltac:(lia) ltac:(vm_compute; reflexivity)
                   ltac:(vm_compute; reflexivity))
        | evaluate ].
    + etransitivity;
        [ exact (Hpix 0 1 ltac:(vm_compute; split; congruence)
                   ltac:(lia) ltac:(vm_compute; reflexivity)
                   ltac:(vm_compute; reflexivity))
        | evaluate ].
    + etransitivity;
        [ exact (Hpix 1 2 ltac:(vm_compute; split; congruence)
                   ltac:(lia) ltac:(vm_compute; reflexivity)
                   ltac:(vm_compute; reflexivity))
        | evaluate ].
Defined.

(** ** Key skips *)

Lemma execute_key rnd st c :
  Z.shiftr (raw (instruction c)) 12 = 0xE ->
  kk (instruction c) = 0x9E \/ kk (instruction c) = 0xA1 ->
  execute rnd st c
  = b ← read_keypad c (getV c (x (instruction c)));
    Ok (if xorb (kk (instruction c) =? 0xA1) (truthy b)
        then pc_forward c else c, st).
Proof.
  intros H Hkk. unfold execute. rewrite H. cbv zeta.
  destruct Hkk as [-> | ->]; cbn [Z.eqb Pos.eqb xorb].
  - destruct (read_keypad _ _); [|done]. cbn. by destruct (truthy a).
  - destruct (read_keypad _ _); [|done]. cbn. by destruct (truthy a).
Qed.

(** X19: the key skips 0xEX9E and 0xEXA1 index the keypad with V[X]
    unchecked.  With V[X] below 16, exactly one of the two skips the next
    instruction: 0xEX9E when the key is down, 0xEXA1 when it is up.  With
    V[X] from 16 on, the code reads outside the keypad array. *)
Theorem key_skip_reads_keypad_at_VX rnd st c c1 :
  wf c ->
  nextInstruction c = Ok c1 ->
  Z.shiftr (raw (instruction c1)) 12 = 0xE ->
  kk (instruction c1) = 0x9E \/ kk (instruction c1) = 0xA1 ->
  (getV c (x (instruction c1)) < KEYS ->
   emulateInstruction rnd st c
   = Ok (if xorb (kk (instruction c1) =? 0xA1)
                 (truthy (get (keypad c) (getV c (x (instruction c1)))))
         then pc_forward c1 else c1, st))
  /\ (KEYS <= getV c (x (instruction c1)) ->
      emulateInstruction rnd st c
      = Undefined (KeypadOutOfBounds (getV c (x (instruction c1))))).
Proof.
  intros Hwf Hf Hfam Hkk.
  rewrite (emulateInstruction_fetch _ _ _ _ Hf), (execute_key _ _ _ Hfam Hkk).
  destruct (fetch_frame _ _ Hf) as (_ & _ & _ & _ & Hkp & _).
  pose proof (wf_keypad_length c Hwf) as Hlen.
  pose proof (wf_V_byte c (x (instruction c1)) Hwf) as HV.
  rewrite (fetch_getV _ _ _ Hf). unfold KEYS. split; intros Hk.
  - rewrite read_keypad_get by (rewrite Hkp, Hlen; lia).
    by rewrite Hkp.
  - unfold read_keypad. rewrite Hkp, lookupZ_out_of_range by (rewrite Hlen; lia).
    done.
Qed.

Lemma key_skip_reads_keypad_at_VX_witness :
  emulateInstruction 0 statics0 (press 5 (after key_skip_program 1))
  = Ok (pc_forward (fetched (press 5 (after key_skip_program 1))), statics0)
  /\ emulateInstruction 0 statics0 (after key_skip_far_program 1)
     = Undefined (KeypadOutOfBounds 16).
Proof.
  split.
  - refine (proj1 (key_skip_reads_keypad_at_VX 0 statics0
                     (press 5 (after key_skip_program 1))
                     (fetched (press 5 (after key_skip_program 1)))
                     _ _ _ _) _).
    + by_computation.
    + evaluate.
    + evaluate.
    + left. evaluate.
    + vm_compute. reflexivity.
  - refine (proj2 (key_skip_reads_keypad_at_VX 0 statics0
                     (after key_skip_far_program 1)
                     (fetched (after key_skip_far_program 1))
                     _ _ _ _) _).
    + by_computation.
    + evaluate.
    + evaluate.
    + right. evaluate.
    + vm_compute. discriminate.
Defined.

(** ** Clearing the screen *)

Lemma execute_clear rnd st c :
  Z.shiftr (raw (instruction c)) 12 = 0x0 ->
  kk (instruction c) = 0xE0 ->
  execute rnd st c
  = Ok (set_draw 1
          (set_frameBuffer
             (replicate (Z.to_nat (WINDOW_WIDTH * WINDOW_HEIGHT)) 0) c), st).
Proof. intros H Hkk. unfold execute. rewrite H, Hkk. reflexivity. Qed.

Lemma get_replicate k v i :
  0 <= i < Z.of_nat k -> get (replicate k v) i = v.
Proof.
  intros Hi. unfold get. apply list_lookup_total_correct.
  apply lookup_replicate_2. lia.
Qed.

(** X20: 0x00E0 turns every cell of the frame buffer off and sets the
    draw flag; the opcode is told by its low byte alone.  A draw that runs
    next, whatever its sprite and origin, reports no collision. *)
Theorem draw_after_clear_never_collides rnd rnd' st c c1 :
  wf c ->
  nextInstruction c = Ok c1 ->
  Z.shiftr (raw (instruction c1)) 12 = 0x0 ->
  kk (instruction c1) = 0xE0 ->
  exists c',
    emulateInstruction rnd st c = Ok (c', st)
    /\ (forall i, 0 <= i < WINDOW_WIDTH * WINDOW_HEIGHT ->
          pixel_on c' i = false)
    /\ draw c' = 1
    /\ forall d1,
         nextInstruction c' = Ok d1 ->
         Z.shiftr (raw (instruction d1)) 12 = 0xD ->
         indexRegister c + n (instruction d1) <= RAM_SIZE ->
         exists c'',
           emulateInstruction rnd' st c' = Ok (c'', st) /\ getV c'' 0xF = 0.
Proof.
  intros Hwf Hf Hfam Hkk.
  rewrite (emulateInstruction_fetch _ _ _ _ Hf), (execute_clear _ _ _ Hfam Hkk).
  eexists. split; [reflexivity|].
  change (Z.to_nat (WINDOW_WIDTH * WINDOW_HEIGHT)) with 2048%nat.
  unfold WINDOW_WIDTH, WINDOW_HEIGHT.
  split; [|split; [done|]].
  - intros i Hi. unfold pixel_on. cbn [frameBuffer set_draw set_frameBuffer].
    rewrite get_replicate by lia. done.
  - intros d1 Hd Hdfam Hrange.
    rewrite (emulateInstruction_fetch _ _ _ _ Hd), (execute_draw _ _ _ Hdfam).
    destruct (fetch_frame _ _ Hf) as (_ & HV & _ & Hram & _ & Hidx & _).
    destruct (fetch_frame _ _ Hd) as (Hfb' & HV' & _ & Hram' & _ & Hidx' & _).
    cbn [frameBuffer V ram indexRegister set_draw set_frameBuffer]
      in Hfb', HV', Hram', Hidx'.
    destruct (nextInstruction_fields _ _ Hd) as (Hn & _).
    pose proof (wf_ram_length c Hwf) as Hlen.
    pose proof (wf_indexRegister c Hwf) as HI.
    pose proof (wf_V_length c Hwf) as HVlen.
    unfold word16, RAM_SIZE in *.
    unfold op_draw. unfold WINDOW_WIDTH, WINDOW_HEIGHT.
    set (x0 := u8 (getV d1 (x (instruction d1)) mod 64)).
    set (y0 := u8 (getV d1 (y (instruction d1)) mod 32)).
    assert (Hx0 : 0 <= x0 < 64).
    { subst x0. unfold u8.
      pose proof (Z.mod_pos_bound (getV d1 (x (instruction d1))) 64 ltac:(lia)).
      rewrite Z.mod_small; lia. }
    assert (Hy0 : 0 <= y0 < 32).
    { subst y0. unfold u8.
      pose proof (Z.mod_pos_bound (getV d1 (y (instruction d1))) 32 ltac:(lia)).
      rewrite Z.mod_small; lia. }
    clearbody x0 y0.
    destruct (draw_rows_defined (Z.to_nat (n (instruction d1))) 0 x0 y0
                (setV 0xF 0 d1)) as [c2 Hrows];
      cbn; rewrite ?Hram', ?Hidx', ?Hram, ?Hidx; try lia.
    rewrite Hrows. cbn [mbind result_bind]. eexists; split; [reflexivity|].
    change (getV (set_draw 1 c2) 15) with (getV c2 15).
    rewrite (draw_rows_blank (Z.to_nat (n (instruction d1))) 0 x0 y0
               (setV 0xF 0 d1) c2); try done.
    + apply getV_setV_eq. rewrite HV', HV, HVlen. lia.
    + cbn. rewrite Hfb'. apply length_replicate.
    + intros i Hi Hin. cbn in Hin |- *. rewrite Hfb' in *.
      rewrite length_replicate in Hin. apply get_replicate. lia.
Qed.

Lemma draw_after_clear_never_collides_witness :
  exists c',
    emulateInstruction 0 statics0 (after clear_draw_program 0)
    = Ok (c', statics0)
    /\ pixel_on c' 0 = false
    /\ draw c' = 1.
Proof.
  destruct (draw_after_clear_never_collides 0 0 statics0
              (after clear_draw_program 0)
              (fetched (after clear_draw_program 0)))
    as (c' & Hrun & Hoff & Hdraw & _).
  - by_computation.
  - evaluate.
  - evaluate.
  - evaluate.
  - exists c'. split; [exact Hrun|]. split; [|exact Hdraw].
    apply Hoff. unfold WINDOW_WIDTH, WINDOW_HEIGHT. lia.
Defined.

(** ** Timers *)

Lemma delayTimer_frames k c :
  byte (delayTimer c) ->
  delayTimer (Nat.iter k updateTimers c) = Z.max 0 (delayTimer c - Z.of_nat k).
Proof.
  intros H. induction k as [|k IH].
  - cbn. unfold byte in H. lia.
  - rewrite Nat.iter_succ, updateTimers_delayTimer, tick_value, IH.
    + lia.
    + rewrite IH. unfold byte in *. lia.
Qed.


(** X21: the delay timer counts frames.  After 0xFX15 has set it to V[X],
    [k] calls of [updateTimers] leave V[X] - k in it, or 0 once k has
    reached V[X]; a 0xFY07 that runs then reads this value into V[Y]. *)
Theorem delay_timer_counts_frames rnd rnd' st c c1 :
  wf c ->
  nextInstruction c = Ok c1 ->
  Z.shiftr (raw (instruction c1)) 12 = 0xF ->
  kk (instruction c1) = 0x15 ->
  exists c',
    emulateInstruction rnd st c = Ok (c', st)
    /\ forall k,
         delayTimer (Nat.iter k updateTimers c')
         = Z.max 0 (getV c (x (instruction c1)) - Z.of_nat k)
         /\ forall d d1,
              delayTimer d = delayTimer (Nat.iter k updateTimers c') ->
              length (V d) = 16%nat ->
              nextInstruction d = Ok d1 ->
              Z.shiftr (raw (instruction d1)) 12 = 0xF ->
              kk (instruction d1) = 0x07 ->
              exists d',
                emulateInstruction rnd' st d = Ok (d', st)
                /\ getV d' (x (instruction d1))
                   = Z.max 0 (getV c (x (instruction c1)) - Z.of_nat k).
Proof.
  intros Hwf Hf Hfam Hkk.
  rewrite (emulateInstruction_fetch _ _ _ _ Hf), (execute_misc _ _ _ Hfam).
  unfold op_misc. rewrite Hkk. eexists. split; [reflexivity|].
  pose proof (wf_V_byte c (x (instruction c1)) Hwf) as HV.
  rewrite <- (fetch_getV _ _ (x (instruction c1)) Hf) in *.
  intros k.
  assert (Hk : delayTimer
                 (Nat.iter k updateTimers
                    (set_delayTimer (getV c1 (x (instruction c1))) c1))
               = Z.max 0 (getV c1 (x (instruction c1)) - Z.of_nat k))
    by (by rewrite delayTimer_frames).
  split; [exact Hk|].
  intros d d1 Hd Hlen Hfd Hdfam Hdkk.
  rewrite (emulateInstruction_fetch _ _ _ _ Hfd), (execute_misc _ _ _ Hdfam).
  unfold op_misc. rewrite Hdkk. eexists. split; [reflexivity|].
  destruct (fetch_frame _ _ Hfd) as (_ & HVd & _ & _ & _ & _ & _ & Hdt & _).
  destruct (nextInstruction_fields _ _ Hfd) as (_ & Hx & _).
  rewrite getV_setV_eq by (rewrite HVd, Hlen; lia).
  by rewrite Hdt, Hd, Hk.
Qed.

Lemma delay_timer_counts_frames_witness :
  exists c',
    emulateInstruction 0 statics0 (after delay_program 1) = Ok (c', statics0)
    /\ delayTimer (Nat.iter 2 updateTimers c') = 1
    /\ delayTimer (Nat.iter 5 updateTimers c') = 0.
Proof.
  destruct (delay_timer_counts_frames 0 0 statics0 (after delay_program 1)
              (fetched (after delay_program 1)))
    as (c' & Hrun & Hk).
  - by_computation.
  - evaluate.
  - evaluate.
  - evaluate.
  - exists c'. split; [exact Hrun|]. split.
    + etransitivity; [exact (proj1 (Hk 2%nat)) | evaluate].
    + etransitivity; [exact (proj1 (Hk 5%nat)) | evaluate].
Defined.

(** ** Jumps *)

Lemma execute_jump rnd st c :
  Z.shiftr (raw (instruction c)) 12 = 0x1 ->
  execute rnd st c = Ok (set_programCounter (nnn (instruction c)) c, st).
Proof. intros H. unfold execute. rewrite H. reflexivity. Qed.

Lemma nextInstruction_set_instruction ins c :
  nextInstruction (set_instruction ins c) = nextInstruction c.
Proof.
  unfold nextInstruction, read_ram. cbn [ram programCounter set_instruction].
  destruct (lookupZ (ram c) (programCounter c)); [|done].
  destruct (lookupZ (ram c) (programCounter c + 1)); done.
Qed.

(** X22: a jump to its own address stops the program without stopping
    the machine: every further cycle fetches the same 0x1NNN and leaves
    the machine as it is, so a run of any length ends in the state the
    first cycle left. *)
Theorem jump_to_itself_spins rnd rnds st c c1 :
  nextInstruction c = Ok c1 ->
  Z.shiftr (raw (instruction c1)) 12 = 0x1 ->
  nnn (instruction c1) = programCounter c ->
  emulateCycles (rnd :: rnds) st c
  = Ok (set_instruction (instruction c1) c, st).
Proof.
  intros Hf Hfam Hnnn.
  assert (Hstep : forall r ins,
            emulateInstruction r st (set_instruction ins c)
            = Ok (set_instruction (instruction c1) c, st)).
  { intros r ins. unfold emulateInstruction.
    rewrite nextInstruction_set_instruction, Hf. cbn [mbind result_bind].
    rewrite (execute_jump _ _ _ Hfam), Hnnn.
    destruct (nextInstruction_shape _ _ Hf) as [w ->]. by destruct c. }
  assert (Hrun : forall l ins,
            emulateCycles l st (set_instruction ins c)
            = Ok (set_instruction
                    (match l with [] => ins | _ => instruction c1 end) c, st)).
  { induction l as [|r l IH]; intros ins; [done|].
    cbn [emulateCycles]. rewrite Hstep. cbn [mbind result_bind].
    rewrite IH. by destruct l. }
  replace c with (set_instruction (instruction c) c) at 1 by (by destruct c).
  apply Hrun.
Qed.

Lemma jump_to_itself_spins_witness :
  emulateCycles (replicate 50 0) statics0 (after halt_program 0)
  = Ok (set_instruction (instruction (fetched (after halt_program 0)))
          (after halt_program 0), statics0).
Proof.
  apply (jump_to_itself_spins 0 (replicate 49 0) statics0
           (after halt_program 0) (fetched (after halt_program 0))).
  - evaluate.
  - evaluate.
  - evaluate.
Defined.

(** ** Input *)

Lemma wf_set_state s c : wf c -> wf (set_state s c).
Proof. intros H. wf_fields H c. unfold set_state. wf_rebuild. Qed.

Lemma wf_set_keypad kp c :
  length kp = 16%nat -> Forall byte kp -> wf c -> wf (set_keypad kp c).
Proof. intros Hl Hb H. wf_fields H c. unfold set_keypad. wf_rebuild. Qed.

Lemma wf_press k c : wf c -> wf (press k c).
Proof.
  intros H. unfold press. apply wf_set_keypad; [| |done].
  - rewrite length_put. by apply wf_keypad_length.
  - apply Forall_put; [apply H|]. by_computation.
Qed.

Lemma wf_release k c : wf c -> wf (release k c).
Proof.
  intros H. unfold release. apply wf_set_keypad; [| |done].
  - rewrite length_put. by apply wf_keypad_length.
  - apply Forall_put; [apply H|]. by_computation.
Qed.

Lemma wf_handleInput event c : wf c -> wf (handleInput event c).
Proof.
  intros H. destruct event as [|sym|sym|]; cbn [handleInput];
    [by apply wf_set_state | | | done];
    destruct sym;
    first [done | by apply wf_press | by apply wf_release | by apply wf_set_state].
Qed.

(** X23: [handleInput] writes the keypad and the run state and nothing
    else, and it keeps the machine well formed: with the old keypad and
    state put back, the machine is the one before the call. *)
Theorem handleInput_writes_keypad_and_state event c :
  wf c ->
  wf (handleInput event c)
  /\ set_state (state c) (set_keypad (keypad c) (handleInput event c)) = c.
Proof.
  intros H. split; [by apply wf_handleInput|].
  destruct c. by destruct event as [|[]|[]|].
Qed.

Lemma handleInput_writes_keypad_and_state_witness :
  wf (handleInput (SDL_KEYDOWN SDLK_q) chip8_init)
  /\ set_state (state chip8_init)
       (set_keypad (keypad chip8_init)
          (handleInput (SDL_KEYDOWN SDLK_q) chip8_init))
     = chip8_init.
Proof.
  apply (handleInput_writes_keypad_and_state (SDL_KEYDOWN SDLK_q) chip8_init).
  by_computation.
Defined.

Lemma get_keypad_press a j c :
  wf c -> 0 <= a < KEYS -> 0 <= j ->
  get (keypad (press a c)) j
  = if decide (j = a) then CHIP8_KEY_DOWN else get (keypad c) j.
Proof.
  intros H Ha Hj. unfold press. cbn [keypad set_keypad].
  apply get_put; [|done]. rewrite (wf_keypad_length c H). unfold KEYS in Ha. lia.
Qed.

Lemma release_press a c :
  wf c -> 0 <= a < KEYS -> get (keypad c) a = CHIP8_KEY_UP ->
  keypad (release a (press a c)) = keypad c.
Proof.
  intros H Ha Hup. unfold release, press, put. cbn [keypad set_keypad].
  rewrite list_insert_insert_eq. apply list_insert_id.
  unfold get in Hup. rewrite <- Hup. apply list_lookup_lookup_total_lt.
  rewrite (wf_keypad_length c H). unfold KEYS in Ha. lia.
Qed.

(** X24: the keyboard map is one to one and onto the keypad.  On a
    machine with no key down, each of the 16 keys of the keypad has a key
    of the keyboard whose SDL_KEYDOWN sets this key and no other, whose
    SDL_KEYUP puts the keypad back, and which is the only key of the
    keyboard that sets it. *)
Theorem keyboard_map_is_one_to_one c k :
  wf c ->
  (forall j, 0 <= j < KEYS -> get (keypad c) j = CHIP8_KEY_UP) ->
  0 <= k < KEYS ->
  exists sym,
    (forall j, 0 <= j < KEYS ->
       get (keypad (handleInput (SDL_KEYDOWN sym) c)) j
       = if decide (j = k) then CHIP8_KEY_DOWN else CHIP8_KEY_UP)
    /\ keypad (handleInput (SDL_KEYUP sym) (handleInput (SDL_KEYDOWN sym) c))
       = keypad c
    /\ forall sym',
         get (keypad (handleInput (SDL_KEYDOWN sym') c)) k <> CHIP8_KEY_UP ->
         sym' = sym.
Proof.
  intros H Hup Hk.
  assert (Hset : forall a,
            0 <= a < KEYS -> a = k ->
            forall j, 0 <= j < KEYS ->
              get (keypad (press a c)) j
              = if decide (j = k) then CHIP8_KEY_DOWN else CHIP8_KEY_UP).
  { intros a Ha -> j Hj. rewrite get_keypad_press by (done || lia).
    destruct (decide (j = k)); [done | by apply Hup]. }
  assert (Hcases : k = 0 \/ k = 1 \/ k = 2 \/ k = 3 \/ k = 4 \/ k = 5 \/ k = 6
                   \/ k = 7 \/ k = 8 \/ k = 9 \/ k = 10 \/ k = 11 \/ k = 12
                   \/ k = 13 \/ k = 14 \/ k = 15) by (unfold KEYS in Hk; lia).
  assert (Hnone : get (keypad c) k = CHIP8_KEY_UP) by (by apply Hup).
  destruct Hcases as [E|[E|[E|[E|[E|[E|[E|[E|[E|[E|[E|[E|[E|[E|[E|E]]]]]]]]]]]]]]];
    [ exists SDLK_x | exists SDLK_1 | exists SDLK_2 | exists SDLK_3
    | exists SDLK_q | exists SDLK_w | exists SDLK_e | exists SDLK_a
    | exists SDLK_s | exists SDLK_d | exists SDLK_z | exists SDLK_c
    | exists SDLK_4 | exists SDLK_r | exists SDLK_f | exists SDLK_v ];
    ((split; [|split]);
     [ apply Hset; [done | by rewrite E]
     | cbn [handleInput]; apply release_press; [done | done | by rewrite <- E]
     | intros sym' Hdown; destruct sym'; cbn [handleInput state] in Hdown;
       try reflexivity;
       try (exfalso; apply Hdown; exact Hnone);
       exfalso;
       match type of Hdown with
       | get (keypad (press ?a c)) k <> _ =>
           apply Hdown; rewrite get_keypad_press by (done || lia);
           destruct (decide (k = a)); [lia | exact Hnone]
       end ]).
Qed.

Lemma keyboard_map_is_one_to_one_witness :
  exists sym,
    get (keypad (handleInput (SDL_KEYDOWN sym) chip8_init)) 0xC
    = CHIP8_KEY_DOWN
    /\ keypad (handleInput (SDL_KEYUP sym)
                 (handleInput (SDL_KEYDOWN sym) chip8_init))
       = keypad chip8_init.
Proof.
  destruct (keyboard_map_is_one_to_one chip8_init 0xC)
    as (sym & Hset & Hback & _).
  - by_computation.
  - intros j Hj. unfold KEYS in Hj.
    assert (Hj' : j = 0 \/ j = 1 \/ j = 2 \/ j = 3 \/ j = 4 \/ j = 5 \/ j = 6
                  \/ j = 7 \/ j = 8 \/ j = 9 \/ j = 10 \/ j = 11 \/ j = 12
                  \/ j = 13 \/ j = 14 \/ j = 15) by lia.
    repeat (destruct Hj' as [->|Hj']; [evaluate|]). subst j. evaluate.
  - unfold KEYS. lia.
  - exists sym. split; [|exact Hback].
    etransitivity; [apply Hset; unfold KEYS; lia | evaluate].
Defined.

(** ** The loop of main while paused *)

(** X25: while the machine is paused, the loop of [main] runs no
    instruction, draws nothing, plays nothing and leaves the timers alone:
    for events other than the window's close and a press of the space
    bar, the machine after any number of turns is the one [handleInput]
    alone makes of the events, still paused, and equal to the first but
    for the keypad, where the keys go on being recorded. *)
Theorem pause_freezes_the_machine config inputs st c :
  state c = PAUSED ->
  Forall (fun i => i.1 <> SDL_QUIT /\ i.1 <> SDL_KEYDOWN SDLK_SPACE) inputs ->
  let c' := foldl (fun d event => handleInput event d) c inputs.*1 in
  main_loop config inputs st c = Ok (c', st, [])
  /\ state c' = PAUSED
  /\ set_keypad (keypad c) c' = c.
Proof.
  intros Hs Hin. cbv zeta. revert c Hs.
  induction Hin as [|[event rnd] inputs [Hq Hsp] _ IH]; intros c Hs.
  - cbn. split; [done|]. split; [done|]. by destruct c.
  - cbn [main_loop fmap list_fmap foldl fst]. rewrite Hs.
    cbn [fst] in Hq, Hsp.
    assert (Hc1 : state (handleInput event c) = PAUSED
                  /\ set_keypad (keypad c) (handleInput event c) = c).
    { destruct c. cbn in Hs. subst.
      by destruct event as [|[]|[]|]. }
    destruct Hc1 as [Hs1 Hk1]. rewrite Hs1.
    destruct (IH _ Hs1) as (Hrun & Hs' & Hk').
    split; [exact Hrun|]. split; [exact Hs'|].
    etransitivity; [|exact Hk1]. rewrite <- Hk' at 2. reflexivity.
Qed.

Lemma pause_freezes_the_machine_witness :
  main_loop (defaultConfig zeroConfig)
    [(SDL_KEYDOWN SDLK_q, fun _ => 0); (SDL_other, fun _ => 0);
     (SDL_KEYUP SDLK_q, fun _ => 0); (SDL_KEYDOWN SDLK_v, fun _ => 0)]
    statics0 (set_state PAUSED (after halt_program 0))
  = Ok (press 0xF (release 0x4 (press 0x4
          (set_state PAUSED (after halt_program 0)))), statics0, []).
Proof.
  refine (proj1 (pause_freezes_the_machine (defaultConfig zeroConfig)
                   [(SDL_KEYDOWN SDLK_q, fun _ => 0); (SDL_other, fun _ => 0);
                    (SDL_KEYUP SDLK_q, fun _ => 0);
                    (SDL_KEYDOWN SDLK_v, fun _ => 0)]
                   statics0 (set_state PAUSED (after halt_program 0)) _ _)).
  - reflexivity.
  - repeat constructor; cbn; discriminate.
Defined.

(** ** Display *)

Lemma land_shiftr_byte color k :
  0 <= k ->
  u8 (Z.shiftr (Z.land color (Z.shiftl 0xFF k)) k) = (color / 2 ^ k) mod 256.
Proof.
  intros Hk. rewrite Z.shiftr_land, Z.shiftr_shiftl_l, Z.sub_diag by lia.
  rewrite Z.shiftl_0_r. change 255 with (Z.ones 8).
  rewrite Z.land_ones, Z.shiftr_div_pow2 by lia.
  unfold u8. change (2 ^ 8) with 256. by rewrite Z.mod_mod.
Qed.

(** X26: [drawColor] splits a 32-bit colour into its four bytes, the red
    one being the most significant: the call it makes has four values
    below 256 whose base-256 number is the colour. *)
Theorem drawColor_splits_the_colour color :
  0 <= color < 2 ^ 32 ->
  exists r g b a,
    drawColor color = [SDL_SetRenderDrawColor r g b a]
    /\ byte r /\ byte g /\ byte b /\ byte a
    /\ ((r * 256 + g) * 256 + b) * 256 + a = color.
Proof.
  intros Hc. unfold drawColor. cbv zeta.
  do 4 eexists. split; [reflexivity|].
  change 0xFF000000 with (Z.shiftl 0xFF 24).
  change 0x00FF0000 with (Z.shiftl 0xFF 16).
  change 0x0000FF00 with (Z.shiftl 0xFF 8).
  rewrite !land_shiftr_byte by lia.
  change 0x000000FF with (Z.ones 8). rewrite Z.land_ones by lia.
  unfold u8, byte. change (2 ^ 8) with 256. rewrite Z.mod_mod by lia.
  change (2 ^ 24) with 16777216. change (2 ^ 16) with 65536.
  change (2 ^ 32) with 4294967296 in Hc.
  repeat split; try (apply Z.mod_pos_bound; lia).
  Z.div_mod_to_equations. lia.
Qed.

Lemma drawColor_splits_the_colour_witness :
  exists r g b a,
    drawColor (foregroundColor (defaultConfig zeroConfig))
    = [SDL_SetRenderDrawColor r g b a]
    /\ byte r /\ byte g /\ byte b /\ byte a
    /\ ((r * 256 + g) * 256 + b) * 256 + a = 0xD169B6FF.
Proof.
  apply (drawColor_splits_the_colour
           (foregroundColor (defaultConfig zeroConfig))).
  vm_compute. split; [discriminate | reflexivity].
Defined.

Lemma filled_rects_app l1 l2 :
  filled_rects (l1 ++ l2) = filled_rects l1 ++ filled_rects l2.
Proof. apply omap_app. Qed.

Lemma to_int_small z : 0 <= z < 2 ^ 31 -> to_int z = z.
Proof.
  intros H. unfold to_int. rewrite Z.mod_small by lia.
  destruct (Z.ltb_spec z (2 ^ 31)); [done | lia].
Qed.

Lemma u32_small z : 0 <= z < 2 ^ 32 -> u32 z = z.
Proof. intros H. unfold u32. by rewrite Z.mod_small. Qed.

Lemma filled_rects_drawPixel config px py :
  filled_rects (drawPixel config px py)
  = [ {| rect_x := to_int (u32 (px * scaleFactor config));
         rect_y := to_int (u32 (py * scaleFactor config));
         rect_w := to_int (scaleFactor config);
         rect_h := to_int (scaleFactor config) |} ].
Proof.
  unfold drawPixel. cbv zeta. rewrite !filled_rects_app.
  by destruct (outlines config).
Qed.

Lemma cell_rect_drawPixel config i :
  0 <= scaleFactor config ->
  WINDOW_WIDTH * scaleFactor config < 2 ^ 31 ->
  0 <= i < WINDOW_WIDTH * WINDOW_HEIGHT ->
  filled_rects (drawPixel config (i mod WINDOW_WIDTH) (i / WINDOW_WIDTH))
  = [cell_rect (scaleFactor config) i].
Proof.
  unfold WINDOW_WIDTH, WINDOW_HEIGHT. intros Hs Hfit Hi.
  rewrite filled_rects_drawPixel. unfold cell_rect, WINDOW_WIDTH.
  assert (0 <= i mod 64 < 64) by (apply Z.mod_pos_bound; lia).
  assert (0 <= i / 64 < 32) by (split; [apply Z.div_pos | apply Z.div_lt_upper_bound]; lia).
  rewrite !u32_small, !to_int_small by nia. done.
Qed.

Lemma in_window_cell_rect s i :
  0 <= s -> 0 <= i < WINDOW_WIDTH * WINDOW_HEIGHT -> in_window s (cell_rect s i).
Proof.
  unfold in_window, cell_rect, WINDOW_WIDTH, WINDOW_HEIGHT. cbn. intros Hs Hi.
  assert (0 <= i mod 64 < 64) by (apply Z.mod_pos_bound; lia).
  assert (0 <= i / 64 < 32) by (split; [apply Z.div_pos | apply Z.div_lt_upper_bound]; lia).
  nia.
Qed.

Lemma filled_rects_draw_cells config c k i :
  0 <= scaleFactor config ->
  WINDOW_WIDTH * scaleFactor config < 2 ^ 31 ->
  0 <= i -> i + Z.of_nat k <= WINDOW_WIDTH * WINDOW_HEIGHT ->
  filled_rects (draw_cells k i config c)
  = cell_rect (scaleFactor config)
      <$> List.filter (pixel_on c) (seqZ i (Z.of_nat k)).
Proof.
  intros Hs Hfit. revert i. induction k as [|k IH]; intros i Hi Hk; [done|].
  cbn [draw_cells]. rewrite filled_rects_app, IH by lia.
  rewrite (seqZ_cons i) by lia.
  replace (Z.pred (Z.of_nat (S k))) with (Z.of_nat k) by lia.
  replace (Z.succ i) with (i + 1) by lia.
  cbn [List.filter]. unfold pixel_on at 2.
  destruct (truthy (get (frameBuffer c) i)).
  - rewrite cell_rect_drawPixel by lia. done.
  - done.
Qed.

(** X27: [draw] does nothing while the draw flag is 0.  With the flag
    set it resets the flag, leaves the machine alone otherwise, and fills
    one rectangle for each cell of the frame buffer that is not 0, in the
    order of the cells; the rectangle of cell i is the square of side
    scaleFactor at column i mod 64 and row i / 64, inside the window. *)
Theorem draw_fills_the_lit_cells config c :
  0 <= scaleFactor config ->
  WINDOW_WIDTH * scaleFactor config < 2 ^ 31 ->
  (draw c = 0 -> draw_display config c = ([], c))
  /\ (draw c <> 0 ->
      exists calls,
        draw_display config c = (calls, set_draw 0 c)
        /\ filled_rects calls
           = cell_rect (scaleFactor config)
               <$> List.filter (pixel_on c)
                     (seqZ 0 (WINDOW_WIDTH * WINDOW_HEIGHT))
        /\ Forall (in_window (scaleFactor config)) (filled_rects calls)).
Proof.
  intros Hs Hfit. unfold draw_display, truthy. split; intros Hd.
  - by rewrite Hd.
  - destruct (Z.eqb_spec (draw c) 0) as [|_]; [done|]. cbn [negb].
    eexists. split; [reflexivity|].
    assert (Hrects :
      filled_rects
        (clearFrameBuffer config
         ++ draw_cells (Z.to_nat (u32 (WINDOW_WIDTH * WINDOW_HEIGHT))) 0
              config c
         ++ [SDL_RenderPresent])
      = cell_rect (scaleFactor config)
          <$> List.filter (pixel_on c) (seqZ 0 (WINDOW_WIDTH * WINDOW_HEIGHT))).
    { rewrite !filled_rects_app.
      change (filled_rects (clearFrameBuffer config)) with (@nil SDL_Rect).
      change (filled_rects [SDL_RenderPresent]) with (@nil SDL_Rect).
      rewrite app_nil_l, app_nil_r.
      rewrite filled_rects_draw_cells; done. }
    split; [exact Hrects|]. rewrite Hrects.
    apply Forall_fmap, Forall_forall. intros i Hi.
    apply in_window_cell_rect; [done|].
    apply (proj1 (filter_In _ _ _)) in Hi as [Hi _].
    apply (proj2 (list_elem_of_In _ _)) in Hi.
    apply (proj1 (elem_of_seqZ _ _ _)) in Hi. lia.
Qed.

(** 6003 6102 A208 D012 and the sprite bytes A4 3C, as drawn after four
    cycles. *)
Lemma draw_fills_the_lit_cells_witness :
  exists calls,
    draw_display (defaultConfig zeroConfig) (after blank_draw_program 4)
    = (calls, set_draw 0 (after blank_draw_program 4))
    /\ filled_rects calls
       = [ mkRect 60 40 20 20; mkRect 100 40 20 20; mkRect 160 40 20 20;
           mkRect 100 60 20 20; mkRect 120 60 20 20; mkRect 140 60 20 20;
           mkRect 160 60 20 20 ].
Proof.
  destruct (proj2 (draw_fills_the_lit_cells (defaultConfig zeroConfig)
                     (after blank_draw_program 4)
                     ltac:(vm_compute; discriminate)
                     ltac:(vm_compute; reflexivity))
              ltac:(vm_compute; discriminate))
    as (calls & Hrun & Hrects & _).
  exists calls. split; [exact Hrun|].
  etransitivity; [exact Hrects | evaluate].
Defined.

(** ** Sound *)



Lemma truthy_mod_2 z : truthy (z mod 2) = Z.odd z.
Proof.
  unfold truthy. rewrite Zmod_odd. by destruct (Z.odd z).
Qed.

Lemma to_int16_amplitude amp :
  0 <= amp < 2 ^ 15 ->
  to_int16 amp = amp /\ to_int16 (u32 (- amp)) = - amp.
Proof.
  intros H. unfold to_int16, u32. split.
  - rewrite Z.mod_small by lia. destruct (Z.ltb_spec amp (2 ^ 15)); [done | lia].
  - destruct (decide (amp = 0)) as [->|Hne]; [done|].
    replace (- amp) with (2 ^ 32 - amp + (-1) * 2 ^ 32) by lia.
    rewrite Z.mod_add by lia. rewrite (Z.mod_small (2 ^ 32 - amp)) by lia.
    replace (2 ^ 32 - amp) with (2 ^ 16 - amp + 65535 * 2 ^ 16) by lia.
    rewrite Z.mod_add by lia. rewrite Z.mod_small by lia.
    destruct (Z.ltb_spec (2 ^ 16 - amp) (2 ^ 15)); lia.
Qed.

Lemma squareWave_loop_samples k config h i :
  0 < h -> 0 <= audioAmplitude config < 2 ^ 15 ->
  0 <= i -> i + Z.of_nat k < 2 ^ 32 ->
  squareWave_loop k config h i
  = Some (square_sample h (audioAmplitude config) <$> seqZ i (Z.of_nat k),
          i + Z.of_nat k).
Proof.
  intros Hh Hamp. revert i. induction k as [|k IH]; intros i Hi Hk.
  - cbn. by rewrite Z.add_0_r.
  - cbn [squareWave_loop].
    destruct (Z.eqb_spec h 0) as [|_]; [lia|].
    rewrite (u32_small (i + 1)) by lia. rewrite IH by lia.
    cbn [mbind option_bind]. rewrite (seqZ_cons i) by lia.
    replace (Z.pred (Z.of_nat (S k))) with (Z.of_nat k) by lia.
    replace (Z.succ i) with (i + 1) by lia.
    rewrite fmap_cons. unfold square_sample at 2.
    rewrite truthy_mod_2.
    destruct (to_int16_amplitude _ Hamp) as [Hpos Hneg].
    destruct (Z.odd (i / h)); rewrite ?Hpos, ?Hneg;
      do 2 f_equal; lia.
Qed.

(** X29: [squareWave] writes len / 2 samples of a square wave that goes
    on where the call before stopped: the sample of index i, counted over
    all calls, is -audioAmplitude while i / h is even and +audioAmplitude
    while it is odd, h being (sampleFrequency / audioFrequency) / 2
    samples.  When audioFrequency is 0, or is more than half of
    sampleFrequency and a sample is asked for, the code divides by zero. *)
Theorem squareWave_samples config sampleIndex len :
  0 <= sampleFrequency config ->
  0 <= audioFrequency config ->
  0 <= audioAmplitude config < 2 ^ 15 ->
  0 <= len < 2 ^ 31 ->
  0 <= sampleIndex -> sampleIndex + len / 2 < 2 ^ 32 ->
  let h := sampleFrequency config / audioFrequency config / 2 in
  (0 < audioFrequency config ->
   2 * audioFrequency config <= sampleFrequency config ->
   squareWave config sampleIndex len
   = Some (square_sample h (audioAmplitude config)
             <$> seqZ sampleIndex (len / 2),
           sampleIndex + len / 2))
  /\ (audioFrequency config = 0
      \/ (sampleFrequency config < 2 * audioFrequency config /\ 2 <= len) ->
      squareWave config sampleIndex len = None).
Proof.
  intros Hsf Haf Hamp Hlen Hidx Hfit. cbv zeta.
  assert (Hcount : Z.of_nat (Z.to_nat (u32 (to_size_t len / 2))) = len / 2).
  { unfold to_size_t. rewrite (Z.mod_small len) by lia.
    assert (0 <= len / 2 < 2 ^ 31)
      by (split; [apply Z.div_pos | apply Z.div_lt_upper_bound]; lia).
    rewrite u32_small by lia. lia. }
  unfold squareWave. cbv zeta. split.
  - intros Hpos Hhalf.
    destruct (Z.eqb_spec (audioFrequency config) 0) as [|_]; [lia|].
    assert (Hh : 0 < sampleFrequency config / audioFrequency config / 2).
    { apply Z.div_str_pos. split; [lia|].
      apply Z.div_le_lower_bound; lia. }
    rewrite squareWave_loop_samples; rewrite ?Hcount; try done.
  - intros [Hzero | [Hfast Htwo]].
    + by rewrite Hzero.
    + destruct (Z.eqb_spec (audioFrequency config) 0) as [|Hne]; [done|].
      assert (Hh : sampleFrequency config / audioFrequency config / 2 = 0).
      { apply Z.div_small. split; [apply Z.div_pos; lia|].
        apply Z.div_lt_upper_bound; lia. }
      rewrite Hh.
      assert (Hk : exists k, Z.to_nat (u32 (to_size_t len / 2)) = S k).
      { exists (Nat.pred (Z.to_nat (u32 (to_size_t len / 2)))).
        assert (1 <= len / 2) by (apply Z.div_le_lower_bound; lia). lia. }
      destruct Hk as [k ->]. reflexivity.
Qed.

Lemma squareWave_samples_witness :
  squareWave (defaultConfig zeroConfig) 48 8
  = Some ([-5000; -5000; 5000; 5000], 52).
Proof.
  etransitivity;
    [ refine (proj1 (squareWave_samples (defaultConfig zeroConfig) 48 8
                       _ _ _ _ _ _) _ _)
    | evaluate ].
  - vm_compute. discriminate.
  - vm_compute. discriminate.
  - vm_compute. split; [discriminate | reflexivity].
  - vm_compute. split; [discriminate | reflexivity].
  - lia.
  - vm_compute. reflexivity.
  - vm_compute. reflexivity.
  - vm_compute. discriminate.
Defined.

(** ** The loop of main *)





